(** * Lea-Tester: the benchmark pipeline of index.js and utils.js

    A shallow embedding of the two source files of the tester:

    - [JS]: the fragment of JavaScript values and arithmetic the program
      relies on (numbers with NaN and the infinities, [Math.min], strict
      equality, truthiness, what [JSON.stringify] prints);
    - [Eff]: the effects of the program: a file system, a trace of the
      external calls, exceptions and calls that never return;
    - [Path]: the functions of Node's [path] module the program calls;
    - [Utils]: utils.js ([cleanList], [toTestbed], [normalizeToPPM],
      [getPPMStatistics], [getAllFiles]);
    - [Index]: index.js (the dependency probes, [runSync], the four
      [forEach] passes of [processEverything]).

    A finite Number is the rational it stands for. Quotients and products
    are rounded to binary64 as IEEE 754 prescribes (to the nearest binary64
    number, ties to even), through the division of the Standard Library's
    [SpecFloat], and so are sums and differences, except those of two
    integers, which are exact: binary64 adds and subtracts integers exactly
    below 2^53, and the clock readings, the times and the sizes of the
    program are far below. The sign of zero is not modelled, every zero is
    +0.

    The file system has hard links and folders: a file is known by its
    first name, its links read and write the same bytes, and a file can be
    created only in a folder that exists. *)

From Stdlib Require Import ZArith QArith Qcanon String Ascii List Lia SpecFloat.
From stdpp Require Import base option list gmap strings numbers.

(* ================================================================== *)
(** * JavaScript values *)
(* ================================================================== *)

Module JS.

(** A JavaScript Number. *)
Inductive jsnum : Type :=
  | Fin (q : Qc)
  | PInf
  | NInf
  | NaN.

#[global] Instance jsnum_eq_dec : EqDecision jsnum.
Proof. solve_decision. Defined.

Definition of_Z (z : Z) : jsnum := Fin (Qc_of_Z z).
Definition of_nat (n : nat) : jsnum := of_Z (Z.of_nat n).

Definition qzero : Qc := 0%Qc.

Definition jsopp (a : jsnum) : jsnum :=
  match a with
  | Fin x => Fin (- x)
  | PInf => NInf
  | NInf => PInf
  | NaN => NaN
  end.

(** The sign of an infinite result: [pos] tells whether it is +Infinity. *)
Definition inf_of (pos : bool) : jsnum := if pos then PInf else NInf.

(** The Number a binary64 value stands for. *)
Definition of_binary64 (x : spec_float) : jsnum :=
  match x with
  | S754_zero _ => Fin qzero
  | S754_infinity s => if s then NInf else PInf
  | S754_nan => NaN
  | S754_finite s m e =>
      let magnitude : Q :=
        match e with
        | Z0 => Zpos m # 1
        | Zpos n => Zpos (Pos.shiftl m (Npos n)) # 1
        | Zneg n => Zpos m # Pos.shiftl 1 (Npos n)
        end in
      Fin (Q2Qc (if s then Qopp magnitude else magnitude))
  end.

(** The binary64 Number nearest to a rational, ties to even: the quotient
    of its numerator by its denominator, two integers, as the binary64
    division rounds it. A rational beyond the largest binary64 number
    gives an infinity. *)
Definition round64 (q : Qc) : jsnum :=
  match Qnum q with
  | Z0 => Fin qzero
  | Zpos n =>
      of_binary64 (SFdiv 53 1024 (S754_finite false n 0)
                     (S754_finite false (Qden q) 0))
  | Zneg n =>
      of_binary64 (SFdiv 53 1024 (S754_finite true n 0)
                     (S754_finite false (Qden q) 0))
  end.

(** Whether a number is an integer. *)
Definition is_integer (q : Qc) : bool := bool_decide (Qden q = 1%positive).

(** The sum of two integers is exact, as it is in binary64 for the
    integers below 2^53, which the clock readings, the times and the sizes
    of the program are; any other sum is rounded to binary64. *)
Definition jsadd (a b : jsnum) : jsnum :=
  match a, b with
  | NaN, _ | _, NaN => NaN
  | Fin x, Fin y =>
      if is_integer x && is_integer y then Fin (x + y) else round64 (x + y)
  | PInf, NInf | NInf, PInf => NaN
  | PInf, _ | _, PInf => PInf
  | NInf, _ | _, NInf => NInf
  end.

Definition jssub (a b : jsnum) : jsnum := jsadd a (jsopp b).

Definition jsmul (a b : jsnum) : jsnum :=
  match a, b with
  | NaN, _ | _, NaN => NaN
  | Fin x, Fin y => round64 (x * y)
  | Fin x, PInf | PInf, Fin x =>
      if bool_decide (x = qzero) then NaN else inf_of (bool_decide (qzero < x)%Qc)
  | Fin x, NInf | NInf, Fin x =>
      if bool_decide (x = qzero) then NaN else inf_of (bool_decide (x < qzero)%Qc)
  | PInf, PInf | NInf, NInf => PInf
  | PInf, NInf | NInf, PInf => NInf
  end.

(** Division never throws: a zero divisor gives an infinity, or NaN for
    0/0; any other quotient is rounded to binary64. *)
Definition jsdiv (a b : jsnum) : jsnum :=
  match a, b with
  | NaN, _ | _, NaN => NaN
  | Fin x, Fin y =>
      if bool_decide (y = qzero)
      then (if bool_decide (x = qzero) then NaN
            else inf_of (bool_decide (qzero < x)%Qc))
      else round64 (x / y)
  | Fin _, PInf | Fin _, NInf => Fin qzero
  | PInf, Fin y => inf_of (negb (bool_decide (y < qzero)%Qc))
  | NInf, Fin y => inf_of (bool_decide (y < qzero)%Qc)
  | PInf, PInf | PInf, NInf | NInf, PInf | NInf, NInf => NaN
  end.

(** [Math.min] of two numbers, then of an argument list ([Math.min()] of no
    argument is +Infinity). *)
Definition min2 (a b : jsnum) : jsnum :=
  match a, b with
  | NaN, _ | _, NaN => NaN
  | NInf, _ | _, NInf => NInf
  | PInf, x | x, PInf => x
  | Fin x, Fin y => Fin (if bool_decide (x ≤ y)%Qc then x else y)
  end.

Definition Math_min (args : list jsnum) : jsnum := foldr min2 PInf args.

(** The values the program stores in objects and passes to library calls. *)
Inductive value : Type :=
  | VUndef
  | VNum (n : jsnum)
  | VStr (s : string).

#[global] Instance value_eq_dec : EqDecision value.
Proof. solve_decision. Defined.

(** A plain object: its own enumerable properties. *)
Abbreviation object := (gmap string value).

(** [o[k]]: a missing property reads as [undefined]. *)
Definition prop (o : object) (k : string) : value := default VUndef (o !! k).

(** [s.name] on a string primitive: [length] is the only own data property
    this program could meet; any other name (such as [ppm]) is [undefined]. *)
Definition string_prop (s : string) (name : string) : value :=
  if bool_decide (name = "length") then VNum (of_nat (String.length s))
  else VUndef.

(** The conversions between strings and numbers are left to the runtime:
    the program only meets them on the output of the size probe. *)
Record builtins : Type := {
  StringToNumber : string → jsnum;
  NumberToString : jsnum → string;
  parseInt : string → jsnum
}.

Section Coercions.
Variable rt : builtins.

(** ToNumber. *)
Definition to_number (v : value) : jsnum :=
  match v with
  | VUndef => NaN
  | VNum n => n
  | VStr s => StringToNumber rt s
  end.

(** ToString. *)
Definition to_string (v : value) : string :=
  match v with
  | VUndef => "undefined"
  | VNum n => NumberToString rt n
  | VStr s => s
  end.

(** [a + b]: concatenation as soon as one operand is a string. *)
Definition js_plus (a b : value) : value :=
  match a, b with
  | VStr _, _ | _, VStr _ => VStr (to_string a +:+ to_string b)
  | _, _ => VNum (jsadd (to_number a) (to_number b))
  end.

Definition js_minus (a b : value) : jsnum := jssub (to_number a) (to_number b).
Definition js_times (a b : value) : jsnum := jsmul (to_number a) (to_number b).
Definition js_over (a b : value) : jsnum := jsdiv (to_number a) (to_number b).
End Coercions.

(** [a === b]: NaN is equal to nothing. *)
Definition strict_eq (a b : value) : bool :=
  match a, b with
  | VNum NaN, _ | _, VNum NaN => false
  | _, _ => bool_decide (a = b)
  end.

(** What [JSON.stringify] prints for a property value; [None] when the
    property is left out of the output. NaN and the infinities print as
    [null]. *)
Inductive json : Type :=
  | JNull
  | JNumber (q : Qc)
  | JString (s : string).

Definition JSON_value (v : value) : option json :=
  match v with
  | VUndef => None
  | VNum (Fin q) => Some (JNumber q)
  | VNum _ => Some JNull
  | VStr s => Some (JString s)
  end.

Definition JSON_object (o : object) : gmap string json := omap JSON_value o.

Definition JSON_stringify (report : list object) : list (gmap string json) :=
  JSON_object <$> report.

End JS.
Import JS.

(* ================================================================== *)
(** * Effects *)
(* ================================================================== *)

Module Eff.

Inductive exn : Type :=
  | TypeError (what : string)
  | ENOENT (path : string)
  | EEXIST (path : string)
  | ExecError (cmd : string)
  | ETIMEDOUT (cmd : string)
  | ProcessExit (code : Z).

(** What the program does to the outside world, in order. *)
Inductive event : Type :=
  | EvExec (cmd : string)
  | EvHash (path : string)
  | EvLink (src dst : string)
  | EvCopy (src dst : string)
  | EvGmWrite (src dst : string)
  | EvWarn (msg : string)
  | EvLog (msg : string)
  | EvWriteFile (path : string) (doc : list (gmap string json)).

(** What comes before the last slash of a path, when it has one. *)
Fixpoint up_to_last_slash (p : string) : option string :=
  match p with
  | EmptyString => None
  | String c p' =>
      match up_to_last_slash p' with
      | Some d => Some (String c d)
      | None => if bool_decide (c = "/"%char) then Some EmptyString else None
      end
  end.

(** The folder a path is in, as [path.dirname] gives it: what comes
    before the last slash, [/] for a name just under the root and [.] for
    a bare name. Slashes at the end of a path are not modelled: the
    program writes to paths that end in a file name. *)
Definition parent (p : string) : string :=
  match up_to_last_slash p with
  | None => "."
  | Some EmptyString => "/"
  | Some d => d
  end.

(** The file system: the bytes of each file, kept under the first name of
    the file; the other names of a file, its hard links, each with the
    first name of the file it names; and the folders that exist. *)
Record disk : Type := {
  bytes_at : gmap string string;
  link_of : gmap string string;
  folders : gset string
}.

(** The name under which the bytes of [p] are kept. *)
Definition first_name (m : disk) (p : string) : string :=
  default p (link_of m !! p).

(** [m !! p]: the bytes that reading [p] gives. *)
#[global] Instance disk_lookup : Lookup string string disk :=
  λ p m, bytes_at m !! first_name m p.

(** The file systems of the examples are written as maps: [∅] has no
    file and no folder, and [<[p := bytes]> m] is [m] with one more file
    [p], a file of its own, in its folder. *)
#[global] Instance disk_empty : Empty disk :=
  {| bytes_at := ∅; link_of := ∅; folders := ∅ |}.

#[global] Instance disk_insert : Insert string string disk :=
  λ p bytes m,
    {| bytes_at := <[p := bytes]> (bytes_at m);
       link_of := delete p (link_of m);
       folders := {[parent p]} ∪ folders m |}.

(** Writing [bytes] to [p] writes to the file that [p] names, which every
    other name of that file then reads; a path that names no file becomes
    a new file. *)
Definition written (m : disk) (p bytes : string) : disk :=
  {| bytes_at := <[first_name m p := bytes]> (bytes_at m);
     link_of := link_of m;
     folders := folders m |}.

(** [dst] as one more name of the file that [src] names. *)
Definition linked (m : disk) (src dst : string) : disk :=
  {| bytes_at := bytes_at m;
     link_of := <[dst := first_name m src]> (link_of m);
     folders := folders m |}.

(** [m] with the folder [d]. *)
Definition with_folder (d : string) (m : disk) : disk :=
  {| bytes_at := bytes_at m;
     link_of := link_of m;
     folders := {[d]} ∪ folders m |}.

(** The state of the machine: the file system and what was done so far. *)
Record sys : Type := {
  fs : disk;
  trace : list event
}.

(** A call returns, throws, or never returns. *)
Inductive res (A : Type) : Type :=
  | Ret (a : A)
  | Throw (e : exn)
  | Diverge.
Arguments Ret {A} a.
Arguments Throw {A} e.
Arguments Diverge {A}.

Definition M (A : Type) : Type := sys → res A * sys.

Definition ret {A} (a : A) : M A := λ s, (Ret a, s).

Definition bind {A B} (m : M A) (k : A → M B) : M B :=
  λ s, match m s with
       | (Ret a, s') => k a s'
       | (Throw e, s') => (Throw e, s')
       | (Diverge, s') => (Diverge, s')
       end.

#[global] Instance M_ret : MRet M := @ret.
#[global] Instance M_bind : MBind M := λ A B k m, bind m k.

Definition throw {A} (e : exn) : M A := λ s, (Throw e, s).
Definition diverge {A} : M A := λ s, (Diverge, s).

(** [try { m } catch (err) { h err }]. *)
Definition try_catch {A} (m : M A) (h : exn → M A) : M A :=
  λ s, match m s with
       | (Throw e, s') => h e s'
       | r => r
       end.

Definition emit (e : event) : M unit :=
  λ s, (Ret tt, {| fs := fs s; trace := trace s ++ [e] |}).

Definition read_file (path : string) : M string :=
  λ s, match fs s !! path with
       | Some bytes => (Ret bytes, s)
       | None => (Throw (ENOENT path), s)
       end.

(** Writing a file, as [fs.copyFileSync] does to its destination: the
    folder of the path has to be there. *)
Definition write_file (path bytes : string) : M unit :=
  λ s, if bool_decide (parent path ∈ folders (fs s))
       then (Ret tt, {| fs := written (fs s) path bytes; trace := trace s |})
       else (Throw (ENOENT path), s).

(** Making a hard link: the folder of the new name has to be there. The
    paths are all on one device. *)
Definition link_file (src dst : string) : M unit :=
  λ s, if bool_decide (parent dst ∈ folders (fs s))
       then (Ret tt, {| fs := linked (fs s) src dst; trace := trace s |})
       else (Throw (ENOENT dst), s).

Definition exists_file (path : string) : M bool :=
  λ s, (Ret (bool_decide (is_Some (fs s !! path))), s).

(** [for (const x of l) body(x)] and [l.forEach(body)] for a synchronous
    body. *)
Fixpoint for_each {A} (body : A → M unit) (l : list A) : M unit :=
  match l with
  | [] => ret tt
  | x :: l' => _ ← body x; for_each body l'
  end.

(** [l.map(f)] for an effectful [f]. *)
Fixpoint map_M {A B} (f : A → M B) (l : list A) : M (list B) :=
  match l with
  | [] => ret []
  | x :: l' => y ← f x; ys ← map_M f l'; ret (y :: ys)
  end.

(** [l.reduce(f, acc)]. *)
Fixpoint reduce {A B} (f : B → A → M B) (l : list A) (acc : B) : M B :=
  match l with
  | [] => ret acc
  | x :: l' => acc' ← f acc x; reduce f l' acc'
  end.

End Eff.
Import Eff.

(* ================================================================== *)
(** * Node's path module (POSIX flavour) *)
(* ================================================================== *)

Module Path.

Definition slash : ascii := "/"%char.
Definition dot : ascii := "."%char.

(** The last non-empty component of a path: [cur] is the component being
    read, [last] the latest complete one. *)
Fixpoint last_component (p cur last : string) : string :=
  match p with
  | EmptyString => if bool_decide (cur = EmptyString) then last else cur
  | String c p' =>
      if bool_decide (c = slash)
      then last_component p' EmptyString
             (if bool_decide (cur = EmptyString) then last else cur)
      else last_component p' (cur +:+ String c EmptyString) last
  end.

(** [path.basename(p)]. *)
Definition basename (p : string) : string :=
  last_component p EmptyString EmptyString.

(** The suffix of [s] that starts at its last dot. *)
Fixpoint from_last_dot (s : string) : option string :=
  match s with
  | EmptyString => None
  | String c s' =>
      match from_last_dot s' with
      | Some e => Some e
      | None => if bool_decide (c = dot) then Some s else None
      end
  end.

(** [path.extname(p)]: from the last dot of the base name to its end; empty
    when there is no dot, when the only dot leads the name, and for [..]. *)
Definition extname (p : string) : string :=
  let b := basename p in
  match from_last_dot b with
  | None => EmptyString
  | Some e =>
      if bool_decide (e = b) then EmptyString
      else if bool_decide (b = "..") then EmptyString
      else e
  end.

(** [s.toLowerCase()] on the ASCII letters. *)
Definition lower_ascii (c : ascii) : ascii :=
  let n := nat_of_ascii c in
  if bool_decide (65 ≤ n ≤ 90)%nat then ascii_of_nat (n + 32) else c.

Fixpoint toLowerCase (s : string) : string :=
  match s with
  | EmptyString => EmptyString
  | String c s' => String (lower_ascii c) (toLowerCase s')
  end.

(** [path.join] of strings: the non-empty segments separated by a slash.
    The segments this program joins are folder constants and base names, so
    the normalisation of [.] and [..] segments is not modelled. *)
Fixpoint join_strings (segs : list string) : string :=
  match segs with
  | [] => EmptyString
  | seg :: rest =>
      let tail := join_strings rest in
      if bool_decide (seg = EmptyString) then tail
      else if bool_decide (tail = EmptyString) then seg
      else seg +:+ String slash tail
  end.

Fixpoint strings_of (args : list value) : option (list string) :=
  match args with
  | [] => Some []
  | VStr s :: rest => cons s <$> strings_of rest
  | _ :: _ => None
  end.

(** [path.join(...args)]: every argument must be a string. *)
Definition join (args : list value) : M string :=
  match strings_of args with
  | Some segs => ret (join_strings segs)
  | None => throw (TypeError "The path argument must be of type string")
  end.

(** [path.extname(v)] on a value read from an object. *)
Definition extname_of (v : value) : M string :=
  match v with
  | VStr p => ret (extname p)
  | _ => throw (TypeError "The path argument must be of type string")
  end.

End Path.
Import Path.

(* ================================================================== *)
(** * utils.js *)
(* ================================================================== *)

Module Utils.
Section Utils.
(** The runtime's conversions, the digest that [sha256-file] computes from
    the bytes of a file, and [__dirname]. *)
Variable rt : builtins.
Variable sha256 : string → string.
Variable dirname : string.

Definition imgFolder : string := join_strings [dirname; "img"].
Definition ppmTempFolder : string := join_strings [dirname; "tmp"; "ppm"].

(** [fs.statSync(p).size]. *)
Definition statSync_size (p : string) : M jsnum :=
  bytes ← read_file p; ret (of_nat (String.length bytes)).

(** [sha256File(p)]. *)
Definition sha256File (p : string) : M string :=
  _ ← emit (EvHash p); bytes ← read_file p; ret (sha256 bytes).

(** [fs.linkSync(src, dst)]: [dst] becomes one more name of the file
    [src]; fails when [src] is not there, when [dst] is already there, and
    when the folder of [dst] is not there. *)
Definition linkSync (src : value) (dst : string) : M unit :=
  match src with
  | VStr p =>
      _ ← emit (EvLink p dst);
      _ ← read_file p;
      there ← exists_file dst;
      if there : bool then throw (EEXIST dst) else link_file p dst
  | _ => throw (TypeError "The existingPath argument must be of type string")
  end.

(** [fs.copyFileSync(src, dst)]: writes the bytes of [src] to [dst],
    over what the file [dst] holds when it is there. *)
Definition copyFileSync (src : value) (dst : string) : M unit :=
  match src with
  | VStr p =>
      _ ← emit (EvCopy p dst);
      bytes ← read_file p;
      write_file dst bytes
  | _ => throw (TypeError "The src argument must be of type string")
  end.

(** [v.name] for a value [v] read from an object. *)
Definition member (v : value) (name : string) : M value :=
  match v with
  | VUndef => throw (TypeError "Cannot read properties of undefined")
  | VNum _ => ret VUndef
  | VStr s => ret (string_prop s name)
  end.

Definition validFileExtensions : list string :=
  [".jpg"; ".jpeg"; ".png"; ".gif"; ".bmp";
   ".tiff"; ".tif"; ".webp"; ".svg"; ".psd"; ".ai"; ".eps"; ".svg";
   ".ppm"; ".pgm"; ".pbm"; ".pnm"; ".pam"; ".pfm"; ".pcx"; ".xwd"].

(** The test of [acc.find] in [deduper]. *)
Definition same_key (fileSize : jsnum) (sha : string) (e : object) : bool :=
  strict_eq (prop e "originalSize") (VNum fileSize)
  && strict_eq (prop e "originalsha256") (VStr sha).

Definition new_entry (curr : string) (fileSize : jsnum) (sha : string) : object :=
  <["originalsha256" := VStr sha]>
    (<["originalSize" := VNum fileSize]>
       (<["filename" := VStr (basename curr)]>
          (<["fullname" := VStr curr]> ∅))).

Definition deduper (acc : list object) (curr : string) : M (list object) :=
  fileSize ← statSync_size curr;
  sha ← sha256File curr;
  if strict_eq (VNum fileSize) (VNum (of_Z 0)) then ret acc
  else
    let entry := new_entry curr fileSize sha in
    let existing := List.find (same_key fileSize sha) acc in
    match existing with
    | Some _ => ret acc
    | None => ret (acc ++ [entry])
    end.

Definition valid_extension (file : string) : bool :=
  bool_decide (toLowerCase (extname file) ∈ validFileExtensions).

(** Clean the list of duplicates, non-images and empty files. *)
Definition cleanList (files : list string) : M (list object) :=
  reduce deduper (List.filter valid_extension files) [].

(** Copy the images to the img folder and delete the fullname property.
    The loop updates each object in place; the objects are not shared, so
    the updated list is returned. *)
Definition toTestbed (files : list object) : M (list object) :=
  map_M (λ image : object,
    newFile ← join [VStr imgFolder; prop image "filename"];
    _ ← try_catch (linkSync (prop image "fullname") newFile)
          (λ e, copyFileSync (prop image "fullname") newFile);
    ret (delete "fullname" image)) files.

(** [gm(file).write(ppmFile, callback)] only starts the conversion: the
    converter runs beside the program, and the callback ignores its
    error. What later calls find under the PPM folder is what the file
    system holds at that moment. *)
Definition convert (file : string) : M unit :=
  ppmFile ← join [VStr ppmTempFolder; VStr (basename file +:+ ".ppm")];
  emit (EvGmWrite file ppmFile).

Definition normalizeToPPM (files : list object) : M (list object) :=
  _ ← for_each (λ file : object,
        currentFile ← join [VStr imgFolder; prop file "filename"];
        ext ← extname_of (prop file "filename");
        if bool_decide (toLowerCase ext = ".ppm") then
          ppm ← member (prop file "filename") "ppm";
          newFile ← join [VStr ppmTempFolder; ppm];
          copyFileSync (VStr currentFile) newFile
        else convert currentFile) files;
  ret files.

Definition getPPMStatistics (files : list object) : M (list object) :=
  map_M (λ file : object,
    ppmFile ← join [VStr ppmTempFolder;
                    js_plus rt (prop file "filename") (VStr ".ppm")];
    size ← statSync_size ppmFile;
    sha ← sha256File ppmFile;
    ret (<["ppmsha256" := VStr sha]>
            (<["ppmSize" := VNum size]>
               (<["ppmFile" := VStr ppmFile]> file)))) files.

(** [found] is the list that [traverse(directory)] returns. *)
Definition getAllFiles (found : list string) : M (list object) :=
  files ← cleanList found;
  files ← toTestbed files;
  files ← normalizeToPPM files;
  getPPMStatistics files.

End Utils.
End Utils.

(* ================================================================== *)
(** * index.js *)
(* ================================================================== *)

Module Index.

(** How an external command behaves: it exits, with a zero status or not,
    after [elapsed] milliseconds and having printed [stdout]; or it never
    exits. A command that cannot be started counts as a failed exit. *)
Inductive process : Type :=
  | Exits (ok : bool) (elapsed : Z) (stdout : string)
  | NeverExits.

(** The options of [execSync] this program could set. *)
Record exec_options : Type := {
  encoding : option string;
  timeout : option Z
}.

(** One timed call: the command, and what [Date.now()] reads before and
    after it. *)
Record invocation : Type := {
  proc : process;
  clock_before : Z;
  clock_after : Z
}.

(** What one callback of a pass meets: its three timed calls and the
    command that measures the output. *)
Record step : Type := {
  run : nat → invocation;
  size_probe : process
}.

Inductive pass : Type := C04 | C05 | D04 | D05.

(** The outside world of a run: the two dependency probes, and for each
    pass and each position in [allFiles] the step met there. *)
Record env : Type := {
  gm_probe : process;
  wine_probe : process;
  bench : pass → nat → step
}.

(** What [haveGm] and [haveWine] hold: the Buffer that [execSync] returns
    when no encoding is set, or [false]. *)
Inductive dep : Type :=
  | DepBuffer (stdout : string)
  | DepFalse.

Definition dep_truthy (d : dep) : bool :=
  match d with
  | DepBuffer _ => true
  | DepFalse => false
  end.

(** The quote character of the template strings. *)
Definition dq : string := String "034"%char EmptyString.
Definition quoted (s : string) : string := dq +:+ s +:+ dq.

(** [s.split(" ")[0]]. *)
Fixpoint first_token (s : string) : string :=
  match s with
  | EmptyString => EmptyString
  | String c s' =>
      if bool_decide (c = " "%char) then EmptyString
      else String c (first_token s')
  end.

(** [s.slice(0, -1)]. *)
Fixpoint slice_0_m1 (s : string) : string :=
  match s with
  | EmptyString => EmptyString
  | String c EmptyString => EmptyString
  | String c s' => String c (slice_0_m1 s')
  end.

(** [execSync(command, options)]: returns the output of a command that
    exits with status zero, throws for any other exit and when the timeout
    (if one is set and positive) expires, and does not return while the
    command runs. *)
Definition execSync (command : string) (options : exec_options)
    (p : process) : M string :=
  _ ← emit (EvExec command);
  match p, timeout options with
  | Exits ok elapsed stdout, Some t =>
      if bool_decide (0 < t < elapsed)%Z then throw (ETIMEDOUT command)
      else if ok then ret stdout else throw (ExecError command)
  | Exits ok elapsed stdout, None =>
      if ok then ret stdout else throw (ExecError command)
  | NeverExits, Some t =>
      if bool_decide (0 < t)%Z then throw (ETIMEDOUT command) else diverge
  | NeverExits, None => diverge
  end.

(** [report.findIndex(pred)]: [None] stands for -1. *)
Fixpoint findIndex (pred : object → bool) (report : list object) : option nat :=
  match report with
  | [] => None
  | r :: rest => if pred r then Some 0%nat else S <$> findIndex pred rest
  end.

(** [report[index]]: [undefined] when out of range. *)
Definition element (report : list object) (index : option nat) : option object :=
  i ← index; report !! i.

(** [...report[index]]: spreading [undefined] adds nothing. *)
Definition spread (o : option object) : object := default ∅ o.

(** [report[index][k]]: throws when [report[index]] is [undefined]. *)
Definition element_prop (o : option object) (k : string) : M value :=
  match o with
  | Some r => ret (prop r k)
  | None => throw (TypeError "Cannot read properties of undefined")
  end.

(** [report[index] = o]: with index -1 the array gets a property named
    [-1] and keeps its elements. *)
Definition assign (report : list object) (index : option nat) (o : object)
    : list object :=
  match index with
  | Some i => <[i := o]> report
  | None => report
  end.

Section Index.
Variable rt : builtins.
Variable sha256 : string → string.
Variable isWindows : bool.
Variable dirname : string.

Definition gmBin : string := if isWindows then "gm.exe" else "gm".

Definition lea0_4_comp : string := join_strings [dirname; "bin"; "v0.4"; "clea.exe"].
Definition lea0_5_comp : string := join_strings [dirname; "bin"; "v0.5b"; "clea.exe"].
Definition lea0_4_decomp : string := join_strings [dirname; "bin"; "v0.4"; "dlea.exe"].
Definition lea0_5_decomp : string := join_strings [dirname; "bin"; "v0.5b"; "dlea.exe"].

(** The options [runSync] passes: an encoding, nothing else. *)
Definition runSync_options : exec_options :=
  {| encoding := Some "utf8"; timeout := None |}.

(** Run a command and time it; a failed command gives the time -1. Only
    the [time] of the returned pair is ever read. *)
Definition runSync (comand : string) (inv : invocation) : M jsnum :=
  try_catch
    (let start := clock_before inv in
     result ← execSync comand runSync_options (proc inv);
     let end_ := clock_after inv in
     let time := of_Z (end_ - start) in
     ret time)
    (λ err,
       _ ← emit (EvWarn ("Something went wrong while running command " +:+ comand));
       ret (of_Z (-1))).

(** [for (let i = 0; i < 3; i++) { ...runSync(command); times.push(time) }]:
    [n] rounds are left, the next one is round [i]. *)
Fixpoint timing_loop (n i : nat) (command : string) (runs : nat → invocation)
    (times : list jsnum) : M (list jsnum) :=
  match n with
  | O => ret times
  | S n' =>
      time ← runSync command (runs i);
      timing_loop n' (S i) command runs (times ++ [time])
  end.

Definition three_times (command : string) (runs : nat → invocation)
    : M (list jsnum) :=
  timing_loop 3 0 command runs [].

(** The template string of the four timed commands. *)
Definition lea_command (exe input output : string) : string :=
  (if negb isWindows then "WINEDEBUG=-all wine" else EmptyString)
  +:+ " " +:+ exe +:+ " " +:+ input +:+ " " +:+ output +:+ " "
  +:+ (if negb isWindows then "2>/dev/null" else EmptyString).

(** The size of an output file: the first word of [wc -c] on Windows (a
    string), [parseInt] of what [du -b | cut -f1] prints elsewhere. *)
Definition measure_command (output : string) : string :=
  if isWindows then "wc -c " +:+ output
  else "du -b " +:+ output +:+ " | cut -f1".

Definition measured (out : string) : value :=
  if isWindows then VStr (first_token out)
  else VNum (parseInt rt (slice_0_m1 out)).

Definition measure (output : string) (p : process) : M value :=
  out ← execSync (measure_command output) runSync_options p;
  ret (measured out).

Definition same_sha (file reportFile : object) : bool :=
  strict_eq (prop file "originalsha256") (prop reportFile "originalsha256").

Definition percent (part whole : value) : jsnum :=
  jsmul (js_over rt part whole) (of_Z 100).

(** Speed in bytes per second. *)
Definition speed (size : value) (minTime : jsnum) : jsnum :=
  js_over rt size (VNum (jsdiv minTime (of_Z 1000))).

(** The paths and the commands of the four passes. *)
Definition input_ppm (file : object) : string :=
  quoted (to_string rt (prop file "ppmFile")).
Definition tmp_file (folder suffix : string) (file : object) : string :=
  join_strings [dirname; "tmp"; folder;
                quoted (to_string rt (prop file "filename") +:+ suffix)].

(** The object literal pushed by the first pass. *)
Definition record04 (file : object) (minTime : jsnum) (compressedSize : value)
    : object :=
  let ppmSize := prop file "ppmSize" in
  let originalSize := prop file "originalSize" in
  <["cRatioPPM0.4" := VNum (percent compressedSize ppmSize)]>
    (<["cRatio0.4" := VNum (percent compressedSize originalSize)]>
       (<["cSize0.4" := compressedSize]>
          (<["cSpeed0.4" := VNum (speed ppmSize minTime)]>
             (<["cTime0.4" := VNum minTime]> file)))).

(** The callback of the first [forEach]: compress with Lea 0.4. *)
Definition compress04 (file : object) (w : step) (report : list object)
    : M (list object) :=
  let input := input_ppm file in
  let outputV4 := tmp_file "lea4" ".ppm.lea4" file in
  times ← three_times (lea_command lea0_4_comp input outputV4) (run w);
  let minTime := Math_min times in
  compressedSize ← measure outputV4 (size_probe w);
  ret (report ++ [record04 file minTime compressedSize]).

(** The object literal of the second pass; [current] is [report[index]]
    spread, [cTime04] and [cRatio04] what was read from it. *)
Definition record05 (file current : object) (minTime : jsnum)
    (compressedSize cTime04 cRatio04 : value) : object :=
  let ppmSize := prop file "ppmSize" in
  let originalSize := prop file "originalSize" in
  let cRatio := percent compressedSize originalSize in
  <["cRatioDiff" := VNum (js_minus rt (VNum cRatio) cRatio04)]>
    (<["cTimeDiff" := VNum (js_minus rt (VNum minTime) cTime04)]>
       (<["cRatioPPM0.5" := VNum (percent compressedSize ppmSize)]>
          (<["cRatio0.5" := VNum cRatio]>
             (<["cSize0.5" := compressedSize]>
                (<["cSpeed0.5" := VNum (speed ppmSize minTime)]>
                   (<["cTime0.5" := VNum minTime]> current)))))).

(** The callback of the second [forEach]: compress with Lea 0.5 and merge
    into the record with the same sha256. *)
Definition compress05 (file : object) (w : step) (report : list object)
    : M (list object) :=
  let input := input_ppm file in
  let outputV5 := tmp_file "lea5" ".ppm.lea5" file in
  times ← three_times (lea_command lea0_5_comp input outputV5) (run w);
  let minTime := Math_min times in
  compressedSize ← measure outputV5 (size_probe w);
  let index := findIndex (same_sha file) report in
  let current := element report index in
  cTime04 ← element_prop current "cTime0.4";
  cRatio04 ← element_prop current "cRatio0.4";
  ret (assign report index
         (record05 file (spread current) minTime compressedSize cTime04 cRatio04)).

(** The object literal of the third pass. *)
Definition restored04 (current : object) (minTime : jsnum)
    (decompressedSize cTime04 : value) : object :=
  <["roundTrip0.4" := js_plus rt cTime04 (VNum minTime)]>
    (<["dSpeed0.4" := VNum (speed decompressedSize minTime)]>
       (<["dTime0.4" := VNum minTime]> current)).

(** The callback of the third [forEach]: restore with Lea 0.4. *)
Definition decompress04 (file : object) (w : step) (report : list object)
    : M (list object) :=
  let input := tmp_file "lea4" ".ppm.lea4" file in
  let output := tmp_file "restored4" ".ppm.restored" file in
  times ← three_times (lea_command lea0_4_decomp input output) (run w);
  let minTime := Math_min times in
  decompressedSize ← measure output (size_probe w);
  let index := findIndex (same_sha file) report in
  let current := element report index in
  cTime04 ← element_prop current "cTime0.4";
  ret (assign report index
         (restored04 (spread current) minTime decompressedSize cTime04)).

(** The object literal of the fourth pass, after the [delete] that
    follows the assignment. *)
Definition restored05 (current : object) (minTime : jsnum)
    (decompressedSize cTime05 dTime04 roundTrip04 : value) : object :=
  let roundTrip := js_plus rt cTime05 (VNum minTime) in
  delete "ppmFile"
    (<["roundTripDiff" := VNum (js_minus rt roundTrip roundTrip04)]>
       (<["roundTrip0.5" := roundTrip]>
          (<["dTimeDiff" := VNum (js_minus rt (VNum minTime) dTime04)]>
             (<["dSpeed0.5" := VNum (speed decompressedSize minTime)]>
                (<["dTime0.5" := VNum minTime]> current))))).

(** The callback of the fourth [forEach]: restore with Lea 0.5, merge, and
    delete the [ppmFile] property of the merged record. *)
Definition decompress05 (file : object) (w : step) (report : list object)
    : M (list object) :=
  let input := tmp_file "lea5" ".ppm.lea5" file in
  let output := tmp_file "restored5" ".ppm.restored" file in
  times ← three_times (lea_command lea0_5_decomp input output) (run w);
  let minTime := Math_min times in
  decompressedSize ← measure output (size_probe w);
  let index := findIndex (same_sha file) report in
  let current := element report index in
  cTime05 ← element_prop current "cTime0.5";
  dTime04 ← element_prop current "dTime0.4";
  roundTrip04 ← element_prop current "roundTrip0.4";
  ret (assign report index
         (restored05 (spread current) minTime decompressedSize
            cTime05 dTime04 roundTrip04)).

(** [allFiles.forEach(async file => ...)]: the callback runs to its end
    before the next one starts; when it throws, its promise is rejected,
    nobody looks at it, and the loop goes on with the report as it was.
    [j] is the position of the head of [files] in [allFiles]. *)
Fixpoint forEach_async
    (callback : object → step → list object → M (list object))
    (w : nat → step) (j : nat) (files : list object) (report : list object)
    : M (list object) :=
  match files with
  | [] => ret report
  | file :: rest =>
      report' ← try_catch (callback file (w j) report) (λ _, ret report);
      forEach_async callback w (S j) rest report'
  end.

(** The four passes over [allFiles] and the writing of the report. *)
Definition benchmark (e : env) (allFiles : list object) : M (list object) :=
  report ← forEach_async compress04 (bench e C04) 0 allFiles [];
  report ← forEach_async compress05 (bench e C05) 0 allFiles report;
  report ← forEach_async decompress04 (bench e D04) 0 allFiles report;
  report ← forEach_async decompress05 (bench e D05) 0 allFiles report;
  _ ← emit (EvWriteFile (join_strings [dirname; "report.jsonc"])
              (JSON_stringify report));
  ret report.

Definition processEverything (e : env) (found : list string)
    : M (list object) :=
  allFiles ← Utils.getAllFiles rt sha256 dirname found;
  benchmark e allFiles.

(** The options of the two dependency probes. Their second argument is a
    function, which [execSync] takes for no options at all: the output
    comes back as a Buffer, and a failing probe throws. *)
Definition probe_options : exec_options :=
  {| encoding := None; timeout := None |}.

(** The body of the module: the probes, the two checks, then the call of
    [processEverything], whose promise is dropped. *)
Definition program (e : env) (found : list string) : M unit :=
  haveGm ← (out ← execSync (gmBin +:+ " version") probe_options (gm_probe e);
            ret (DepBuffer out));
  haveWine ← (if isWindows then ret DepFalse
              else out ← execSync "wine --version" probe_options (wine_probe e);
                   ret (DepBuffer out));
  _ ← (if negb (dep_truthy haveGm) then
         _ ← emit (EvLog "Error: I need GraphicsMagick to run. You can find it here: https://www.graphicsmagick.org/");
         throw (ProcessExit 2)
       else ret tt);
  _ ← (if negb isWindows && negb (dep_truthy haveWine) then
         _ ← emit (EvLog "Error: I need WINE to run on *nix. You can find it here: https://www.winehq.org/");
         throw (ProcessExit 2)
       else ret tt);
  try_catch (_ ← processEverything e found; ret tt) (λ _, ret tt).

(** The exit code when the module body stops early: the argument of
    [process.exit], or 1 for an exception nobody catches. *)
Definition exit_code (r : res unit) : option Z :=
  match r with
  | Throw (ProcessExit code) => Some code
  | Throw _ => Some 1%Z
  | Ret _ | Diverge => None
  end.

End Index.
End Index.
Import Index.

(* ================================================================== *)
(** * Vocabulary of the statements *)
(* ================================================================== *)

(** A machine with no file and an empty trace. *)
Definition sys0 : sys := {| fs := ∅; trace := [] |}.

Definition add_events (s : sys) (evs : list event) : sys :=
  {| fs := fs s; trace := trace s ++ evs |}.

(** The commands a trace ran, in order. *)
Definition execs (tr : list event) : list string :=
  omap (λ ev, match ev with EvExec cmd => Some cmd | _ => None end) tr.

(** The time that [runSync] returns for a call that comes back, in
    milliseconds: the difference of the two clock readings, or -1. *)
Definition time_ms (inv : invocation) : Z :=
  match proc inv with
  | Exits true _ _ => clock_after inv - clock_before inv
  | _ => -1
  end.

Definition succeeds (inv : invocation) : Prop :=
  ∃ elapsed out, proc inv = Exits true elapsed out.

Definition fails (inv : invocation) : Prop :=
  ∃ elapsed out, proc inv = Exits false elapsed out.

Definition returns (p : process) : Prop := p ≠ NeverExits.

(** What a returning [runSync] adds to the trace. *)
Definition run_events (comand : string) (inv : invocation) : list event :=
  match proc inv with
  | Exits true _ _ => [EvExec comand]
  | _ => [EvExec comand;
          EvWarn ("Something went wrong while running command " +:+ comand)]
  end.

(** The output of a process that exits. *)
Definition stdout_of (p : process) : string :=
  match p with
  | Exits _ _ out => out
  | NeverExits => EmptyString
  end.

(** A step all of whose commands come back, the size probe with status
    zero. *)
Definition clean_step (w : step) : Prop :=
  (∀ i, (i < 3)%nat → returns (proc (run w i)))
  ∧ ∃ elapsed out, size_probe w = Exits true elapsed out.

(** The three times a clean step hands to [Math.min], and their minimum. *)
Definition times_of (w : step) : list jsnum :=
  [of_Z (time_ms (run w 0)); of_Z (time_ms (run w 1)); of_Z (time_ms (run w 2))].

Definition min_time (w : step) : jsnum := Math_min (times_of w).

(** What a clean step adds to the trace: three timed commands, each with
    its warning when it failed, then the size probe. *)
Definition step_events (command probe : string) (w : step) : list event :=
  run_events command (run w 0) ++ run_events command (run w 1)
  ++ run_events command (run w 2) ++ [EvExec probe].

(** The [originalsha256] of a file or of a record. *)
Definition sha_of (o : object) : value := prop o "originalsha256".

(** The records of a list carry pairwise distinct sha256 strings. *)
Definition distinct_shas (l : list object) : Prop :=
  NoDup (sha_of <$> l) ∧ Forall (λ o, ∃ h, sha_of o = VStr h) l.

(** Every step of every pass over [n] files is clean. *)
Definition clean_env (e : env) (n : nat) : Prop :=
  ∀ p j, (j < n)%nat → clean_step (bench e p j).

Section RunVocabulary.
Variable rt : builtins.
Variable isWindows : bool.
Variable dirname : string.

(** The timed command of a pass for a file, and the file it measures. *)
Definition pass_output (p : pass) (file : object) : string :=
  match p with
  | C04 => tmp_file rt dirname "lea4" ".ppm.lea4" file
  | C05 => tmp_file rt dirname "lea5" ".ppm.lea5" file
  | D04 => tmp_file rt dirname "restored4" ".ppm.restored" file
  | D05 => tmp_file rt dirname "restored5" ".ppm.restored" file
  end.

Definition pass_command (p : pass) (file : object) : string :=
  match p with
  | C04 => lea_command isWindows (lea0_4_comp dirname) (input_ppm rt file)
             (pass_output C04 file)
  | C05 => lea_command isWindows (lea0_5_comp dirname) (input_ppm rt file)
             (pass_output C05 file)
  | D04 => lea_command isWindows (lea0_4_decomp dirname)
             (pass_output C04 file) (pass_output D04 file)
  | D05 => lea_command isWindows (lea0_5_decomp dirname)
             (pass_output C05 file) (pass_output D05 file)
  end.

(** The events of one clean callback. *)
Definition pass_events (p : pass) (file : object) (w : step) : list event :=
  step_events (pass_command p file)
    (measure_command isWindows (pass_output p file)) w.

(** The size a clean step measures. *)
Definition size_value (w : step) : value :=
  measured rt isWindows (stdout_of (size_probe w)).

(** The record each pass leaves for a file on a clean step, from the
    record [cur] it found. *)
Definition after04 (w : step) (file : object) : object :=
  record04 rt file (min_time w) (size_value w).

Definition after05 (w : step) (file cur : object) : object :=
  record05 rt file cur (min_time w) (size_value w)
    (prop cur "cTime0.4") (prop cur "cRatio0.4").

Definition after_d04 (w : step) (file cur : object) : object :=
  restored04 rt cur (min_time w) (size_value w) (prop cur "cTime0.4").

Definition after_d05 (w : step) (file cur : object) : object :=
  restored05 rt cur (min_time w) (size_value w)
    (prop cur "cTime0.5") (prop cur "dTime0.4") (prop cur "roundTrip0.4").

(** The record of the file at position [j] when the four passes are
    clean and the sha256 strings distinct. *)
Definition final_record (e : env) (j : nat) (file : object) : object :=
  after_d05 (bench e D05 j) file
    (after_d04 (bench e D04 j) file
       (after05 (bench e C05 j) file
          (after04 (bench e C04 j) file))).

(** The report after a clean pass over [files], the first of them at
    position [j]: the first pass pushes, the others merge into the
    records that face the files. *)
Fixpoint pushed (after : step → object → object) (w : nat → step) (j : nat)
    (files : list object) : list object :=
  match files with
  | [] => []
  | file :: rest => after (w j) file :: pushed after w (S j) rest
  end.

Fixpoint merged (after : step → object → object → object) (w : nat → step)
    (j : nat) (files records : list object) : list object :=
  match files, records with
  | file :: rest, cur :: records' =>
      after (w j) file cur :: merged after w (S j) rest records'
  | _, _ => []
  end.

Definition final_report (e : env) (allFiles : list object) : list object :=
  merged after_d05 (bench e D05) 0 allFiles
    (merged after_d04 (bench e D04) 0 allFiles
       (merged after05 (bench e C05) 0 allFiles
          (pushed after04 (bench e C04) 0 allFiles))).

(** The events of a clean pass. *)
Fixpoint events_from (p : pass) (w : nat → step) (j : nat)
    (files : list object) : list event :=
  match files with
  | [] => []
  | file :: rest => pass_events p file (w j) ++ events_from p w (S j) rest
  end.

(** The events of a clean run of the four passes, the report included. *)
Definition benchmark_events (e : env) (allFiles : list object) : list event :=
  events_from C04 (bench e C04) 0 allFiles
  ++ events_from C05 (bench e C05) 0 allFiles
  ++ events_from D04 (bench e D04) 0 allFiles
  ++ events_from D05 (bench e D05) 0 allFiles
  ++ [EvWriteFile (join_strings [dirname; "report.jsonc"])
        (JSON_stringify (final_report e allFiles))].
End RunVocabulary.

(** The time a clean step records, in milliseconds. *)
Definition recorded_ms (w : step) : Z :=
  Z.min (time_ms (run w 0)) (Z.min (time_ms (run w 1)) (time_ms (run w 2))).

(** The clock does not go backwards around the three timed calls. *)
Definition clock_monotone (w : step) : Prop :=
  ∀ i, (i < 3)%nat → (clock_before (run w i) ≤ clock_after (run w i))%Z.

(** Whether two Numbers are the same, by computation: two finite numbers
    are the same when their fractions are equal. *)
Definition same_number (a b : jsnum) : bool :=
  match a, b with
  | Fin x, Fin y => Qeq_bool x y
  | PInf, PInf | NInf, NInf | NaN, NaN => true
  | _, _ => false
  end.

(** The object that [getPPMStatistics] returns for a file. *)
Definition file_object (filename : string) (originalSize : Z)
    (originalsha256 ppmFile : string) (ppmSize : Z) (ppmsha256 : string)
    : object :=
  <["ppmsha256" := VStr ppmsha256]>
    (<["ppmSize" := VNum (of_Z ppmSize)]>
       (<["ppmFile" := VStr ppmFile]>
          (<["originalsha256" := VStr originalsha256]>
             (<["originalSize" := VNum (of_Z originalSize)]>
                (<["filename" := VStr filename]> ∅))))).

Definition is_file (f : object) : Prop :=
  ∃ filename originalSize originalsha256 ppmFile ppmSize ppmsha256,
    f = file_object filename originalSize originalsha256 ppmFile ppmSize
          ppmsha256.

(** The keys of every record of the report of a clean run. *)
Definition report_key_list : list string :=
    ["filename"; "originalSize"; "originalsha256"; "ppmSize"; "ppmsha256";
     "cTime0.4"; "cSpeed0.4"; "cSize0.4"; "cRatio0.4"; "cRatioPPM0.4";
     "cTime0.5"; "cSpeed0.5"; "cSize0.5"; "cRatio0.5"; "cRatioPPM0.5";
     "cTimeDiff"; "cRatioDiff";
     "dTime0.4"; "dSpeed0.4"; "roundTrip0.4";
     "dTime0.5"; "dSpeed0.5"; "dTimeDiff"; "roundTrip0.5"; "roundTripDiff"].

Definition report_keys : gset string := list_to_set report_key_list.

(** A runtime for the examples: [parseInt] reads the leading decimal
    digits. *)
Fixpoint leading_digits (s : string) (acc : option Z) : option Z :=
  match s with
  | EmptyString => acc
  | String c s' =>
      let n := nat_of_ascii c in
      if bool_decide (48 ≤ n ≤ 57)%nat
      then leading_digits s' (Some (10 * default 0 acc + (Z.of_nat n - 48)))%Z
      else acc
  end.

Definition example_rt : builtins := {|
  StringToNumber := λ s, from_option of_Z NaN (leading_digits s None);
  NumberToString := λ _, "0";
  parseInt := λ s, from_option of_Z NaN (leading_digits s None)
|}.

(** A timed call that succeeds after [d] milliseconds, one that fails, and
    a size probe that prints [n]. *)
Definition ok_call (d : Z) : invocation :=
  {| proc := Exits true d EmptyString; clock_before := 1000;
     clock_after := 1000 + d |}.

Definition failed_call (d : Z) : invocation :=
  {| proc := Exits false d EmptyString; clock_before := 1000;
     clock_after := 1000 + d |}.

Definition example_step (c0 c1 c2 : invocation) (size : string) : step :=
  {| run := λ i, match i with 0%nat => c0 | 1%nat => c1 | _ => c2 end;
     size_probe := Exits true 1 size |}.

(** An example file, and a run over it alone in which every pass meets
    the same step. *)
Definition example_file : object :=
  file_object "a.png" 900000 "5f2a" "/app/tmp/ppm/a.png.ppm" 2000000 "77c1".

Definition example_env (c04 c05 d04 d05 : step) : env :=
  {| gm_probe := Exits true 1 "GraphicsMagick";
     wine_probe := Exits true 1 "wine-8.0";
     bench := λ p _, match p with
                     | C04 => c04 | C05 => c05 | D04 => d04 | D05 => d05
                     end |}.

(** An object literal [{...base, k1: v1, ..., kn: vn}], the last property
    first in the list. *)
Definition build (l : list (string * value)) (base : object) : object :=
  foldr (λ kv o, <[kv.1 := kv.2]> o) base l.

(** The value a literal gives to a key, if it names it. *)
Definition named (k : string) (l : list (string * value)) : option value :=
  snd <$> List.find (λ kv, bool_decide (kv.1 = k)) l.

(** Every property of the object holds a value. *)
Definition all_defined (o : object) : Prop :=
  map_Forall (λ _ v, v ≠ VUndef) o.

(** The vocabulary of [cleanList]: the candidates are the files with an
    image extension; a file is known by its size and its digest. *)
Definition candidates (files : list string) : list string :=
  List.filter Utils.valid_extension files.

Definition entry_key (r : object) : value * value :=
  (prop r "originalSize", prop r "originalsha256").

Section CleanVocabulary.
Variable sha256 : string → string.
Variable content : string → option string.

Definition key_of (bytes : string) : value * value :=
  (VNum (of_nat (String.length bytes)), VStr (sha256 bytes)).

Definition entry_of (p bytes : string) : object :=
  Utils.new_entry p (of_nat (String.length bytes)) (sha256 bytes).

(** [p] is a file of the key [k]. *)
Definition has_key (k : value * value) (p : string) : bool :=
  match content p with
  | Some bytes => bool_decide (key_of bytes = k)
  | None => false
  end.
End CleanVocabulary.

(** No two files of the list with different bytes have the same digest. *)
Definition no_collision (sha256 : string → string) (s : sys)
    (files : list string) : Prop :=
  ∀ p q bp bq,
    p ∈ files → q ∈ files → fs s !! p = Some bp → fs s !! q = Some bq →
    sha256 bp = sha256 bq → bp = bq.

Section DedupVocabulary.
Variable sha256 : string → string.

(** What [deduper] makes of the accumulator for a file [p] that holds
    [bytes]. *)
Definition dedup_step (acc : list object) (p bytes : string) : list object :=
  if bool_decide (bytes = EmptyString) then acc
  else match List.find (λ r, bool_decide (entry_key r = key_of sha256 bytes)) acc with
       | Some _ => acc
       | None => acc ++ [entry_of sha256 p bytes]
       end.

(** The accumulator after the files [cands], read in the file system
    [content]. *)
Fixpoint dedup_from (content : string → option string) (acc : list object)
    (cands : list string) : list object :=
  match cands with
  | [] => acc
  | p :: rest =>
      match content p with
      | Some bytes => dedup_from content (dedup_step acc p bytes) rest
      | None => acc
      end
  end.
End DedupVocabulary.

Section DedupInvariant.
Variable sha256 : string → string.
Variable content : string → option string.

(** The accumulator of [deduper] after the candidates [seen]: no key
    twice; every record is the entry of the first file seen with its key,
    a file that is not empty; every file seen that is not empty has the
    record of its key. *)
Definition dedup_inv (seen : list string) (acc : list object) : Prop :=
  NoDup (entry_key <$> acc)
  ∧ (∀ r, r ∈ acc →
       ∃ q bytes,
         List.find (has_key sha256 content (entry_key r)) seen = Some q
         ∧ content q = Some bytes ∧ bytes ≠ EmptyString
         ∧ r = entry_of sha256 q bytes)
  ∧ (∀ p bytes,
       p ∈ seen → content p = Some bytes → bytes ≠ EmptyString →
       ∃ r, r ∈ acc ∧ entry_key r = key_of sha256 bytes).
End DedupInvariant.

(** An example machine: one image to test, its PPM rendering left in
    the PPM folder by the converter, and the folder of the testbed, which
    is empty. The example digest of a file is its bytes behind a prefix. *)
Definition example_sha256 (bytes : string) : string := "sha:" +:+ bytes.

Definition example_sys : sys :=
  {| fs := with_folder "/app/img"
             (<["/img/a.png" := "PNG-bytes-of-a"]>
                (<["/app/tmp/ppm/a.png.ppm" := "P6 2 2 255 abcdefghijkl"]>
                   ∅));
     trace := [] |}.

(* ================================================================== *)
(** * Vocabulary of the further properties *)
(* ================================================================== *)

(** Every command of the step exits, with whatever status. *)
Definition step_returns (w : step) : Prop :=
  (∀ i, (i < 3)%nat → returns (proc (run w i))) ∧ returns (size_probe w).

(** Whether the size probe of the step exits with status zero. *)
Definition probe_ok (w : step) : bool :=
  match size_probe w with
  | Exits true _ _ => true
  | _ => false
  end.

Section PassVocabulary.
Variable rt : builtins.
Variable isWindows : bool.
Variable dirname : string.

(** The callback of each pass. *)
Definition pass_callback (p : pass)
    : object → step → list object → M (list object) :=
  match p with
  | C04 => compress04 rt isWindows dirname
  | C05 => compress05 rt isWindows dirname
  | D04 => decompress04 rt isWindows dirname
  | D05 => decompress05 rt isWindows dirname
  end.

(** The report after a first pass all of whose commands exit: the files
    whose size probe failed are left out. *)
Fixpoint pushed_ok (w : nat → step) (j : nat) (files : list object)
    : list object :=
  match files with
  | [] => []
  | file :: rest =>
      (if probe_ok (w j) then [after04 rt isWindows (w j) file] else [])
      ++ pushed_ok w (S j) rest
  end.

(** What each pass makes of the record [cur] it merges into. *)
Definition pass_after (p : pass) (w : step) (file cur : object) : object :=
  match p with
  | C04 => after04 rt isWindows w file
  | C05 => after05 rt isWindows w file cur
  | D04 => after_d04 rt isWindows w file cur
  | D05 => after_d05 rt isWindows w file cur
  end.

(** The outcome of a callback all of whose commands exit: it throws when
    the size probe fails, and, in the merging passes, when no record of
    the report has the sha256 of the file. *)
Definition callback_result (p : pass) (file : object) (w : step)
    (report : list object) : res (list object) :=
  if probe_ok w then
    match p with
    | C04 => Ret (report ++ [after04 rt isWindows w file])
    | _ =>
        let index := findIndex (same_sha file) report in
        match element report index with
        | Some cur => Ret (assign report index (pass_after p w file cur))
        | None => Throw (TypeError "Cannot read properties of undefined")
        end
    end
  else Throw (ExecError (measure_command isWindows
                           (pass_output rt dirname p file))).

(** The report after a pass all of whose commands exit: a callback that
    throws leaves the report as it found it. *)
Fixpoint pass_fold (p : pass) (w : nat → step) (j : nat)
    (files report : list object) : list object :=
  match files with
  | [] => report
  | file :: rest =>
      pass_fold p w (S j) rest
        (match callback_result p file (w j) report with
         | Ret report' => report'
         | _ => report
         end)
  end.

(** The report of a run all of whose commands exit. *)
Definition run_report (e : env) (allFiles : list object) : list object :=
  pass_fold D05 (bench e D05) 0 allFiles
    (pass_fold D04 (bench e D04) 0 allFiles
       (pass_fold C05 (bench e C05) 0 allFiles
          (pass_fold C04 (bench e C04) 0 allFiles []))).

(** The events of a run all of whose commands exit. *)
Definition run_trace (e : env) (allFiles : list object) : list event :=
  events_from rt isWindows dirname C04 (bench e C04) 0 allFiles
  ++ events_from rt isWindows dirname C05 (bench e C05) 0 allFiles
  ++ events_from rt isWindows dirname D04 (bench e D04) 0 allFiles
  ++ events_from rt isWindows dirname D05 (bench e D05) 0 allFiles
  ++ [EvWriteFile (join_strings [dirname; "report.jsonc"])
        (JSON_stringify (run_report e allFiles))].
End PassVocabulary.

(** The keys the four passes write. *)
Definition pass_keys (p : pass) : list string :=
  match p with
  | C04 => ["cTime0.4"; "cSpeed0.4"; "cSize0.4"; "cRatio0.4"; "cRatioPPM0.4"]
  | C05 => ["cTime0.5"; "cSpeed0.5"; "cSize0.5"; "cRatio0.5"; "cRatioPPM0.5";
            "cTimeDiff"; "cRatioDiff"]
  | D04 => ["dTime0.4"; "dSpeed0.4"; "roundTrip0.4"]
  | D05 => ["dTime0.5"; "dSpeed0.5"; "dTimeDiff"; "roundTrip0.5";
            "roundTripDiff"]
  end.

Definition metric_keys : list string :=
  pass_keys C04 ++ pass_keys C05 ++ pass_keys D04 ++ pass_keys D05.

(** Every command of the four passes over [n] files exits. *)
Definition all_exit (e : env) (n : nat) : Prop :=
  ∀ p j, (j < n)%nat → step_returns (bench e p j).

(** A step whose three timed calls fail and whose size probe fails. *)
Definition broken_step : step :=
  {| run := λ _, failed_call 5; size_probe := Exits false 1 EmptyString |}.

(** A record that still has the path of its PPM file and no [dTime0.5],
    and a record the fourth pass has been through. *)
Definition has_path (r : object) : Prop :=
  r !! "dTime0.5" = None ∧ ∃ path, r !! "ppmFile" = Some (VStr path).

Definition path_deleted (r : object) : Prop :=
  r !! "ppmFile" = None ∧ ∃ n, r !! "dTime0.5" = Some (VNum n).

(** Two example files with different digests. *)
Definition example_file_b : object :=
  file_object "b.png" 800000 "9d41" "/app/tmp/ppm/b.png.ppm" 1500000 "c0de".

(** What [du -b | cut -f1] prints for a file of 450,000 bytes. *)
Definition du_450000 : string := "450000" +:+ String "010"%char EmptyString.

(** The path a record of [cleanList] was made from. *)
Definition fullname_of (r : object) : value := prop r "fullname".

(** Where [toTestbed] puts the image found at [p]. *)
Definition testbed_path (dirname p : string) : string :=
  join_strings [Utils.imgFolder dirname; basename p].

(** Two images of the same base name in two folders, and the folder of
    the testbed, which is empty. *)
Definition twins_sys : sys :=
  {| fs := with_folder "/app/img"
             (<["/in/a/x.png" := "first image"]>
                (<["/in/b/x.png" := "second image"]> ∅));
     trace := [] |}.

(** What [toTestbed] does to the file system for the image at [p]: a link
    when the place of the image in the testbed is free, a copy over the
    file that is there when it is not. *)
Definition testbed_step (dirname : string) (m : disk) (p : string) : disk :=
  let dst := testbed_path dirname p in
  match m !! p with
  | Some bytes =>
      if bool_decide (is_Some (m !! dst)) then written m dst bytes
      else linked m p dst
  | None => m
  end.

(** The first of the images [paths] that goes to the place [dst] of the
    testbed. *)
Definition first_to (dirname dst : string) (paths : list string)
    : option string :=
  List.find (λ p, bool_decide (testbed_path dirname p = dst)) paths.

(** What holds of the file system [m] after [toTestbed] has been through
    the images [pre], starting from [m0]: a path that is no place of the
    testbed names the file it named; the place of a name is one file with
    the first image of the name; the bytes of the other files are as they
    were; and the place of a name reads the bytes that the last image of
    the name had. *)
Definition testbed_inv (dirname : string) (m0 : disk) (pre : list string)
    (m : disk) : Prop :=
  (∀ q, first_to dirname q pre = None → first_name m q = first_name m0 q)
  ∧ (∀ d pf, first_to dirname d pre = Some pf →
       first_name m d = first_name m0 pf)
  ∧ (∀ c, (∀ d pf, first_to dirname d pre = Some pf → c ≠ first_name m0 pf) →
       bytes_at m !! c = bytes_at m0 !! c)
  ∧ (∀ d pl, first_to dirname d (rev pre) = Some pl → m !! d = m0 !! pl).

(** Where the PPM rendering of the image named [name] is expected, and
    the conversion that [normalizeToPPM] starts for it. *)
Definition ppm_path (dirname name : string) : string :=
  join_strings [Utils.ppmTempFolder dirname; name +:+ ".ppm"].

Definition conversion (dirname name : string) : event :=
  let currentFile := join_strings [Utils.imgFolder dirname; name] in
  EvGmWrite currentFile (ppm_path dirname (basename currentFile)).

(** The object [getPPMStatistics] makes of a record, for a PPM file that
    holds [ppm]. *)
Definition with_statistics (sha256 : string → string) (dirname name : string)
    (ppm : string) (file : object) : object :=
  <["ppmsha256" := VStr (sha256 ppm)]>
    (<["ppmSize" := VNum (of_nat (String.length ppm))]>
       (<["ppmFile" := VStr (ppm_path dirname name)]> file)).

(** What [traverse] meets under a name: a directory, with its entries in
    the order in which [fs.readdirSync] lists them, or anything else (a
    file). Links that loop and entries that cannot be read are not
    modelled. *)
Inductive dirent : Type :=
  | RegularFile
  | Directory (entries : listing)
with listing : Type :=
  | NoMore
  | Entry (name : string) (d : dirent) (rest : listing).

Scheme dirent_listing_ind := Induction for dirent Sort Prop
  with listing_dirent_ind := Induction for listing Sort Prop.

Combined Scheme dirent_listing_mutind
  from dirent_listing_ind, listing_dirent_ind.

Section Traverse.
(** [path.join] of a directory and a name. *)
Variable path_join : string → string → string.

(** [traverse(directory)] on a directory with the entries [entries], the
    module-level array holding [files]: every entry is visited in turn,
    a directory by traversing it, anything else by pushing its path. The
    array that is returned is the one that was updated. *)
Fixpoint traverse (directory : string) (entries : listing)
    (files : list string) : list string :=
  match entries with
  | NoMore => files
  | Entry file d rest =>
      traverse directory rest (visit (path_join directory file) d files)
  end
with visit (absolute : string) (d : dirent) (files : list string)
    : list string :=
  match d with
  | RegularFile => files ++ [absolute]
  | Directory entries => traverse absolute entries files
  end.
End Traverse.

(** The number of files under a directory. *)
Fixpoint count_files (entries : listing) : nat :=
  match entries with
  | NoMore => 0
  | Entry _ d rest => count_under d + count_files rest
  end
with count_under (d : dirent) : nat :=
  match d with
  | RegularFile => 1
  | Directory entries => count_files entries
  end.

(** The paths of the files under a directory, those of a sub-directory
    in the place of the sub-directory. *)
Fixpoint paths_under (path_join : string → string → string)
    (directory : string) (entries : listing) : list string :=
  match entries with
  | NoMore => []
  | Entry file d rest =>
      (match d with
       | RegularFile => [path_join directory file]
       | Directory sub => paths_under path_join (path_join directory file) sub
       end) ++ paths_under path_join directory rest
  end.

(** The step hangs at its timed call [k]: the calls before it exit, and
    it never does. *)
Definition hangs_at (w : step) (k : nat) : Prop :=
  (k < 3)%nat
  ∧ (∀ i, (i < k)%nat → returns (proc (run w i)))
  ∧ proc (run w k) = NeverExits.

(** The passes in the order in which they run. *)
Definition pass_index (p : pass) : nat :=
  match p with C04 => 0 | C05 => 1 | D04 => 2 | D05 => 3 end.

(** An event that is not the writing of the report. *)
Definition not_a_write (ev : event) : Prop :=
  match ev with
  | EvWriteFile _ _ => False
  | _ => True
  end.

(** A call that never exits. *)
Definition hung_call : invocation :=
  {| proc := NeverExits; clock_before := 1000; clock_after := 1000 |}.

(** The records of the files [files], the first of which is at position
    [j], that [keep] keeps: [rec k file] for the file at position [k]. *)
Fixpoint records_from (keep : nat → bool) (rec : nat → object → object)
    (j : nat) (files : list object) : list object :=
  match files with
  | [] => []
  | file :: rest =>
      (if keep j then [rec j file] else [])
      ++ records_from keep rec (S j) rest
  end.

Section RunRecords.
Variable rt : builtins.
Variable isWindows : bool.

(** What a merging pass makes of the record [cur] of a file: what its
    callback assigns when the size probe of the pass exits with status
    zero for the file, and [cur] as it is when the callback throws. *)
Definition merge_step (p : pass) (w : step) (file cur : object) : object :=
  if probe_ok w then pass_after rt isWindows p w file cur else cur.

(** The record of the file at position [j] after the four passes. *)
Definition run_record (e : env) (j : nat) (file : object) : object :=
  merge_step D05 (bench e D05 j) file
    (merge_step D04 (bench e D04 j) file
       (merge_step C05 (bench e C05 j) file
          (after04 rt isWindows (bench e C04 j) file))).
End RunRecords.

(** The key under which each pass records its time. *)
Definition time_key (p : pass) : string :=
  match p with
  | C04 => "cTime0.4"
  | C05 => "cTime0.5"
  | D04 => "dTime0.4"
  | D05 => "dTime0.5"
  end.

(* ================================================================== *)
(** * Running the effects *)
(* ================================================================== *)

Lemma run_bind_ret {A B} (m : M A) (k : A → M B) s a s' :
  m s = (Ret a, s') → (m ≫= k) s = k a s'.
Proof. intros H. unfold mbind, M_bind, bind. by rewrite H. Qed.

Lemma run_bind_throw {A B} (m : M A) (k : A → M B) s e s' :
  m s = (Throw e, s') → (m ≫= k) s = (Throw e, s').
Proof. intros H. unfold mbind, M_bind, bind. by rewrite H. Qed.

Lemma run_bind_diverge {A B} (m : M A) (k : A → M B) s s' :
  m s = (Diverge, s') → (m ≫= k) s = (Diverge, s').
Proof. intros H. unfold mbind, M_bind, bind. by rewrite H. Qed.

(** A bind that returns went through a first half that returned. *)
Lemma run_bind_inv {A B} (m : M A) (k : A → M B) s b s2 :
  (m ≫= k) s = (Ret b, s2) →
  ∃ a s1, m s = (Ret a, s1) ∧ k a s1 = (Ret b, s2).
Proof.
  unfold mbind, M_bind, bind. destruct (m s) as [[a|e|] s1]; intros H.
  - eauto.
  - discriminate.
  - discriminate.
Qed.

Lemma add_events_nil s : add_events s [] = s.
Proof. destruct s. unfold add_events. simpl. by rewrite app_nil_r. Qed.

Lemma add_events_app s evs1 evs2 :
  add_events (add_events s evs1) evs2 = add_events s (evs1 ++ evs2).
Proof. unfold add_events. simpl. by rewrite app_assoc. Qed.

Lemma emit_run ev s : emit ev s = (Ret tt, add_events s [ev]).
Proof. reflexivity. Qed.

Lemma execs_app tr1 tr2 : execs (tr1 ++ tr2) = execs tr1 ++ execs tr2.
Proof. unfold execs. apply omap_app. Qed.

(* ================================================================== *)
(** * runSync and the timing loop *)
(* ================================================================== *)

Lemma execSync_no_timeout command enc p s :
  execSync command {| encoding := enc; timeout := None |} p s =
  match p with
  | Exits true _ out => (Ret out, add_events s [EvExec command])
  | Exits false _ _ => (Throw (ExecError command), add_events s [EvExec command])
  | NeverExits => (Diverge, add_events s [EvExec command])
  end.
Proof.
  unfold execSync. rewrite (run_bind_ret _ _ _ _ _ (emit_run _ _)). simpl.
  destruct p as [[] ? ?|]; reflexivity.
Qed.

(** A call that comes back gives its time. *)
Lemma runSync_returns comand inv s :
  returns (proc inv) →
  runSync comand inv s =
    (Ret (of_Z (time_ms inv)), add_events s (run_events comand inv)).
Proof.
  intros Hret. unfold runSync, try_catch, runSync_options, time_ms, run_events.
  unfold mbind at 1, M_bind at 1, bind at 1. rewrite execSync_no_timeout.
  destruct (proc inv) as [[] ? ?|]; simpl.
  - reflexivity.
  - unfold mbind, M_bind, bind. rewrite emit_run. simpl.
    by rewrite add_events_app.
  - by destruct Hret.
Qed.

(** A call that does not come back blocks [runSync]. *)
Lemma runSync_blocks comand inv s :
  proc inv = NeverExits →
  runSync comand inv s = (Diverge, add_events s [EvExec comand]).
Proof.
  intros Hp. unfold runSync, try_catch, runSync_options.
  unfold mbind at 1, M_bind at 1, bind at 1. rewrite execSync_no_timeout.
  by rewrite Hp.
Qed.

Lemma timing_loop_returns n : ∀ i command runs times s,
  (∀ k, (i ≤ k < i + n)%nat → returns (proc (runs k))) →
  timing_loop n i command runs times s =
    (Ret (times ++ ((λ k, of_Z (time_ms (runs k))) <$> seq i n)),
     add_events s (concat ((λ k, run_events command (runs k)) <$> seq i n))).
Proof.
  induction n as [|n IH]; intros i command runs times s Hret; simpl.
  - by rewrite app_nil_r, add_events_nil.
  - rewrite (run_bind_ret _ _ _ _ _ (runSync_returns command (runs i) s
               (Hret i ltac:(lia)))).
    rewrite IH by (intros k Hk; apply Hret; lia).
    by rewrite <- app_assoc, add_events_app.
Qed.

Lemma three_times_returns command runs s :
  (∀ i, (i < 3)%nat → returns (proc (runs i))) →
  three_times command runs s =
    (Ret [of_Z (time_ms (runs 0%nat)); of_Z (time_ms (runs 1%nat));
          of_Z (time_ms (runs 2%nat))],
     add_events s (run_events command (runs 0%nat)
                   ++ run_events command (runs 1%nat)
                   ++ run_events command (runs 2%nat))).
Proof.
  intros Hret. unfold three_times.
  rewrite timing_loop_returns by (intros k Hk; apply Hret; lia).
  simpl. by rewrite app_nil_r.
Qed.

Section Callbacks.
Variable rt : builtins.
Variable isWindows : bool.
Variable dirname : string.

Lemma measure_returns output elapsed out s :
  measure rt isWindows output (Exits true elapsed out) s =
    (Ret (measured rt isWindows out),
     add_events s [EvExec (measure_command isWindows output)]).
Proof.
  unfold measure, runSync_options.
  by rewrite (run_bind_ret _ _ _ out (add_events s [EvExec (measure_command isWindows output)])
                (execSync_no_timeout _ _ (Exits true elapsed out) s)).
Qed.

Lemma step_events_split (s : sys) command probe w :
  add_events
    (add_events s (run_events command (run w 0%nat)
                   ++ run_events command (run w 1%nat)
                   ++ run_events command (run w 2%nat)))
    [EvExec probe]
  = add_events s (step_events command probe w).
Proof.
  rewrite add_events_app. unfold step_events. by rewrite <- !app_assoc.
Qed.

(** The common start of the four callbacks on a clean step: the three
    timed calls, then the size probe. *)
Ltac clean_start Hw :=
  let Hruns := fresh "Hruns" in
  let elapsed := fresh "elapsed" in
  let out := fresh "out" in
  let Hprobe := fresh "Hprobe" in
  pose proof Hw as [Hruns (elapsed & out & Hprobe)];
  cbv zeta;
  rewrite (run_bind_ret _ _ _ _ _ (three_times_returns _ _ _ Hruns));
  unfold size_value, min_time, times_of;
  rewrite Hprobe;
  rewrite (run_bind_ret _ _ _ _ _ (measure_returns _ _ _ _));
  rewrite step_events_split.

Lemma compress04_clean file w report s :
  clean_step w →
  compress04 rt isWindows dirname file w report s =
    (Ret (report ++ [after04 rt isWindows w file]),
     add_events s (pass_events rt isWindows dirname C04 file w)).
Proof.
  intros Hw. unfold compress04, after04, pass_events. by clean_start Hw.
Qed.

Lemma compress05_clean file w report i cur s :
  clean_step w →
  findIndex (same_sha file) report = Some i →
  report !! i = Some cur →
  compress05 rt isWindows dirname file w report s =
    (Ret (<[i := after05 rt isWindows w file cur]> report),
     add_events s (pass_events rt isWindows dirname C05 file w)).
Proof.
  intros Hw Hi Hcur. unfold compress05, after05, pass_events.
  clean_start Hw. rewrite Hi. simpl. by rewrite Hcur.
Qed.

Lemma decompress04_clean file w report i cur s :
  clean_step w →
  findIndex (same_sha file) report = Some i →
  report !! i = Some cur →
  decompress04 rt isWindows dirname file w report s =
    (Ret (<[i := after_d04 rt isWindows w file cur]> report),
     add_events s (pass_events rt isWindows dirname D04 file w)).
Proof.
  intros Hw Hi Hcur. unfold decompress04, after_d04, pass_events.
  clean_start Hw. rewrite Hi. simpl. by rewrite Hcur.
Qed.

Lemma decompress05_clean file w report i cur s :
  clean_step w →
  findIndex (same_sha file) report = Some i →
  report !! i = Some cur →
  decompress05 rt isWindows dirname file w report s =
    (Ret (<[i := after_d05 rt isWindows w file cur]> report),
     add_events s (pass_events rt isWindows dirname D05 file w)).
Proof.
  intros Hw Hi Hcur. unfold decompress05, after_d05, pass_events.
  clean_start Hw. rewrite Hi. simpl. by rewrite Hcur.
Qed.
End Callbacks.

(* ================================================================== *)
(** * The four passes on a clean run *)
(* ================================================================== *)

Lemma strict_eq_str h v : strict_eq (VStr h) v = bool_decide (VStr h = v).
Proof. by destruct v as [|[]|]. Qed.

(** With distinct sha256 strings, [findIndex] stops at the record that
    faces the file. *)
Lemma findIndex_facing file done_r cur rest :
  distinct_shas (done_r ++ cur :: rest) →
  sha_of cur = sha_of file →
  findIndex (same_sha file) (done_r ++ cur :: rest) = Some (length done_r).
Proof.
  intros [Hnd Hstr] Hsha.
  assert (∃ h, sha_of file = VStr h) as [h Hh].
  { rewrite <- Hsha. apply list.Forall_app in Hstr as [_ Hstr].
    by apply list.Forall_cons in Hstr as [? _]. }
  induction done_r as [|x done_r IH]; simpl.
  - unfold same_sha. fold (sha_of file) (sha_of cur).
    rewrite Hh, strict_eq_str, bool_decide_true; [done|congruence].
  - unfold same_sha at 1. fold (sha_of file) (sha_of x).
    rewrite Hh, strict_eq_str, bool_decide_false.
    + rewrite IH; [done| |].
      * simpl in Hnd. by apply list.NoDup_cons in Hnd as [_ ?].
      * simpl in Hstr. by apply list.Forall_cons in Hstr as [_ ?].
    + intros Heq. simpl in Hnd. apply list.NoDup_cons in Hnd as [Hnotin _].
      apply Hnotin. rewrite fmap_app, fmap_cons. apply elem_of_app. right.
      replace (sha_of x) with (sha_of cur) by congruence.
      apply list_elem_of_here.
Qed.

Section Passes.
Variable rt : builtins.
Variable isWindows : bool.
Variable dirname : string.

Lemma first_pass_clean w files : ∀ j report s,
  (∀ k, (k < length files)%nat → clean_step (w (j + k)%nat)) →
  forEach_async (compress04 rt isWindows dirname) w j files report s =
    (Ret (report ++ pushed (after04 rt isWindows) w j files),
     add_events s (events_from rt isWindows dirname C04 w j files)).
Proof.
  induction files as [|file rest IH]; intros j report s Hclean; simpl.
  - by rewrite app_nil_r, add_events_nil.
  - unfold try_catch at 1.
    unfold mbind at 1, M_bind at 1, bind at 1.
    rewrite compress04_clean
      by (replace j with (j + 0)%nat by lia; apply Hclean; simpl; lia).
    rewrite IH.
    + by rewrite <- app_assoc, add_events_app.
    + intros k Hk. replace (S j + k)%nat with (j + S k)%nat by lia.
      apply Hclean. simpl. lia.
Qed.

(** A pass whose callback merges into the record it finds. *)
Section Merge.
Variable callback : object → step → list object → M (list object).
Variable after : step → object → object → object.
Variable p : pass.
Hypothesis callback_clean : ∀ file w report i cur s,
  clean_step w →
  findIndex (same_sha file) report = Some i →
  report !! i = Some cur →
  callback file w report s =
    (Ret (<[i := after w file cur]> report),
     add_events s (pass_events rt isWindows dirname p file w)).
Hypothesis after_sha : ∀ w file cur, sha_of (after w file cur) = sha_of cur.

Lemma merge_pass_clean w files : ∀ records done_r j s,
  length done_r = j →
  Forall2 (λ file cur, sha_of cur = sha_of file) files records →
  distinct_shas (done_r ++ records) →
  (∀ k, (k < length files)%nat → clean_step (w (j + k)%nat)) →
  forEach_async callback w j files (done_r ++ records) s =
    (Ret (done_r ++ merged after w j files records),
     add_events s (events_from rt isWindows dirname p w j files)).
Proof.
  induction files as [|file rest IH];
    intros records done_r j s Hlen Hfacing Hdistinct Hclean.
  - apply Forall2_nil_inv_l in Hfacing as ->. simpl.
    by rewrite add_events_nil.
  - apply Forall2_cons_inv_l in Hfacing
      as (cur & records' & Hsha & Hfacing & ->).
    simpl. unfold try_catch at 1.
    unfold mbind at 1, M_bind at 1, bind at 1.
    rewrite (callback_clean file (w j) _ (length done_r) cur).
    + rewrite <- (Nat.add_0_r (length done_r)) at 1.
      rewrite insert_app_r. simpl.
      replace (done_r ++ after (w j) file cur :: records')
        with ((done_r ++ [after (w j) file cur]) ++ records')
        by (by rewrite <- app_assoc).
      rewrite (IH records' _ (S j)).
      * by rewrite <- app_assoc, add_events_app.
      * rewrite length_app. simpl. lia.
      * done.
      * destruct Hdistinct as [Hnd Hstr]. split.
        -- rewrite !fmap_app in *. simpl in *.
           by rewrite after_sha, <- app_assoc.
        -- apply list.Forall_app in Hstr as [Hs1 Hs2].
           apply list.Forall_cons in Hs2 as [Hs2 Hs3].
           apply list.Forall_app. split; [|done].
           apply list.Forall_app. split; [done|].
           apply list.Forall_cons. split; [|constructor].
           by rewrite after_sha.
      * intros k Hk. replace (S j + k)%nat with (j + S k)%nat by lia.
        apply Hclean. simpl. lia.
    + replace j with (j + 0)%nat by lia. apply Hclean. simpl. lia.
    + by apply findIndex_facing.
    + by apply list_lookup_middle.
Qed.
End Merge.
End Passes.

(* ================================================================== *)
(** * What the passes keep *)
(* ================================================================== *)

(** Reading a property through the writes of other properties. *)
Lemma prop_insert_ne (o : object) k k' v :
  k ≠ k' → prop (<[k := v]> o) k' = prop o k'.
Proof. intros. unfold prop. by rewrite lookup_insert_ne. Qed.

Lemma prop_insert_eq (o : object) k v : prop (<[k := v]> o) k = v.
Proof. unfold prop. by rewrite lookup_insert_eq. Qed.

Lemma prop_delete_ne (o : object) k k' :
  k ≠ k' → prop (delete k o) k' = prop o k'.
Proof. intros. unfold prop. by rewrite lookup_delete_ne. Qed.

(** Two distinct key names, by comparing them. *)
Ltac key_ne :=
  lazymatch goal with
  | |- ?a ≠ ?b => exact (proj1 (bool_decide_eq_false (a = b)) eq_refl)
  end.

Ltac prop_step :=
  lazymatch goal with
  | |- context [prop (<[?k := ?v]> ?o) ?k'] =>
      let same := eval vm_compute in (bool_decide (k = k')) in
      lazymatch same with
      | true => change (prop (<[k := v]> o) k') with (prop (<[k := v]> o) k);
                rewrite (prop_insert_eq o k v)
      | false => rewrite (prop_insert_ne o k k' v) by key_ne
      end
  | |- context [prop (delete ?k ?o) ?k'] =>
      rewrite (prop_delete_ne o k k') by key_ne
  end.

Ltac prop_simpl := repeat prop_step.

Section Kept.
Variable rt : builtins.
Variable isWindows : bool.

Lemma after04_sha w file : sha_of (after04 rt isWindows w file) = sha_of file.
Proof. unfold sha_of, after04, record04. by prop_simpl. Qed.

Lemma after05_sha w file cur :
  sha_of (after05 rt isWindows w file cur) = sha_of cur.
Proof. unfold sha_of, after05, record05. by prop_simpl. Qed.

Lemma after_d04_sha w file cur :
  sha_of (after_d04 rt isWindows w file cur) = sha_of cur.
Proof. unfold sha_of, after_d04, restored04. by prop_simpl. Qed.

Lemma after_d05_sha w file cur :
  sha_of (after_d05 rt isWindows w file cur) = sha_of cur.
Proof. unfold sha_of, after_d05, restored05. by prop_simpl. Qed.

Lemma pushed_facing w files : ∀ j,
  Forall2 (λ file cur, sha_of cur = sha_of file) files
    (pushed (after04 rt isWindows) w j files).
Proof.
  induction files as [|file rest IH]; intros j; simpl; constructor.
  - apply after04_sha.
  - apply IH.
Qed.

Lemma merged_facing after w files :
  (∀ w file cur, sha_of (after w file cur) = sha_of cur) →
  ∀ records j,
  Forall2 (λ file cur, sha_of cur = sha_of file) files records →
  Forall2 (λ file cur, sha_of cur = sha_of file) files
    (merged after w j files records).
Proof.
  intros Hsha. induction files as [|file rest IH]; intros records j Hf.
  - apply Forall2_nil_inv_l in Hf as ->. constructor.
  - apply Forall2_cons_inv_l in Hf as (cur & records' & Hc & Hf & ->).
    simpl. constructor.
    + by rewrite Hsha.
    + by apply IH.
Qed.
End Kept.

Lemma facing_shas (files records : list object) :
  Forall2 (λ file cur, sha_of cur = sha_of file) files records →
  sha_of <$> records = sha_of <$> files.
Proof.
  induction 1 as [|file cur files records Hsha _ IH]; [done|].
  rewrite !fmap_cons. by f_equal.
Qed.

Lemma distinct_shas_alt (l : list object) :
  distinct_shas l ↔
  NoDup (sha_of <$> l) ∧ Forall (λ v, ∃ h, v = VStr h) (sha_of <$> l).
Proof. unfold distinct_shas. by rewrite list.Forall_fmap. Qed.

Lemma distinct_shas_facing (files records : list object) :
  Forall2 (λ file cur, sha_of cur = sha_of file) files records →
  distinct_shas files → distinct_shas records.
Proof.
  intros Hf. rewrite !distinct_shas_alt. by rewrite (facing_shas _ _ Hf).
Qed.

Section CleanRun.
Variable rt : builtins.
Variable isWindows : bool.
Variable dirname : string.

(** On a clean run over files with distinct sha256 strings, the four
    passes return the final report and leave exactly the events of
    [benchmark_events]. *)
Lemma benchmark_clean e allFiles s :
  clean_env e (length allFiles) →
  distinct_shas allFiles →
  benchmark rt isWindows dirname e allFiles s =
    (Ret (final_report rt isWindows e allFiles),
     add_events s (benchmark_events rt isWindows dirname e allFiles)).
Proof.
  intros Hclean Hdistinct. unfold benchmark, final_report, benchmark_events.
  set (r1 := pushed (after04 rt isWindows) (bench e C04) 0 allFiles).
  set (r2 := merged (after05 rt isWindows) (bench e C05) 0 allFiles r1).
  set (r3 := merged (after_d04 rt isWindows) (bench e D04) 0 allFiles r2).
  set (r4 := merged (after_d05 rt isWindows) (bench e D05) 0 allFiles r3).
  assert (Hf1 : Forall2 (λ file cur, sha_of cur = sha_of file) allFiles r1)
    by apply pushed_facing.
  assert (Hf2 : Forall2 (λ file cur, sha_of cur = sha_of file) allFiles r2)
    by (apply merged_facing; [apply after05_sha|done]).
  assert (Hf3 : Forall2 (λ file cur, sha_of cur = sha_of file) allFiles r3)
    by (apply merged_facing; [apply after_d04_sha|done]).
  rewrite (run_bind_ret _ _ _ _ _
             (first_pass_clean rt isWindows dirname (bench e C04) allFiles
                0 [] s (λ k Hk, Hclean C04 k Hk))).
  simpl. fold r1.
  rewrite (run_bind_ret _ _ _ _ _
             (merge_pass_clean rt isWindows dirname _ _ C05
                (compress05_clean rt isWindows dirname)
                (after05_sha rt isWindows)
                (bench e C05) allFiles r1 [] 0 _ eq_refl Hf1
                (distinct_shas_facing _ _ Hf1 Hdistinct)
                (λ k Hk, Hclean C05 k Hk))).
  simpl. fold r2.
  rewrite (run_bind_ret _ _ _ _ _
             (merge_pass_clean rt isWindows dirname _ _ D04
                (decompress04_clean rt isWindows dirname)
                (after_d04_sha rt isWindows)
                (bench e D04) allFiles r2 [] 0 _ eq_refl Hf2
                (distinct_shas_facing _ _ Hf2 Hdistinct)
                (λ k Hk, Hclean D04 k Hk))).
  simpl. fold r3.
  rewrite (run_bind_ret _ _ _ _ _
             (merge_pass_clean rt isWindows dirname _ _ D05
                (decompress05_clean rt isWindows dirname)
                (after_d05_sha rt isWindows)
                (bench e D05) allFiles r3 [] 0 _ eq_refl Hf3
                (distinct_shas_facing _ _ Hf3 Hdistinct)
                (λ k Hk, Hclean D05 k Hk))).
  simpl. fold r4.
  rewrite (run_bind_ret _ _ _ _ _ (emit_run _ _)).
  unfold ret. by rewrite !add_events_app.
Qed.

Lemma pushed_lookup after (w : nat → step) files : ∀ j k file,
  files !! k = Some file →
  pushed after w j files !! k = Some (after (w (j + k)%nat) file).
Proof.
  induction files as [|f rest IH]; intros j [|k] file Hk; simplify_eq/=.
  - by rewrite Nat.add_0_r.
  - rewrite (IH (S j) k file Hk). do 3 f_equal. lia.
Qed.

Lemma merged_lookup after (w : nat → step) files : ∀ records j k file cur,
  files !! k = Some file → records !! k = Some cur →
  merged after w j files records !! k = Some (after (w (j + k)%nat) file cur).
Proof.
  induction files as [|f rest IH];
    intros [|c records] j [|k] file cur Hk Hc; simplify_eq/=.
  - by rewrite Nat.add_0_r.
  - rewrite (IH records (S j) k file cur Hk Hc). do 3 f_equal. lia.
Qed.

(** The final report holds, at the position of each file, its final
    record, and nothing else. *)
Lemma final_report_lookup e allFiles j file :
  allFiles !! j = Some file →
  final_report rt isWindows e allFiles !! j
    = Some (final_record rt isWindows e j file).
Proof.
  intros Hj. unfold final_report, final_record.
  pose proof (pushed_lookup (after04 rt isWindows) (bench e C04)
                allFiles 0 j file Hj) as H1.
  pose proof (merged_lookup (after05 rt isWindows) (bench e C05)
                allFiles _ 0 j file _ Hj H1) as H2.
  pose proof (merged_lookup (after_d04 rt isWindows) (bench e D04)
                allFiles _ 0 j file _ Hj H2) as H3.
  exact (merged_lookup (after_d05 rt isWindows) (bench e D05)
           allFiles _ 0 j file _ Hj H3).
Qed.

Lemma pushed_length after (w : nat → step) files : ∀ j,
  length (pushed after w j files) = length files.
Proof. induction files; intros j; simpl; [done|]. by rewrite IHfiles. Qed.

Lemma merged_length after (w : nat → step) files : ∀ records j,
  length records = length files →
  length (merged after w j files records) = length files.
Proof.
  induction files as [|f rest IH]; intros [|c records] j Hl;
    simpl in *; try done.
  rewrite IH; [done|lia].
Qed.

Lemma final_report_length e allFiles :
  length (final_report rt isWindows e allFiles) = length allFiles.
Proof.
  unfold final_report.
  repeat (rewrite merged_length; [done|]).
  apply pushed_length.
Qed.

Lemma final_report_elem e allFiles r :
  r ∈ final_report rt isWindows e allFiles →
  ∃ j file, allFiles !! j = Some file
            ∧ r = final_record rt isWindows e j file.
Proof.
  intros Hr. apply list_elem_of_lookup in Hr as [j Hj].
  assert (Hlt : (j < length allFiles)%nat).
  { rewrite <- (final_report_length e). by eapply lookup_lt_Some. }
  apply lookup_lt_is_Some in Hlt as [file Hfile].
  exists j, file. split; [done|].
  rewrite (final_report_lookup e allFiles j file Hfile) in Hj. congruence.
Qed.
End CleanRun.

(* ================================================================== *)
(** * Numbers *)
(* ================================================================== *)

Lemma min2_of_Z a b : min2 (of_Z a) (of_Z b) = of_Z (Z.min a b).
Proof.
  unfold min2, of_Z. case_bool_decide as Hle.
  - apply Z2Qc_inj_le in Hle. by rewrite Z.min_l.
  - rewrite <- Z2Qc_inj_le in Hle. by rewrite Z.min_r by lia.
Qed.

Lemma Math_min_three a b c :
  Math_min [of_Z a; of_Z b; of_Z c] = of_Z (Z.min a (Z.min b c)).
Proof.
  unfold Math_min. cbn [foldr].
  replace (min2 (of_Z c) PInf) with (of_Z c) by done.
  by rewrite !min2_of_Z.
Qed.

Lemma min_time_recorded w : min_time w = of_Z (recorded_ms w).
Proof. apply Math_min_three. Qed.

Lemma is_integer_of_Z z : is_integer (Qc_of_Z z) = true.
Proof. reflexivity. Qed.

Lemma jsadd_of_Z a b : jsadd (of_Z a) (of_Z b) = of_Z (a + b).
Proof.
  unfold jsadd, of_Z. rewrite !is_integer_of_Z. simpl.
  by rewrite Z2Qc_inj_add.
Qed.

Lemma jssub_of_Z a b : jssub (of_Z a) (of_Z b) = of_Z (a - b).
Proof.
  replace (jssub (of_Z a) (of_Z b)) with (jsadd (of_Z a) (of_Z (- b))).
  - by rewrite jsadd_of_Z.
  - unfold jssub, of_Z. cbn [jsopp]. by rewrite Z2Qc_inj_opp.
Qed.

Lemma of_Z_inj a b : of_Z a = of_Z b → a = b.
Proof. unfold of_Z. intros H. apply Z2Qc_inj. congruence. Qed.

(** Two finite numbers are equal when their fractions are. *)
Lemma Fin_canon (q1 q2 : Qc) : (q1 == q2)%Q → Fin q1 = Fin q2.
Proof. intros H. f_equal. by apply Qc_is_canon. Qed.

Lemma same_number_eq a b : same_number a b = true → a = b.
Proof.
  destruct a as [x| | |], b as [y| | |]; simpl; try done.
  intros H%Qeq_bool_eq. by apply Fin_canon.
Qed.

Lemma Qc_of_Z_zero z : Qc_of_Z z = qzero ↔ z = 0%Z.
Proof. unfold qzero. rewrite <- Z2Qc_inj_0. apply Z2Qc_inj_iff. Qed.

(** The speed the code computes from an integer size and time: two
    binary64 divisions. *)
Lemma speed_formula rt size time :
  speed rt (VNum (of_Z size)) (of_Z time)
  = jsdiv (of_Z size) (jsdiv (of_Z time) (of_Z 1000)).
Proof. reflexivity. Qed.

(** [0 / 1000] is 0, and a division by it gives an infinity, or NaN for
    the size 0. *)
Lemma speed_zero_time size :
  jsdiv (of_Z size) (jsdiv (of_Z 0) (of_Z 1000))
  = if bool_decide (size = 0)%Z then NaN
    else inf_of (bool_decide (0 < size)%Z).
Proof.
  replace (jsdiv (of_Z 0) (of_Z 1000)) with (Fin qzero)
    by (apply same_number_eq; reflexivity).
  unfold jsdiv, of_Z. rewrite (bool_decide_true (qzero = qzero)) by done.
  rewrite (bool_decide_ext _ _ (Qc_of_Z_zero size)).
  case_bool_decide; [done|]. f_equal. apply bool_decide_ext.
  unfold qzero. rewrite <- Z2Qc_inj_0. symmetry. apply Z2Qc_inj_lt.
Qed.

Lemma speed_zero_time_null size :
  JSON_value (VNum (jsdiv (of_Z size) (jsdiv (of_Z 0) (of_Z 1000))))
  = Some JNull.
Proof.
  rewrite speed_zero_time. case_bool_decide; [done|]. by case_bool_decide.
Qed.

(** 2,000,000 bytes in 500 ms: 500 / 1000 is 0.5, and the speed is
    4,000,000. *)
Example speed_example :
  jsdiv (of_Z 2000000) (jsdiv (of_Z 500) (of_Z 1000)) = of_Z 4000000.
Proof. apply same_number_eq. reflexivity. Qed.

(** 2,000,000 bytes and the sentinel -1: -1 / 1000 is rounded to the
    binary64 number nearest to -0.001, and the quotient is rounded to
    -2,000,000,000. *)
Example speed_sentinel :
  jsdiv (of_Z 2000000) (jsdiv (of_Z (-1)) (of_Z 1000))
  = of_Z (-2000000000).
Proof. apply same_number_eq. reflexivity. Qed.

(* ================================================================== *)
(** * The fields of the final record *)
(* ================================================================== *)

Ltac unfold_final :=
  unfold final_record, after_d05, after_d04, after05, after04,
    restored05, restored04, record05, record04.

Section Fields.
Variable rt : builtins.
Variable isWindows : bool.
Variable e : env.
Variable j : nat.
Variable file : object.

Let r := final_record rt isWindows e j file.

Lemma final_cTime04 : prop r "cTime0.4" = VNum (min_time (bench e C04 j)).
Proof. subst r. unfold_final. by prop_simpl. Qed.

Lemma final_cTime05 : prop r "cTime0.5" = VNum (min_time (bench e C05 j)).
Proof. subst r. unfold_final. by prop_simpl. Qed.

Lemma final_dTime04 : prop r "dTime0.4" = VNum (min_time (bench e D04 j)).
Proof. subst r. unfold_final. by prop_simpl. Qed.

Lemma final_dTime05 : prop r "dTime0.5" = VNum (min_time (bench e D05 j)).
Proof. subst r. unfold_final. by prop_simpl. Qed.

Lemma final_ppmSize : prop r "ppmSize" = prop file "ppmSize".
Proof. subst r. unfold_final. by prop_simpl. Qed.

Lemma final_cSpeed04 :
  prop r "cSpeed0.4"
  = VNum (speed rt (prop file "ppmSize") (min_time (bench e C04 j))).
Proof. subst r. unfold_final. by prop_simpl. Qed.

Lemma final_cSpeed05 :
  prop r "cSpeed0.5"
  = VNum (speed rt (prop file "ppmSize") (min_time (bench e C05 j))).
Proof. subst r. unfold_final. by prop_simpl. Qed.

Lemma final_cRatio04 :
  prop r "cRatio0.4"
  = VNum (percent rt (size_value rt isWindows (bench e C04 j))
            (prop file "originalSize")).
Proof. subst r. unfold_final. by prop_simpl. Qed.

Lemma final_cRatio05 :
  prop r "cRatio0.5"
  = VNum (percent rt (size_value rt isWindows (bench e C05 j))
            (prop file "originalSize")).
Proof. subst r. unfold_final. by prop_simpl. Qed.

Lemma final_cTimeDiff :
  prop r "cTimeDiff"
  = VNum (jssub (min_time (bench e C05 j)) (min_time (bench e C04 j))).
Proof. subst r. unfold_final. by prop_simpl. Qed.

Lemma final_cRatioDiff :
  prop r "cRatioDiff"
  = VNum (jssub
            (percent rt (size_value rt isWindows (bench e C05 j))
               (prop file "originalSize"))
            (percent rt (size_value rt isWindows (bench e C04 j))
               (prop file "originalSize"))).
Proof. subst r. unfold_final. by prop_simpl. Qed.

Lemma final_dTimeDiff :
  prop r "dTimeDiff"
  = VNum (jssub (min_time (bench e D05 j)) (min_time (bench e D04 j))).
Proof. subst r. unfold_final. by prop_simpl. Qed.

Lemma final_roundTrip04 :
  prop r "roundTrip0.4"
  = VNum (jsadd (min_time (bench e C04 j)) (min_time (bench e D04 j))).
Proof. subst r. unfold_final. by prop_simpl. Qed.

Lemma final_roundTrip05 :
  prop r "roundTrip0.5"
  = VNum (jsadd (min_time (bench e C05 j)) (min_time (bench e D05 j))).
Proof. subst r. unfold_final. by prop_simpl. Qed.

Lemma final_roundTripDiff :
  prop r "roundTripDiff"
  = VNum (jssub
            (jsadd (min_time (bench e C05 j)) (min_time (bench e D05 j)))
            (jsadd (min_time (bench e C04 j)) (min_time (bench e D04 j)))).
Proof. subst r. unfold_final. by prop_simpl. Qed.
End Fields.

(* ================================================================== *)
(** * The recorded times *)
(* ================================================================== *)

Lemma execs_run_events comand inv : execs (run_events comand inv) = [comand].
Proof. unfold run_events. by destruct (proc inv) as [[] ? ?|]. Qed.

(** A clean callback runs its timed command three times in a row, then the
    size probe, and no other command. *)
Lemma execs_step_events command probe w :
  execs (step_events command probe w) = [command; command; command; probe].
Proof.
  unfold step_events. by rewrite !execs_app, !execs_run_events.
Qed.

Lemma time_ms_succeeds inv :
  succeeds inv → time_ms inv = (clock_after inv - clock_before inv)%Z.
Proof. intros (elapsed & out & H). unfold time_ms. by rewrite H. Qed.

Lemma time_ms_fails inv : fails inv → time_ms inv = (-1)%Z.
Proof. intros (elapsed & out & H). unfold time_ms. by rewrite H. Qed.

Lemma returns_cases inv : returns (proc inv) → succeeds inv ∨ fails inv.
Proof.
  unfold returns, succeeds, fails. destruct (proc inv) as [[] ? ?|]; eauto.
  by intros [].
Qed.

Lemma succeeds_not_fails inv : succeeds inv → ¬ fails inv.
Proof. intros (? & ? & H1) (? & ? & H2). congruence. Qed.

(** Under a clock that does not go backwards a time is -1 exactly for a
    failed call, and is not negative otherwise. *)
Lemma time_ms_sentinel inv :
  returns (proc inv) → (clock_before inv ≤ clock_after inv)%Z →
  (fails inv ∧ time_ms inv = (-1)%Z) ∨ (succeeds inv ∧ (0 ≤ time_ms inv)%Z).
Proof.
  intros Hret Hclock. destruct (returns_cases inv Hret) as [Hs|Hf].
  - right. split; [done|]. rewrite time_ms_succeeds by done. lia.
  - left. split; [done|]. by apply time_ms_fails.
Qed.

Lemma recorded_all_succeed w :
  (∀ i, (i < 3)%nat → succeeds (run w i)) →
  recorded_ms w =
    Z.min (clock_after (run w 0) - clock_before (run w 0))
      (Z.min (clock_after (run w 1) - clock_before (run w 1))
         (clock_after (run w 2) - clock_before (run w 2))).
Proof.
  intros Hs. unfold recorded_ms.
  by rewrite !time_ms_succeeds by (apply Hs; lia).
Qed.

Lemma recorded_sentinel_iff w :
  clean_step w → clock_monotone w →
  (recorded_ms w = (-1)%Z ↔ ∃ i, (i < 3)%nat ∧ fails (run w i)).
Proof.
  intros [Hret _] Hclock. unfold recorded_ms.
  pose proof (time_ms_sentinel (run w 0) (Hret 0%nat ltac:(lia))
                (Hclock 0%nat ltac:(lia))) as H0.
  pose proof (time_ms_sentinel (run w 1) (Hret 1%nat ltac:(lia))
                (Hclock 1%nat ltac:(lia))) as H1.
  pose proof (time_ms_sentinel (run w 2) (Hret 2%nat ltac:(lia))
                (Hclock 2%nat ltac:(lia))) as H2.
  split.
  - intros Hmin.
    destruct H0 as [[Hf0 _]|[_ Hp0]]; [exists 0%nat; split; [lia|done]|].
    destruct H1 as [[Hf1 _]|[_ Hp1]]; [exists 1%nat; split; [lia|done]|].
    destruct H2 as [[Hf2 _]|[_ Hp2]]; [exists 2%nat; split; [lia|done]|].
    lia.
  - intros (i & Hi & Hf).
    assert (Hge : ∀ k, (k < 3)%nat → (-1 ≤ time_ms (run w k))%Z).
    { intros k Hk.
      destruct (time_ms_sentinel (run w k) (Hret k Hk) (Hclock k Hk))
        as [[_ ->]|[_ ?]]; lia. }
    pose proof (Hge 0%nat ltac:(lia)). pose proof (Hge 1%nat ltac:(lia)).
    pose proof (Hge 2%nat ltac:(lia)).
    pose proof (time_ms_fails _ Hf) as Hm.
    destruct i as [|[|[|i]]]; [lia|lia|lia|lia].
Qed.

Lemma recorded_nonneg w :
  clean_step w → clock_monotone w →
  (∀ i, (i < 3)%nat → succeeds (run w i)) → (0 ≤ recorded_ms w)%Z.
Proof.
  intros Hclean Hclock Hs.
  destruct (decide (recorded_ms w = (-1)%Z)) as [Hm|Hm].
  - apply (recorded_sentinel_iff w Hclean Hclock) in Hm as (i & Hi & Hf).
    by destruct (succeeds_not_fails _ (Hs i Hi)).
  - rewrite recorded_all_succeed by done.
    pose proof (Hclock 0%nat ltac:(lia)). pose proof (Hclock 1%nat ltac:(lia)).
    pose proof (Hclock 2%nat ltac:(lia)). lia.
Qed.

Section Claims.
Variable rt : builtins.
Variable isWindows : bool.
Variable dirname : string.

(** The record of a file after a clean run. *)
Lemma clean_run_record e allFiles s j file :
  clean_env e (length allFiles) →
  distinct_shas allFiles →
  allFiles !! j = Some file →
  ∃ report,
    benchmark rt isWindows dirname e allFiles s
      = (Ret report,
         add_events s (benchmark_events rt isWindows dirname e allFiles))
    ∧ length report = length allFiles
    ∧ report !! j = Some (final_record rt isWindows e j file).
Proof.
  intros Hclean Hdistinct Hj. exists (final_report rt isWindows e allFiles).
  split; [by apply benchmark_clean|]. split.
  - apply final_report_length.
  - by apply final_report_lookup.
Qed.
End Claims.

(** C1 (amended). On a run whose commands all come back, each callback of
    the two compress passes runs its compressor command exactly three times
    in a row, and the time recorded for a file and a variant is the minimum
    of the three times [runSync] returned, a failed call counting as -1.
    With a clock that does not go backwards the recorded time is therefore
    the sentinel -1 exactly when at least one of the three calls failed,
    and is the minimum of the three measured durations, not negative, when
    the three calls succeeded. *)
Theorem C1_recorded_time_is_min_of_three rt isWindows dirname e allFiles s
    j file :
  clean_env e (length allFiles) →
  distinct_shas allFiles →
  allFiles !! j = Some file →
  ∃ report r,
    benchmark rt isWindows dirname e allFiles s
      = (Ret report,
         add_events s (benchmark_events rt isWindows dirname e allFiles))
    ∧ report !! j = Some r
    ∧ ∀ p key, (p, key) ∈ [(C04, "cTime0.4"); (C05, "cTime0.5")] →
        let w := bench e p j in
        execs (pass_events rt isWindows dirname p file w)
          = [pass_command rt isWindows dirname p file;
             pass_command rt isWindows dirname p file;
             pass_command rt isWindows dirname p file;
             measure_command isWindows (pass_output rt dirname p file)]
        ∧ prop r key = VNum (Math_min (times_of w))
        ∧ prop r key = VNum (of_Z (recorded_ms w))
        ∧ (clock_monotone w →
           (recorded_ms w = (-1)%Z ↔ ∃ i, (i < 3)%nat ∧ fails (run w i)))
        ∧ ((∀ i, (i < 3)%nat → succeeds (run w i)) →
           recorded_ms w =
             Z.min (clock_after (run w 0) - clock_before (run w 0))
               (Z.min (clock_after (run w 1) - clock_before (run w 1))
                  (clock_after (run w 2) - clock_before (run w 2)))
           ∧ (clock_monotone w → (0 ≤ recorded_ms w)%Z)).
Proof.
  intros Hclean Hdistinct Hj.
  destruct (clean_run_record rt isWindows dirname e allFiles s j file
              Hclean Hdistinct Hj) as (report & Hrun & _ & Hr).
  exists report, (final_record rt isWindows e j file).
  split; [done|]. split; [done|].
  assert (Hjlt : (j < length allFiles)%nat) by by eapply lookup_lt_Some.
  intros p key Hp w.
  assert (Hw : clean_step w) by by apply Hclean.
  assert (Hkey : prop (final_record rt isWindows e j file) key
                 = VNum (min_time w)).
  { apply list_elem_of_In in Hp. simpl in Hp.
    destruct Hp as [[= <- <-]|[[= <- <-]|[]]].
    - apply final_cTime04.
    - apply final_cTime05. }
  split; [apply execs_step_events|].
  split; [done|].
  split; [by rewrite Hkey, min_time_recorded|].
  split; [by apply recorded_sentinel_iff|].
  intros Hs. split; [by apply recorded_all_succeed|].
  intros Hclock. by apply recorded_nonneg.
Qed.

(* ================================================================== *)
(** * The example run *)
(* ================================================================== *)

Lemma example_step_clean c0 c1 c2 size :
  returns (proc c0) → returns (proc c1) → returns (proc c2) →
  clean_step (example_step c0 c1 c2 size).
Proof.
  intros H0 H1 H2. split.
  - intros [|[|i]] _; simpl; done.
  - simpl. eauto.
Qed.

Lemma example_env_clean c04 c05 d04 d05 n :
  clean_step c04 → clean_step c05 → clean_step d04 → clean_step d05 →
  clean_env (example_env c04 c05 d04 d05) n.
Proof. intros ???? [] j _; simpl; done. Qed.

Lemma ok_call_returns d : returns (proc (ok_call d)).
Proof. done. Qed.

Lemma failed_call_returns d : returns (proc (failed_call d)).
Proof. done. Qed.

Lemma ok_call_succeeds d : succeeds (ok_call d).
Proof. unfold succeeds. simpl. eauto. Qed.

Lemma example_file_alone : distinct_shas [example_file].
Proof.
  split.
  - apply NoDup_singleton.
  - constructor; [|constructor]. by exists "5f2a".
Qed.

Create HintDb example.
#[local] Hint Resolve example_step_clean example_env_clean ok_call_returns
  failed_call_returns example_file_alone : example.

(** C1, on the timings 120, 95 and 130: the recorded time is 95. *)
Lemma C1_witness :
  let w := example_step (ok_call 120) (ok_call 95) (ok_call 130) "1000" in
  ∃ report r,
    (benchmark example_rt false "/app" (example_env w w w w)
       [example_file] sys0).1 = Ret report
    ∧ report !! 0%nat = Some r
    ∧ prop r "cTime0.4" = VNum (of_Z 95).
Proof.
  intros w.
  destruct (C1_recorded_time_is_min_of_three example_rt false "/app"
              (example_env w w w w) [example_file] sys0 0 example_file)
    as (report & r & Hrun & Hr & Hkeys).
  - apply example_env_clean; apply example_step_clean; apply ok_call_returns.
  - apply example_file_alone.
  - reflexivity.
  - exists report, r. rewrite Hrun. split; [reflexivity|]. split; [exact Hr|].
    destruct (Hkeys C04 "cTime0.4") as (_ & _ & Hkey & _).
    + apply list_elem_of_here.
    + rewrite Hkey. reflexivity.
Defined.

(** C1 as stated fails: of three compress calls of 120 ms, a failure, and
    130 ms, two succeed, and the recorded time is the sentinel -1. *)
Lemma C1_counterexample :
  let w := example_step (ok_call 120) (failed_call 95) (ok_call 130) "1000" in
  succeeds (run w 0) ∧ succeeds (run w 2)
  ∧ ∃ report r,
      (benchmark example_rt false "/app" (example_env w w w w)
         [example_file] sys0).1 = Ret report
      ∧ report !! 0%nat = Some r
      ∧ prop r "cTime0.4" = VNum (of_Z (-1)).
Proof.
  intros w. split; [apply ok_call_succeeds|]. split; [apply ok_call_succeeds|].
  assert (Hw : clean_step w) by (unfold w; auto with example).
  destruct (clean_run_record example_rt false "/app" (example_env w w w w)
              [example_file] sys0 0 example_file)
    as (report & Hrun & _ & Hr); [auto with example..|reflexivity|].
  exists report, (final_record example_rt false (example_env w w w w) 0
                    example_file).
  rewrite Hrun. split; [done|]. split; [done|].
  by rewrite final_cTime04, min_time_recorded.
Qed.

(* ================================================================== *)
(** * The recorded speeds *)
(* ================================================================== *)

(** C3 (amended). On a run whose commands all come back, the speed
    recorded for a file and a variant is [ppmSize / (time / 1000)] for the
    recorded time, whatever that time is: there is no guard, and both
    divisions are binary64 divisions, each rounded to the nearest binary64
    number. The record always has the speed, and the report prints it as
    a number or as null. For the time 0 the inner quotient is 0 and the
    division by it gives an infinity, or NaN for the size 0, which the
    report prints as null. The run returns in each case. *)
Theorem C3_recorded_speed rt isWindows dirname e allFiles s j file ppmSize :
  clean_env e (length allFiles) →
  distinct_shas allFiles →
  allFiles !! j = Some file →
  prop file "ppmSize" = VNum (of_Z ppmSize) →
  ∃ report r,
    benchmark rt isWindows dirname e allFiles s
      = (Ret report,
         add_events s (benchmark_events rt isWindows dirname e allFiles))
    ∧ report !! j = Some r
    ∧ prop r "ppmSize" = VNum (of_Z ppmSize)
    ∧ ∀ p time_key speed_key,
        (p, time_key, speed_key)
          ∈ [(C04, "cTime0.4", "cSpeed0.4"); (C05, "cTime0.5", "cSpeed0.5")] →
        let time := recorded_ms (bench e p j) in
        prop r time_key = VNum (of_Z time)
        ∧ prop r speed_key
          = VNum (jsdiv (of_Z ppmSize) (jsdiv (of_Z time) (of_Z 1000)))
        ∧ (∃ printed, JSON_value (prop r speed_key) = Some printed)
        ∧ (time = 0%Z →
           prop r speed_key
           = VNum (if bool_decide (ppmSize = 0)%Z then NaN
                   else inf_of (bool_decide (0 < ppmSize)%Z))
           ∧ JSON_value (prop r speed_key) = Some JNull).
Proof.
  intros Hclean Hdistinct Hj Hsize.
  destruct (clean_run_record rt isWindows dirname e allFiles s j file
              Hclean Hdistinct Hj) as (report & Hrun & _ & Hr).
  exists report, (final_record rt isWindows e j file).
  split; [done|]. split; [done|].
  split; [by rewrite final_ppmSize|].
  intros p time_key speed_key Hp time.
  assert (Hkeys :
    prop (final_record rt isWindows e j file) time_key = VNum (of_Z time)
    ∧ prop (final_record rt isWindows e j file) speed_key
      = VNum (speed rt (VNum (of_Z ppmSize)) (of_Z time))).
  { apply list_elem_of_In in Hp. simpl in Hp. subst time.
    destruct Hp as [[= <- <- <-]|[[= <- <- <-]|[]]].
    - by rewrite final_cTime04, final_cSpeed04, Hsize, min_time_recorded.
    - by rewrite final_cTime05, final_cSpeed05, Hsize, min_time_recorded. }
  destruct Hkeys as [Htime Hspeed].
  rewrite speed_formula in Hspeed.
  split; [exact Htime|]. split; [exact Hspeed|]. split.
  - rewrite Hspeed. cbn [JSON_value].
    destruct (jsdiv _ _); eauto.
  - intros Hzero. rewrite Hspeed, Hzero. split.
    + f_equal. apply speed_zero_time.
    + apply speed_zero_time_null.
Qed.

(** C3, on a PPM file of 2,000,000 bytes compressed in 500 ms: the speed
    is 4,000,000 bytes per second. *)
Lemma C3_witness :
  let w := example_step (ok_call 500) (ok_call 500) (ok_call 500) "1000" in
  ∃ report r,
    (benchmark example_rt false "/app" (example_env w w w w)
       [example_file] sys0).1 = Ret report
    ∧ report !! 0%nat = Some r
    ∧ prop r "cTime0.4" = VNum (of_Z 500)
    ∧ prop r "cSpeed0.4" = VNum (of_Z 4000000).
Proof.
  intros w.
  destruct (C3_recorded_speed example_rt false "/app"
              (example_env w w w w) [example_file] sys0 0 example_file 2000000)
    as (report & r & Hrun & Hr & _ & Hkeys).
  - apply example_env_clean; apply example_step_clean; apply ok_call_returns.
  - apply example_file_alone.
  - reflexivity.
  - reflexivity.
  - exists report, r. rewrite Hrun. split; [reflexivity|]. split; [exact Hr|].
    destruct (Hkeys C04 "cTime0.4" "cSpeed0.4") as (Htime & Hspeed & _).
    + apply list_elem_of_here.
    + split; [exact Htime|]. rewrite Hspeed. f_equal. exact speed_example.
Defined.

(** C3 as stated fails: with a failed compress call the recorded time is
    -1, which is not above 0, and the recorded speed is the finite number
    -2,000,000,000, which the report prints as a number, not as null. *)
Lemma C3_counterexample :
  let w := example_step (ok_call 500) (failed_call 500) (ok_call 500) "1000" in
  ∃ report r,
    (benchmark example_rt false "/app" (example_env w w w w)
       [example_file] sys0).1 = Ret report
    ∧ report !! 0%nat = Some r
    ∧ prop r "cTime0.4" = VNum (of_Z (-1))
    ∧ prop r "cSpeed0.4" = VNum (of_Z (-2000000000))
    ∧ JSON_value (prop r "cSpeed0.4") = Some (JNumber (Qc_of_Z (-2000000000)))
    ∧ JSON_value (prop r "cSpeed0.4") ≠ Some JNull.
Proof.
  intros w.
  assert (Hw : clean_step w) by (unfold w; auto with example).
  destruct (clean_run_record example_rt false "/app" (example_env w w w w)
              [example_file] sys0 0 example_file)
    as (report & Hrun & _ & Hr); [auto with example..|reflexivity|].
  exists report, (final_record example_rt false (example_env w w w w) 0
                    example_file).
  rewrite Hrun. split; [done|]. split; [done|].
  rewrite final_cTime04, final_cSpeed04, min_time_recorded.
  split; [done|].
  assert (Htime : recorded_ms (bench (example_env w w w w) C04 0) = (-1)%Z)
    by reflexivity.
  assert (Hsize : prop example_file "ppmSize" = VNum (of_Z 2000000))
    by reflexivity.
  rewrite Htime, Hsize, speed_formula, speed_sentinel.
  split; [reflexivity|]. split; [reflexivity|].
  unfold of_Z. cbn [JSON_value]. intros H. inversion H.
Qed.

(* ================================================================== *)
(** * The differences between the variants *)
(* ================================================================== *)

(** C4. On a run whose commands all come back, every difference recorded
    for a file is the value of Lea 0.5 minus the value of Lea 0.4: for the
    compress time, the ratio to the original size, the decompress time and
    the round-trip time. *)
Theorem C4_differences_are_B_minus_A rt isWindows dirname e allFiles s
    j file :
  clean_env e (length allFiles) →
  distinct_shas allFiles →
  allFiles !! j = Some file →
  ∃ report r ratioA ratioB,
    let tA := recorded_ms (bench e C04 j) in
    let tB := recorded_ms (bench e C05 j) in
    let dA := recorded_ms (bench e D04 j) in
    let dB := recorded_ms (bench e D05 j) in
    benchmark rt isWindows dirname e allFiles s
      = (Ret report,
         add_events s (benchmark_events rt isWindows dirname e allFiles))
    ∧ report !! j = Some r
    ∧ prop r "cTime0.4" = VNum (of_Z tA)
    ∧ prop r "cTime0.5" = VNum (of_Z tB)
    ∧ prop r "cTimeDiff" = VNum (of_Z (tB - tA))
    ∧ prop r "cRatio0.4" = VNum ratioA
    ∧ prop r "cRatio0.5" = VNum ratioB
    ∧ prop r "cRatioDiff" = VNum (jssub ratioB ratioA)
    ∧ prop r "dTime0.4" = VNum (of_Z dA)
    ∧ prop r "dTime0.5" = VNum (of_Z dB)
    ∧ prop r "dTimeDiff" = VNum (of_Z (dB - dA))
    ∧ prop r "roundTrip0.4" = VNum (of_Z (tA + dA))
    ∧ prop r "roundTrip0.5" = VNum (of_Z (tB + dB))
    ∧ prop r "roundTripDiff" = VNum (of_Z ((tB + dB) - (tA + dA))).
Proof.
  intros Hclean Hdistinct Hj.
  destruct (clean_run_record rt isWindows dirname e allFiles s j file
              Hclean Hdistinct Hj) as (report & Hrun & _ & Hr).
  exists report, (final_record rt isWindows e j file).
  exists (percent rt (size_value rt isWindows (bench e C04 j))
            (prop file "originalSize")),
         (percent rt (size_value rt isWindows (bench e C05 j))
            (prop file "originalSize")).
  cbv zeta.
  rewrite final_cTime04, final_cTime05, final_cTimeDiff, final_cRatio04,
    final_cRatio05, final_cRatioDiff, final_dTime04, final_dTime05,
    final_dTimeDiff, final_roundTrip04, final_roundTrip05,
    final_roundTripDiff.
  rewrite !min_time_recorded, !jsadd_of_Z, !jssub_of_Z.
  by repeat split.
Qed.

(** C4, on compress times of 100 ms for Lea 0.4 and 150 ms for Lea 0.5:
    the recorded difference is 50. *)
Lemma C4_witness :
  let a := example_step (ok_call 100) (ok_call 100) (ok_call 100) "1000" in
  let b := example_step (ok_call 150) (ok_call 150) (ok_call 150) "1000" in
  ∃ report r,
    (benchmark example_rt false "/app" (example_env a b a b)
       [example_file] sys0).1 = Ret report
    ∧ report !! 0%nat = Some r
    ∧ prop r "cTime0.4" = VNum (of_Z 100)
    ∧ prop r "cTime0.5" = VNum (of_Z 150)
    ∧ prop r "cTimeDiff" = VNum (of_Z 50).
Proof.
  intros a b.
  destruct (C4_differences_are_B_minus_A example_rt false "/app"
              (example_env a b a b) [example_file] sys0 0 example_file)
    as (report & r & ratioA & ratioB & Hrun & Hr & HA & HB & Hdiff & _).
  - apply example_env_clean; apply example_step_clean; apply ok_call_returns.
  - apply example_file_alone.
  - reflexivity.
  - exists report, r. rewrite Hrun. split; [reflexivity|]. split; [exact Hr|].
    split; [exact HA|]. split; [exact HB|]. exact Hdiff.
Defined.

(* ================================================================== *)
(** * Commands that do not come back *)
(* ================================================================== *)

(** C9 (amended). [runSync] hands [execSync] an encoding and no timeout: a
    command that exits is waited for however long it runs, and is timed, a
    non-zero exit giving the time -1; a command that never exits blocks
    [runSync] for ever. *)
Theorem C9_runSync_has_no_timeout comand inv s :
  timeout runSync_options = None
  ∧ match proc inv with
    | Exits true elapsed out =>
        (runSync comand inv s).1
        = Ret (of_Z (clock_after inv - clock_before inv))
    | Exits false elapsed out => (runSync comand inv s).1 = Ret (of_Z (-1))
    | NeverExits => (runSync comand inv s).1 = Diverge
    end.
Proof.
  split; [reflexivity|].
  destruct (proc inv) as [[] elapsed out|] eqn:Hproc.
  - rewrite runSync_returns by (by rewrite Hproc).
    unfold time_ms. by rewrite Hproc.
  - rewrite runSync_returns by (by rewrite Hproc).
    unfold time_ms. by rewrite Hproc.
  - by rewrite runSync_blocks.
Qed.

(** C9 as stated fails: no timeout is set, and a compressor that never
    exits is not turned into a failure: the call does not return. *)
Lemma C9_counterexample :
  let hung := {| proc := NeverExits; clock_before := 0; clock_after := 0 |} in
  timeout runSync_options ≠ Some 60000%Z
  ∧ (runSync "clea.exe in.ppm out.lea" hung sys0).1 = Diverge
  ∧ (runSync "clea.exe in.ppm out.lea" hung sys0).1 ≠ Ret (of_Z (-1)).
Proof. repeat split; discriminate. Qed.

(** One blocked call blocks the whole pass. *)
Lemma forEach_blocked rt isWindows dirname w file rest report s :
  proc (run (w 0%nat) 0) = NeverExits →
  (forEach_async (compress04 rt isWindows dirname) w 0 (file :: rest)
     report s).1 = Diverge.
Proof.
  intros Hhung. simpl.
  erewrite run_bind_diverge; [done|].
  unfold try_catch. unfold compress04. cbv zeta.
  erewrite run_bind_diverge; [done|].
  unfold three_times. simpl.
  apply run_bind_diverge. by apply runSync_blocks.
Qed.

(* ================================================================== *)
(** * The dependency probes *)
(* ================================================================== *)

Section Probes.
Variable rt : builtins.
Variable sha256 : string → string.
Variable isWindows : bool.
Variable dirname : string.

Let program := program rt sha256 isWindows dirname.

(** A failing probe of GraphicsMagick throws out of the module body. *)
Lemma program_without_gm e found s elapsed out :
  gm_probe e = Exits false elapsed out →
  program e found s
  = (Throw (ExecError (gmBin isWindows +:+ " version")),
     add_events s [EvExec (gmBin isWindows +:+ " version")]).
Proof.
  intros Hgm. subst program. unfold Index.program, probe_options.
  unfold mbind at 1, M_bind at 1, bind at 1.
  unfold mbind at 1, M_bind at 1, bind at 1.
  by rewrite execSync_no_timeout, Hgm.
Qed.

(** Away from Windows, so does a failing probe of wine. *)
Lemma program_without_wine e found s elapsed out elapsed' out' :
  isWindows = false →
  gm_probe e = Exits true elapsed out →
  wine_probe e = Exits false elapsed' out' →
  program e found s
  = (Throw (ExecError "wine --version"),
     add_events s [EvExec (gmBin isWindows +:+ " version");
                   EvExec "wine --version"]).
Proof.
  intros Hwin Hgm Hwine. subst program.
  unfold Index.program, probe_options. rewrite Hwin.
  unfold mbind at 1, M_bind at 1, bind at 1.
  unfold mbind at 1, M_bind at 1, bind at 1.
  rewrite execSync_no_timeout, Hgm. simpl.
  unfold mbind at 1, M_bind at 1, bind at 1.
  unfold mbind at 1, M_bind at 1, bind at 1.
  rewrite execSync_no_timeout, Hwine. by rewrite add_events_app.
Qed.
End Probes.

(** C8, on the code: when GraphicsMagick is missing, or wine away from
    Windows, the probe itself throws, nothing catches it, and the program
    stops with the exit code 1 of an uncaught exception, not 2. Only the
    probes have run: no file is touched. *)
Theorem C8_missing_dependency_exits_with_1 rt sha256 isWindows dirname e
    found s :
  (∃ elapsed out, gm_probe e = Exits false elapsed out)
  ∨ (isWindows = false
     ∧ (∃ elapsed out, gm_probe e = Exits true elapsed out)
     ∧ (∃ elapsed out, wine_probe e = Exits false elapsed out)) →
  let result := program rt sha256 isWindows dirname e found s in
  exit_code result.1 = Some 1%Z
  ∧ exit_code result.1 ≠ Some 2%Z
  ∧ fs result.2 = fs s
  ∧ ∃ probes, trace result.2 = trace s ++ (EvExec <$> probes)
              ∧ probes ⊆ [gmBin isWindows +:+ " version"; "wine --version"].
Proof.
  intros [(elapsed & out & Hgm)|(Hwin & (el & out & Hgm) & (el' & out' & Hwine))].
  - rewrite (program_without_gm _ _ _ _ _ _ _ _ _ Hgm). simpl.
    repeat split; [done|].
    exists [gmBin isWindows +:+ " version"]. split; [done|].
    intros x Hx. apply list_elem_of_singleton in Hx as ->.
    apply list_elem_of_here.
  - rewrite (program_without_wine _ _ _ _ _ _ _ _ _ _ _ Hwin Hgm Hwine). simpl.
    repeat split; [done|].
    exists [gmBin isWindows +:+ " version"; "wine --version"]. by split.
Qed.

(** C8 away from Windows, with GraphicsMagick missing. *)
Lemma C8_witness :
  let e := {| gm_probe := Exits false 1 "sh: gm: not found";
              wine_probe := Exits true 1 "wine-8.0";
              bench := λ _ _, example_step (ok_call 1) (ok_call 1) (ok_call 1)
                                "1000" |} in
  exit_code (program example_rt (λ bytes, bytes) false "/app" e
               ["/img/a.png"] sys0).1 = Some 1%Z.
Proof.
  intros e.
  destruct (C8_missing_dependency_exits_with_1 example_rt (λ bytes, bytes)
              false "/app" e ["/img/a.png"] sys0) as (Hcode & _).
  - left. exists 1%Z, "sh: gm: not found". reflexivity.
  - exact Hcode.
Defined.

(** A dropped promise throws nothing. *)
Lemma dropped_promise {A} (m : M A) (a : A) s e :
  (try_catch m (λ _, ret a) s).1 ≠ Throw e.
Proof. unfold try_catch, ret. by destruct (m s) as [[?|?|] ?]. Qed.

(** The two [process.exit(2)] of the module body cannot be reached. *)
Lemma program_never_exits_2 rt sha256 isWindows dirname e found s :
  exit_code (program rt sha256 isWindows dirname e found s).1 ≠ Some 2%Z.
Proof.
  assert (Hdrop : ∀ {A} (m : M A) (a : A) s,
            exit_code (try_catch (_ ← m; ret tt) (λ _, ret tt) s).1
            ≠ Some 2%Z).
  { intros A m a s0.
    pose proof (dropped_promise (_ ← m; ret tt) tt s0) as Hno.
    destruct (try_catch _ _ s0) as [[?|err|] ?]; simpl in *; try done.
    by destruct (Hno err). }
  unfold program, probe_options.
  unfold mbind at 1, M_bind at 1, bind at 1.
  unfold mbind at 1, M_bind at 1, bind at 1.
  rewrite execSync_no_timeout.
  destruct (gm_probe e) as [[] ? ?|]; simpl; try done.
  unfold mbind at 1, M_bind at 1, bind at 1.
  destruct isWindows; simpl.
  - apply (Hdrop _ _ []).
  - unfold mbind at 1, M_bind at 1, bind at 1.
    rewrite execSync_no_timeout.
    destruct (wine_probe e) as [[] ? ?|]; simpl; try done.
    apply (Hdrop _ _ []).
Qed.

(* ================================================================== *)
(** * The keys of the records *)
(* ================================================================== *)

Lemma list_to_set_reverse (l : list string) :
  list_to_set (reverse l) =@{gset string} list_to_set l.
Proof.
  apply set_eq. intros k. by rewrite !elem_of_list_to_set, elem_of_reverse.
Qed.

Lemma all_defined_insert k v (o : object) :
  v ≠ VUndef → all_defined o → all_defined (<[k := v]> o).
Proof. intros Hv Ho. by apply map_Forall_insert_2. Qed.

Lemma all_defined_delete k (o : object) :
  all_defined o → all_defined (delete k o).
Proof. intros Ho. by apply map_Forall_delete. Qed.

Lemma js_plus_defined rt a b : js_plus rt a b ≠ VUndef.
Proof. by destruct a, b. Qed.

Lemma measured_defined rt isWindows out : measured rt isWindows out ≠ VUndef.
Proof. unfold measured. by destruct isWindows. Qed.

(** [JSON.stringify] keeps the keys of an object without [undefined]. *)
Lemma JSON_object_dom (o : object) :
  all_defined o → dom (JSON_object o) = dom o.
Proof.
  intros Ho. apply set_eq. intros k. rewrite !elem_of_dom.
  unfold JSON_object. rewrite lookup_omap.
  destruct (o !! k) as [v|] eqn:Hk; simpl.
  - pose proof (Ho k v Hk) as Hv. destruct v as [|[]|]; simpl; try done;
      split; eauto.
  - split; intros [? ?]; done.
Qed.

(** It never adds one. *)
Lemma JSON_object_lookup_None (o : object) k :
  o !! k = None → JSON_object o !! k = None.
Proof. intros Hk. unfold JSON_object. by rewrite lookup_omap, Hk. Qed.

Lemma JSON_object_lookup_num (o : object) k q :
  o !! k = Some (VNum (Fin q)) → JSON_object o !! k = Some (JNumber q).
Proof. intros Hk. unfold JSON_object. by rewrite lookup_omap, Hk. Qed.

Lemma file_object_defined name size sha ppmFile ppmSize ppmsha :
  all_defined (file_object name size sha ppmFile ppmSize ppmsha).
Proof.
  unfold file_object. repeat (apply all_defined_insert; [done|]).
  apply map_Forall_empty.
Qed.

Lemma dom_build l (base : object) :
  dom (build l base) = list_to_set l.*1 ∪ dom base.
Proof.
  induction l as [|[k v] l IH]; simpl.
  - by rewrite union_empty_l_L.
  - rewrite dom_insert_L, IH. by rewrite union_assoc_L.
Qed.

Lemma build_defined l (base : object) :
  Forall (λ kv, kv.2 ≠ VUndef) l → all_defined base →
  all_defined (build l base).
Proof.
  induction 1 as [|[k v] l Hv _ IH]; intros Hbase; simpl; [done|].
  apply all_defined_insert; [done|]. by apply IH.
Qed.

Lemma prop_build l (base : object) k :
  prop (build l base) k = from_option id (prop base k) (named k l).
Proof.
  unfold named. induction l as [|[k' v] l IH]; simpl; [done|].
  case_bool_decide as Hk.
  - subst k'. by rewrite prop_insert_eq.
  - by rewrite prop_insert_ne.
Qed.

(** Two lists that hold the same strings give the same set. *)
Lemma list_to_set_same (l1 l2 : list string) :
  forallb (λ x, bool_decide (x ∈ l2)) l1 = true →
  forallb (λ x, bool_decide (x ∈ l1)) l2 = true →
  list_to_set l1 =@{gset string} list_to_set l2.
Proof.
  intros H1 H2. apply set_eq. intros k. rewrite !elem_of_list_to_set.
  rewrite forallb_forall in H1, H2. split; intros Hk.
  - apply list_elem_of_In, H1, bool_decide_eq_true in Hk. done.
  - apply list_elem_of_In, H2, bool_decide_eq_true in Hk. done.
Qed.

Lemma list_to_set_remove (l : list string) k :
  list_to_set l ∖ {[k]} =@{gset string}
  list_to_set (filter (λ x, x ≠ k) l).
Proof.
  apply set_eq. intros x.
  rewrite elem_of_difference, !elem_of_list_to_set, list_elem_of_filter,
    elem_of_singleton.
  tauto.
Qed.

Lemma file_object_build name size sha ppmFile ppmSize ppmsha :
  file_object name size sha ppmFile ppmSize ppmsha
  = build [("ppmsha256", VStr ppmsha); ("ppmSize", VNum (of_Z ppmSize));
           ("ppmFile", VStr ppmFile); ("originalsha256", VStr sha);
           ("originalSize", VNum (of_Z size)); ("filename", VStr name)] ∅.
Proof. reflexivity. Qed.

Lemma file_object_dom name size sha ppmFile ppmSize ppmsha :
  dom (file_object name size sha ppmFile ppmSize ppmsha)
  = list_to_set ["ppmsha256"; "ppmSize"; "ppmFile"; "originalsha256";
                 "originalSize"; "filename"].
Proof.
  rewrite file_object_build, dom_build.
  by rewrite dom_empty_L, union_empty_r_L.
Qed.

Section Keys.
Variable rt : builtins.
Variable isWindows : bool.

Lemma record04_dom file minTime size :
  dom (record04 rt file minTime size)
  = list_to_set ["cRatioPPM0.4"; "cRatio0.4"; "cSize0.4"; "cSpeed0.4";
                 "cTime0.4"] ∪ dom file.
Proof.
  change (record04 rt file minTime size)
    with (build [("cRatioPPM0.4", VNum (percent rt size (prop file "ppmSize")));
                 ("cRatio0.4", VNum (percent rt size (prop file "originalSize")));
                 ("cSize0.4", size);
                 ("cSpeed0.4", VNum (speed rt (prop file "ppmSize") minTime));
                 ("cTime0.4", VNum minTime)] file).
  by rewrite dom_build.
Qed.

Lemma record05_dom file cur minTime size cTime04 cRatio04 :
  dom (record05 rt file cur minTime size cTime04 cRatio04)
  = list_to_set ["cRatioDiff"; "cTimeDiff"; "cRatioPPM0.5"; "cRatio0.5";
                 "cSize0.5"; "cSpeed0.5"; "cTime0.5"] ∪ dom cur.
Proof.
  change (record05 rt file cur minTime size cTime04 cRatio04)
    with (build
            [("cRatioDiff",
              VNum (js_minus rt
                      (VNum (percent rt size (prop file "originalSize")))
                      cRatio04));
             ("cTimeDiff", VNum (js_minus rt (VNum minTime) cTime04));
             ("cRatioPPM0.5", VNum (percent rt size (prop file "ppmSize")));
             ("cRatio0.5", VNum (percent rt size (prop file "originalSize")));
             ("cSize0.5", size);
             ("cSpeed0.5", VNum (speed rt (prop file "ppmSize") minTime));
             ("cTime0.5", VNum minTime)] cur).
  by rewrite dom_build.
Qed.

Lemma restored04_dom cur minTime size cTime04 :
  dom (restored04 rt cur minTime size cTime04)
  = list_to_set ["roundTrip0.4"; "dSpeed0.4"; "dTime0.4"] ∪ dom cur.
Proof.
  change (restored04 rt cur minTime size cTime04)
    with (build [("roundTrip0.4", js_plus rt cTime04 (VNum minTime));
                 ("dSpeed0.4", VNum (speed rt size minTime));
                 ("dTime0.4", VNum minTime)] cur).
  by rewrite dom_build.
Qed.

Lemma restored05_dom cur minTime size cTime05 dTime04 roundTrip04 :
  dom (restored05 rt cur minTime size cTime05 dTime04 roundTrip04)
  = (list_to_set ["roundTripDiff"; "roundTrip0.5"; "dTimeDiff";
                  "dSpeed0.5"; "dTime0.5"] ∪ dom cur) ∖ {["ppmFile"]}.
Proof.
  unfold restored05. rewrite dom_delete_L. f_equal.
  change (dom (build
            [("roundTripDiff",
              VNum (js_minus rt (js_plus rt cTime05 (VNum minTime))
                      roundTrip04));
             ("roundTrip0.5", js_plus rt cTime05 (VNum minTime));
             ("dTimeDiff", VNum (js_minus rt (VNum minTime) dTime04));
             ("dSpeed0.5", VNum (speed rt size minTime));
             ("dTime0.5", VNum minTime)] cur)
          = list_to_set ["roundTripDiff"; "roundTrip0.5"; "dTimeDiff";
                         "dSpeed0.5"; "dTime0.5"] ∪ dom cur).
  by rewrite dom_build.
Qed.

Variable e : env.
Variable j : nat.

Lemma final_record_defined file :
  all_defined file → all_defined (final_record rt isWindows e j file).
Proof.
  intros Hfile. unfold_final.
  apply all_defined_delete.
  repeat (apply all_defined_insert;
          [first [done | apply js_plus_defined | apply measured_defined]|]).
  done.
Qed.

Lemma final_record_dom file :
  is_file file → dom (final_record rt isWindows e j file) = report_keys.
Proof.
  intros (name & size & sha & ppmFile & ppmSize & ppmsha & ->).
  unfold final_record, after_d05, after_d04, after05, after04.
  rewrite restored05_dom, restored04_dom, record05_dom, record04_dom,
    file_object_dom.
  rewrite <- !list_to_set_app_L, list_to_set_remove.
  unfold report_keys. by apply list_to_set_same.
Qed.
End Keys.

Lemma prop_Some (o : object) k n : prop o k = VNum n → o !! k = Some (VNum n).
Proof. unfold prop. destruct (o !! k); simpl; congruence. Qed.

Lemma is_file_defined file : is_file file → all_defined file.
Proof.
  intros (name & size & sha & ppmFile & ppmSize & ppmsha & ->).
  apply file_object_defined.
Qed.

Lemma not_report_key k :
  bool_decide (k ∈ report_key_list) = false → k ∉ report_keys.
Proof.
  intros Hk. unfold report_keys. rewrite elem_of_list_to_set.
  by apply bool_decide_eq_false in Hk.
Qed.

Section Persisted.
Variable rt : builtins.
Variable isWindows : bool.
Variable dirname : string.

(** The persisted form of the records of a clean run. *)
Lemma persisted_record e allFiles o :
  Forall is_file allFiles →
  o ∈ JSON_stringify (final_report rt isWindows e allFiles) →
  ∃ j file, allFiles !! j = Some file
    ∧ o = JSON_object (final_record rt isWindows e j file)
    ∧ dom o = report_keys.
Proof.
  intros Hfiles Ho. unfold JSON_stringify in Ho.
  apply list_elem_of_fmap in Ho as (r & -> & Hr).
  apply final_report_elem in Hr as (j & file & Hj & ->).
  exists j, file. split; [done|]. split; [done|].
  assert (Hfile : is_file file).
  { rewrite list.Forall_forall in Hfiles. apply Hfiles.
    by eapply list_elem_of_lookup_2. }
  rewrite JSON_object_dom.
  - by apply final_record_dom.
  - by apply final_record_defined, is_file_defined.
Qed.

Lemma persisted_lookup e allFiles j file :
  allFiles !! j = Some file →
  JSON_stringify (final_report rt isWindows e allFiles) !! j
  = Some (JSON_object (final_record rt isWindows e j file)).
Proof.
  intros Hj. unfold JSON_stringify.
  by rewrite list_lookup_fmap, (final_report_lookup _ _ _ _ _ _ Hj).
Qed.

(** The last event of a clean run writes the report. *)
Lemma benchmark_events_last e allFiles :
  list.last (benchmark_events rt isWindows dirname e allFiles)
  = Some (EvWriteFile (join_strings [dirname; "report.jsonc"])
            (JSON_stringify (final_report rt isWindows e allFiles))).
Proof.
  unfold benchmark_events. by rewrite !app_assoc, last_snoc.
Qed.

(** The passes hash no file. *)
Lemma run_events_no_hash comand inv path :
  EvHash path ∉ run_events comand inv.
Proof.
  unfold run_events. intros H.
  destruct (proc inv) as [[] ? ?|];
    repeat (apply elem_of_cons in H as [H|H]; [discriminate|]);
    by apply elem_of_nil in H.
Qed.

Lemma events_from_no_hash p w files : ∀ j path,
  EvHash path ∉ events_from rt isWindows dirname p w j files.
Proof.
  induction files as [|file rest IH]; intros j path; simpl.
  - apply not_elem_of_nil.
  - rewrite elem_of_app. intros [Hin|Hin]; [|by eapply IH].
    unfold pass_events, step_events in Hin.
    rewrite !elem_of_app in Hin.
    destruct Hin as [Hin|[Hin|[Hin|Hin]]];
      try (by eapply run_events_no_hash).
    apply list_elem_of_singleton in Hin. discriminate.
Qed.

Lemma benchmark_events_no_hash e allFiles path :
  EvHash path ∉ benchmark_events rt isWindows dirname e allFiles.
Proof.
  unfold benchmark_events. rewrite !elem_of_app.
  intros [H|[H|[H|[H|H]]]];
    try (by eapply events_from_no_hash).
  apply list_elem_of_singleton in H. discriminate.
Qed.
End Persisted.

Lemma example_file_is_file : Forall is_file [example_file].
Proof. constructor; [|constructor]. unfold is_file, example_file. eauto 10. Qed.

(** C2, on the code: no record of the report has an [isIdentical] key, and
    the passes hash no file, restored or not: the comparison of the
    restored file with the PPM file is never made. *)
Theorem C2_isIdentical_is_never_recorded rt isWindows dirname e allFiles s :
  clean_env e (length allFiles) →
  distinct_shas allFiles →
  Forall is_file allFiles →
  ∃ report events,
    benchmark rt isWindows dirname e allFiles s
      = (Ret report, add_events s events)
    ∧ length report = length allFiles
    ∧ (∀ r, r ∈ report → r !! "isIdentical" = None)
    ∧ (∀ o, o ∈ JSON_stringify report → o !! "isIdentical" = None)
    ∧ ∀ path, EvHash path ∉ events.
Proof.
  intros Hclean Hdistinct Hfiles.
  exists (final_report rt isWindows e allFiles),
    (benchmark_events rt isWindows dirname e allFiles).
  split; [by apply benchmark_clean|].
  split; [apply final_report_length|].
  assert (Hnot : "isIdentical" ∉ report_keys) by by apply not_report_key.
  split; [|split].
  - intros r Hr. apply not_elem_of_dom.
    apply final_report_elem in Hr as (j & file & Hj & ->).
    rewrite final_record_dom; [done|].
    rewrite list.Forall_forall in Hfiles. apply Hfiles.
    by eapply list_elem_of_lookup_2.
  - intros o Ho. apply not_elem_of_dom.
    destruct (persisted_record rt isWindows e allFiles o Hfiles Ho)
      as (j & file & _ & _ & Hdom).
    by rewrite Hdom.
  - intros path. apply benchmark_events_no_hash.
Qed.

(** C2, on a run over one file all of whose commands succeed. *)
Lemma C2_witness :
  let good := example_step (ok_call 100) (ok_call 100) (ok_call 100)
                "1000" in
  ∃ report r,
    (benchmark example_rt false "/app" (example_env good good good good)
       [example_file] sys0).1 = Ret report
    ∧ report = [r]
    ∧ r !! "isIdentical" = None.
Proof.
  intros good.
  destruct (C2_isIdentical_is_never_recorded example_rt false "/app"
              (example_env good good good good) [example_file] sys0)
    as (report & events & Hrun & Hlen & Hnone & _).
  - apply example_env_clean; apply example_step_clean; apply ok_call_returns.
  - apply example_file_alone.
  - apply example_file_is_file.
  - destruct report as [|r [|r' report]]; try discriminate Hlen.
    exists [r], r. rewrite Hrun. split; [reflexivity|].
    split; [reflexivity|]. apply Hnone, list_elem_of_here.
Defined.


(* ================================================================== *)
(** * normalizeToPPM *)
(* ================================================================== *)

Lemma join_two a b : join [VStr a; VStr b] = ret (join_strings [a; b]).
Proof. reflexivity. Qed.

(** C7, on the code: for a file that already is a PPM file the property
    [ppm] of its name is read, which is [undefined], and [path.join] throws
    a TypeError: nothing is copied, the converter is not called for it,
    and the files after it are not reached. *)
Theorem C7_ppm_input_throws dirname file rest name s :
  prop file "filename" = VStr name →
  toLowerCase (extname name) = ".ppm" →
  Utils.normalizeToPPM dirname (file :: rest) s
  = (Throw (TypeError "The path argument must be of type string"), s).
Proof.
  intros Hname Hext. unfold Utils.normalizeToPPM.
  apply run_bind_throw. cbn [for_each]. apply run_bind_throw.
  rewrite Hname, join_two.
  erewrite run_bind_ret by reflexivity. cbn [extname_of].
  erewrite run_bind_ret by reflexivity.
  rewrite Hext, bool_decide_true by done. cbn [Utils.member].
  erewrite run_bind_ret by reflexivity.
  unfold string_prop. rewrite bool_decide_false by done.
  by apply run_bind_throw.
Qed.

(** C7 on a file named [a.ppm]. *)
Lemma C7_witness :
  let file : object := <["filename" := VStr "a.ppm"]> ∅ in
  let s := {| fs := <["/app/img/a.ppm" := "P6 1 1 255 abc"]> ∅; trace := [] |} in
  Utils.normalizeToPPM "/app" [file] s
  = (Throw (TypeError "The path argument must be of type string"), s).
Proof.
  intros file s.
  apply (C7_ppm_input_throws "/app" file [] "a.ppm" s); reflexivity.
Defined.

(* ================================================================== *)
(** * cleanList *)
(* ================================================================== *)

Lemma strict_eq_fin v q : strict_eq v (VNum (Fin q)) = bool_decide (v = VNum (Fin q)).
Proof. by destruct v as [|[]|]. Qed.

Lemma strict_eq_str_r v h : strict_eq v (VStr h) = bool_decide (v = VStr h).
Proof. by destruct v as [|[]|]. Qed.

Lemma of_nat_zero n : of_nat n = of_Z 0 ↔ n = 0%nat.
Proof.
  unfold of_nat. split.
  - intros H%of_Z_inj. lia.
  - by intros ->.
Qed.

Lemma same_key_spec n sha r :
  Utils.same_key (of_nat n) sha r
  = bool_decide (entry_key r = (VNum (of_nat n), VStr sha)).
Proof.
  unfold Utils.same_key, entry_key, of_nat, of_Z.
  rewrite strict_eq_fin, strict_eq_str_r.
  apply eq_true_iff_eq. rewrite andb_true_iff, !bool_decide_eq_true.
  split; [by intros [-> ->]|]. by intros [= -> ->].
Qed.

Lemma find_same {A} (f g : A → bool) (l : list A) :
  (∀ x, f x = g x) → List.find f l = List.find g l.
Proof.
  intros Hfg. induction l as [|x l IH]; simpl; [done|].
  by rewrite Hfg, IH.
Qed.

Lemma fs_add_events s evs : fs (add_events s evs) = fs s.
Proof. reflexivity. Qed.

Section CleanList.
Variable sha256 : string → string.

(** [deduper] on a file that is there. *)
Lemma deduper_run acc curr bytes s :
  fs s !! curr = Some bytes →
  Utils.deduper sha256 acc curr s
  = (Ret (dedup_step sha256 acc curr bytes), add_events s [EvHash curr]).
Proof.
  intros Hcurr. unfold Utils.deduper, Utils.statSync_size, Utils.sha256File.
  assert (Hread : ∀ s', fs s' = fs s → read_file curr s' = (Ret bytes, s')).
  { intros s' Hs'. unfold read_file. by rewrite Hs', Hcurr. }
  erewrite run_bind_ret.
  2:{ erewrite run_bind_ret by (by apply Hread). reflexivity. }
  erewrite run_bind_ret.
  2:{ erewrite run_bind_ret by apply emit_run.
      erewrite run_bind_ret by (by apply Hread). reflexivity. }
  unfold dedup_step.
  replace (strict_eq (VNum (of_nat (String.length bytes))) (VNum (of_Z 0)))
    with (bool_decide (bytes = EmptyString)).
  2:{ change (of_Z 0) with (Fin (Qc_of_Z 0)). rewrite strict_eq_fin.
      apply bool_decide_ext. split.
      - by intros ->.
      - intros H.
        pose proof (f_equal (λ v, match v with VNum n => n | _ => NaN end) H)
          as H'. simpl in H'.
        apply (of_nat_zero (String.length bytes)) in H'. by destruct bytes. }
  case_bool_decide; [done|].
  erewrite (find_same _ (λ r, bool_decide (entry_key r = key_of sha256 bytes))).
  2:{ intros r. apply same_key_spec. }
  by destruct (List.find _ acc).
Qed.

(** [cleanList] on candidates that are all there: every candidate is
    hashed, once and in order, and nothing else happens. *)
Lemma reduce_deduper_run cands : ∀ acc s,
  Forall (λ p, is_Some (fs s !! p)) cands →
  reduce (Utils.deduper sha256) cands acc s
  = (Ret (dedup_from sha256 (λ p, fs s !! p) acc cands),
     add_events s (EvHash <$> cands)).
Proof.
  induction cands as [|p rest IH]; intros acc s Hcands; simpl.
  - by rewrite add_events_nil.
  - apply list.Forall_cons in Hcands as [[bytes Hp] Hrest].
    rewrite (run_bind_ret _ _ _ _ _ (deduper_run acc p bytes s Hp)).
    rewrite IH by done. rewrite Hp. by rewrite add_events_app.
Qed.

(** A [cleanList] that returns found every candidate. *)
Lemma reduce_deduper_inv cands : ∀ acc s r s',
  reduce (Utils.deduper sha256) cands acc s = (Ret r, s') →
  Forall (λ p, is_Some (fs s !! p)) cands.
Proof.
  induction cands as [|p rest IH]; intros acc s r s' Hrun; [constructor|].
  simpl in Hrun. apply run_bind_inv in Hrun as (acc' & s1 & Hstep & Hrest).
  destruct (fs s !! p) as [bytes|] eqn:Hp.
  - rewrite (deduper_run acc p bytes s Hp) in Hstep.
    injection Hstep as <- <-.
    constructor; [by rewrite Hp|]. exact (IH _ _ _ _ Hrest).
  - exfalso. unfold Utils.deduper, Utils.statSync_size in Hstep.
    apply run_bind_inv in Hstep as (? & ? & Hsize & _).
    apply run_bind_inv in Hsize as (? & ? & Hread & _).
    unfold read_file in Hread. by rewrite Hp in Hread.
Qed.
End CleanList.

Lemma find_snoc {A} (f : A → bool) (l : list A) x :
  List.find f (l ++ [x])
  = match List.find f l with
    | Some y => Some y
    | None => if f x then Some x else None
    end.
Proof.
  induction l as [|y l IH]; simpl; [done|]. by destruct (f y).
Qed.

Lemma find_app_Some {A} (f : A → bool) (l k : list A) y :
  List.find f l = Some y → List.find f (l ++ k) = Some y.
Proof.
  induction l as [|z l IH]; simpl; [done|]. by destruct (f z).
Qed.

Lemma find_None_all {A} (f : A → bool) (l : list A) :
  List.find f l = None ↔ ∀ x, x ∈ l → f x = false.
Proof.
  induction l as [|y l IH]; simpl.
  - split; [|done]. intros _ x Hx. by apply elem_of_nil in Hx.
  - destruct (f y) eqn:Hy.
    + split; [done|]. intros H. specialize (H y (list_elem_of_here _ _)).
      congruence.
    + rewrite IH. split.
      * intros H x [->|Hx]%elem_of_cons; auto.
      * intros H x Hx. apply H. by apply list_elem_of_further.
Qed.

Lemma filter_none {A} (P : A → Prop) `{∀ x, Decision (P x)} (l : list A) :
  (∀ x, x ∈ l → ¬ P x) → filter P l = [].
Proof.
  induction l as [|y l IH]; intros Hl; [done|].
  rewrite filter_cons_False by (apply Hl, list_elem_of_here).
  apply IH. intros x Hx. apply Hl. by apply list_elem_of_further.
Qed.

(** In a list without two elements of the same image, the elements of one
    image are one element. *)
Lemma filter_unique {A B} `{EqDecision B} (f : A → B) (l : list A) r :
  NoDup (f <$> l) → r ∈ l →
  filter (λ x, f x = f r) l = [r].
Proof.
  induction l as [|y l IH]; intros Hnd Hr; [by apply elem_of_nil in Hr|].
  rewrite fmap_cons in Hnd. apply list.NoDup_cons in Hnd as [Hy Hnd].
  apply elem_of_cons in Hr as [->|Hr].
  - rewrite filter_cons_True by done. f_equal.
    apply filter_none. intros x Hx Heq.
    apply Hy. rewrite <- Heq. by apply list_elem_of_fmap_2.
  - rewrite filter_cons_False; [by apply IH|].
    intros Heq. apply Hy. rewrite Heq. by apply list_elem_of_fmap_2.
Qed.

Lemma entry_key_entry_of sha256 p bytes :
  entry_key (entry_of sha256 p bytes) = key_of sha256 bytes.
Proof. unfold entry_key, entry_of, key_of, Utils.new_entry. by prop_simpl. Qed.

Lemma key_of_nonempty sha256 b b' :
  key_of sha256 b = key_of sha256 b' → b' ≠ EmptyString → b ≠ EmptyString.
Proof.
  unfold key_of. intros Hk Hb' ->.
  pose proof (f_equal (λ k, match k.1 with VNum n => n | _ => NaN end) Hk)
    as Hn. simpl in Hn. symmetry in Hn.
  apply (of_nat_zero (String.length b')) in Hn. by destruct b'.
Qed.

(** Two files of one key give one entry. *)
Lemma entry_of_key sha256 p b b' :
  key_of sha256 b = key_of sha256 b' →
  entry_of sha256 p b = entry_of sha256 p b'.
Proof.
  unfold key_of, entry_of. intros Hk.
  pose proof (f_equal (λ k, match k.1 with VNum n => n | _ => NaN end) Hk)
    as Hn.
  pose proof (f_equal (λ k, match k.2 with VStr h => h | _ => EmptyString end)
                Hk) as Hh.
  simpl in Hn, Hh. by rewrite Hn, Hh.
Qed.

Section Dedup.
Variable sha256 : string → string.
Variable content : string → option string.

Lemma dedup_inv_nil : dedup_inv sha256 content [] [].
Proof.
  split; [constructor|]. split.
  - intros r Hr. by apply elem_of_nil in Hr.
  - intros p bytes Hp. by apply elem_of_nil in Hp.
Qed.

Lemma has_key_true k p :
  has_key sha256 content k p = true
  ↔ ∃ bytes, content p = Some bytes ∧ key_of sha256 bytes = k.
Proof.
  unfold has_key. destruct (content p) as [bytes|].
  - rewrite bool_decide_eq_true. split; [eauto|]. by intros (? & [= <-] & ?).
  - split; [done|]. by intros (? & ? & _).
Qed.

(** One step of [deduper] keeps the invariant. *)
Lemma dedup_step_inv seen acc p bytes :
  dedup_inv sha256 content seen acc →
  content p = Some bytes →
  dedup_inv sha256 content (seen ++ [p]) (dedup_step sha256 acc p bytes).
Proof.
  intros (Hnd & Hfirst & Hall) Hp. unfold dedup_step.
  assert (Hkeep : dedup_inv sha256 content seen acc →
            (bytes ≠ EmptyString →
             ∃ r, r ∈ acc ∧ entry_key r = key_of sha256 bytes) →
            dedup_inv sha256 content (seen ++ [p]) acc).
  { intros _ Hnew. split; [done|]. split.
    - intros r Hr. destruct (Hfirst r Hr) as (q & b & Hq & Hc & Hb & ->).
      exists q, b. split; [by apply find_app_Some|done].
    - intros p' b' [Hp'| ->%list_elem_of_singleton]%elem_of_app Hc Hb.
      + by eapply Hall.
      + rewrite Hp in Hc. injection Hc as <-. by apply Hnew. }
  case_bool_decide as Hempty; [by apply Hkeep|].
  destruct (List.find _ acc) as [r|] eqn:Hfind.
  - apply Hkeep; [done|]. intros _. exists r.
    apply find_some in Hfind as [Hr Hk]. split.
    + by apply list_elem_of_In.
    + by apply bool_decide_eq_true in Hk.
  - assert (Hfresh : ∀ r, r ∈ acc → entry_key r ≠ key_of sha256 bytes).
    { intros r Hr. rewrite find_None_all in Hfind.
      specialize (Hfind r Hr). by apply bool_decide_eq_false in Hfind. }
    split; [|split].
    + rewrite fmap_app. apply list.NoDup_app. split; [done|]. split.
      * intros k Hk Hk'. apply list_elem_of_singleton in Hk'. subst k.
        apply list_elem_of_fmap in Hk as (r & Hkey & Hr).
        rewrite entry_key_entry_of in Hkey. by eapply Hfresh.
      * apply NoDup_singleton.
    + intros r [Hr| ->%list_elem_of_singleton]%elem_of_app.
      * destruct (Hfirst r Hr) as (q & b & Hq & Hc & Hb & ->).
        exists q, b. split; [by apply find_app_Some|done].
      * exists p, bytes. rewrite entry_key_entry_of. split; [|done].
        rewrite find_snoc.
        destruct (List.find _ seen) as [q|] eqn:Hq.
        -- exfalso. apply find_some in Hq as [Hq Hk].
           apply has_key_true in Hk as (b & Hc & Hk).
           destruct (Hall q b) as (r & Hr & Hkey).
           ++ by apply list_elem_of_In.
           ++ done.
           ++ by apply (key_of_nonempty sha256 b bytes).
           ++ apply (Hfresh r Hr). by rewrite Hkey.
        -- replace (has_key sha256 content (key_of sha256 bytes) p)
             with true; [done|].
           symmetry. apply has_key_true. eauto.
    + intros p' b' [Hp'| ->%list_elem_of_singleton]%elem_of_app Hc Hb.
      * destruct (Hall p' b' Hp' Hc Hb) as (r & Hr & Hkey).
        exists r. split; [|done]. apply elem_of_app. by left.
      * rewrite Hp in Hc. injection Hc as <-.
        exists (entry_of sha256 p bytes). split.
        -- apply elem_of_app. right. apply list_elem_of_here.
        -- apply entry_key_entry_of.
Qed.

Lemma dedup_from_inv cands : ∀ seen acc,
  Forall (λ p, is_Some (content p)) cands →
  dedup_inv sha256 content seen acc →
  dedup_inv sha256 content (seen ++ cands)
    (dedup_from sha256 content acc cands).
Proof.
  induction cands as [|p rest IH]; intros seen acc Hcands Hinv; simpl.
  - by rewrite app_nil_r.
  - apply list.Forall_cons in Hcands as [[bytes Hp] Hrest]. rewrite Hp.
    replace (seen ++ p :: rest) with ((seen ++ [p]) ++ rest)
      by (by rewrite <- app_assoc).
    apply IH; [done|]. by apply dedup_step_inv.
Qed.
End Dedup.

Lemma prop_new_entry_filename curr size sha :
  prop (Utils.new_entry curr size sha) "filename" = VStr (basename curr).
Proof. unfold Utils.new_entry. by prop_simpl. Qed.

Lemma prop_new_entry_fullname curr size sha :
  prop (Utils.new_entry curr size sha) "fullname" = VStr curr.
Proof. unfold Utils.new_entry. by prop_simpl. Qed.

Lemma entry_of_dom sha256 p bytes :
  dom (entry_of sha256 p bytes)
  = list_to_set ["fullname"; "filename"; "originalSize"; "originalsha256"].
Proof.
  unfold entry_of, Utils.new_entry. rewrite !dom_insert_L, dom_empty_L.
  simpl. set_solver.
Qed.

(** The four properties of an entry. *)
Lemma entry_of_props sha256 q bytes :
  prop (entry_of sha256 q bytes) "fullname" = VStr q
  ∧ prop (entry_of sha256 q bytes) "filename" = VStr (basename q)
  ∧ prop (entry_of sha256 q bytes) "originalSize"
    = VNum (of_nat (String.length bytes))
  ∧ prop (entry_of sha256 q bytes) "originalsha256" = VStr (sha256 bytes)
  ∧ dom (entry_of sha256 q bytes)
    = list_to_set ["fullname"; "filename"; "originalSize"; "originalsha256"].
Proof.
  split; [apply prop_new_entry_fullname|].
  split; [apply prop_new_entry_filename|].
  split; [unfold entry_of, Utils.new_entry; by prop_simpl|].
  split; [unfold entry_of, Utils.new_entry; by prop_simpl|].
  apply entry_of_dom.
Qed.

(** C5. When the candidates (the files with an image extension) are all
    there, [cleanList] hashes each of them, once and in order; no two of
    its records have the same size and sha256; for every candidate that is
    not empty the records of its size and sha256 are exactly one record,
    that of the first candidate with that size and sha256: its [fullname]
    is the path of that first candidate, its [filename] the base name of
    that path, its [originalSize] and [originalsha256] the size and the
    digest of the bytes, and it has no other property; and every record
    is such a record of a candidate that is not empty, so that a file of
    zero bytes leaves no record. *)
Theorem C5_first_file_of_each_key sha256 files s :
  Forall (λ p, is_Some (fs s !! p)) (candidates files) →
  ∃ recs,
    Utils.cleanList sha256 files s
      = (Ret recs, add_events s (EvHash <$> candidates files))
    ∧ NoDup (entry_key <$> recs)
    ∧ (∀ p bytes,
         p ∈ candidates files → fs s !! p = Some bytes →
         bytes ≠ EmptyString →
         ∃ q r,
           List.find (has_key sha256 (λ p, fs s !! p) (key_of sha256 bytes))
             (candidates files) = Some q
           ∧ filter (λ r, entry_key r = key_of sha256 bytes) recs = [r]
           ∧ r = entry_of sha256 q bytes
           ∧ prop r "fullname" = VStr q
           ∧ prop r "filename" = VStr (basename q)
           ∧ prop r "originalSize" = VNum (of_nat (String.length bytes))
           ∧ prop r "originalsha256" = VStr (sha256 bytes)
           ∧ dom r = list_to_set ["fullname"; "filename"; "originalSize";
                                  "originalsha256"])
    ∧ (∀ r, r ∈ recs →
         ∃ q bytes, q ∈ candidates files ∧ fs s !! q = Some bytes
                    ∧ bytes ≠ EmptyString ∧ r = entry_of sha256 q bytes
                    ∧ prop r "fullname" = VStr q
                    ∧ prop r "filename" = VStr (basename q)
                    ∧ prop r "originalSize"
                      = VNum (of_nat (String.length bytes))
                    ∧ prop r "originalsha256" = VStr (sha256 bytes))
    ∧ (∀ p r, fs s !! p = Some EmptyString → r ∈ recs →
         prop r "fullname" ≠ VStr p).
Proof.
  intros Hthere.
  set (content := λ p, fs s !! p).
  exists (dedup_from sha256 content [] (candidates files)).
  pose proof (dedup_from_inv sha256 content (candidates files) [] []
                Hthere (dedup_inv_nil sha256 content))
    as (Hnd & Hfirst & Hall).
  rewrite app_nil_l in Hfirst, Hall.
  assert (Hentries : ∀ r,
            r ∈ dedup_from sha256 content [] (candidates files) →
            ∃ q bytes, q ∈ candidates files ∧ fs s !! q = Some bytes
                       ∧ bytes ≠ EmptyString ∧ r = entry_of sha256 q bytes).
  { intros r Hr. destruct (Hfirst r Hr) as (q & bytes & Hq & Hc & Hb & ->).
    exists q, bytes. split; [|done].
    apply find_some in Hq as [Hq _]. by apply list_elem_of_In. }
  split; [by apply reduce_deduper_run|]. split; [done|]. split; [|split].
  - intros p bytes Hp Hc Hb.
    destruct (Hall p bytes Hp Hc Hb) as (r & Hr & Hkey).
    destruct (Hfirst r Hr) as (q & b & Hq & Hcq & Hbq & ->).
    rewrite entry_key_entry_of in Hkey, Hq.
    exists q, (entry_of sha256 q bytes).
    split; [by rewrite <- Hkey|]. split.
    { rewrite <- (entry_of_key sha256 q b bytes Hkey).
      rewrite <- Hkey, <- (entry_key_entry_of sha256 q b).
      by apply filter_unique. }
    split; [reflexivity|]. apply entry_of_props.
  - intros r Hr.
    destruct (Hentries r Hr) as (q & bytes & Hq & Hc & Hb & ->).
    exists q, bytes. split; [exact Hq|]. split; [exact Hc|].
    split; [exact Hb|]. split; [reflexivity|].
    destruct (entry_of_props sha256 q bytes) as (? & ? & ? & ? & _). done.
  - intros p r Hp Hr Hname.
    destruct (Hentries r Hr) as (q & bytes & _ & Hc & Hb & ->).
    unfold entry_of, Utils.new_entry in Hname.
    revert Hname. prop_simpl. intros [= ->]. congruence.
Qed.

(** C5 on two images with the same bytes, a third image, a text file and
    an empty image: the record of the bytes [AB] is that of the first
    image, with its path and its base name. *)
Lemma C5_witness :
  let sha256 := λ bytes, "sha:" +:+ bytes in
  let files := ["/img/a.png"; "/img/notes.txt"; "/img/b.PNG"; "/img/c.jpg";
                "/img/empty.png"] in
  let s := {| fs := <["/img/a.png" := "AB"]>
                      (<["/img/notes.txt" := "hello"]>
                         (<["/img/b.PNG" := "AB"]>
                            (<["/img/c.jpg" := "XYZ"]>
                               (<["/img/empty.png" := EmptyString]> ∅))));
              trace := [] |} in
  ∃ recs r,
    (Utils.cleanList sha256 files s).1 = Ret recs
    ∧ filter (λ r, entry_key r = key_of sha256 "AB") recs = [r]
    ∧ prop r "fullname" = VStr "/img/a.png"
    ∧ prop r "filename" = VStr "a.png"
    ∧ prop r "originalSize" = VNum (of_nat 2)
    ∧ prop r "originalsha256" = VStr "sha:AB".
Proof.
  intros sha256 files s.
  destruct (C5_first_file_of_each_key sha256 files s)
    as (recs & Hrun & _ & Hfirst & _).
  - repeat (apply list.Forall_cons; split; [by eexists|]).
    apply list.Forall_nil_2.
  - destruct (Hfirst "/img/b.PNG" "AB")
      as (q & r & Hq & Hrecs & _ & Hfull & Hname & Hsize & Hsha & _).
    + apply list_elem_of_further, list_elem_of_here.
    + reflexivity.
    + discriminate.
    + exists recs, r. rewrite Hrun. split; [reflexivity|].
      split; [exact Hrecs|].
      change (Some "/img/a.png" = Some q) in Hq. injection Hq as <-.
      split; [exact Hfull|]. split; [exact Hname|].
      split; [exact Hsize|exact Hsha].
Defined.

(* ================================================================== *)
(** * getAllFiles *)
(* ================================================================== *)

Lemma ret_inv {A} (a b : A) s s' : ret a s = (Ret b, s') → a = b ∧ s = s'.
Proof. unfold ret. by intros [= -> ->]. Qed.

(** What [l.map(f)] returns, element by element. *)
Lemma map_M_inv {A B} (f : A → M B) (P : A → B → Prop) :
  (∀ x s y s', f x s = (Ret y, s') → P x y) →
  ∀ l s l' s', map_M f l s = (Ret l', s') → Forall2 P l l'.
Proof.
  intros Hf. induction l as [|x l IH]; intros s l' s' Hrun; simpl in Hrun.
  - apply ret_inv in Hrun as [<- _]. constructor.
  - apply run_bind_inv in Hrun as (y & s1 & Hx & Hrun).
    apply run_bind_inv in Hrun as (ys & s2 & Hl & Hrun).
    apply ret_inv in Hrun as [<- _].
    constructor; [by eapply Hf|by eapply IH].
Qed.

Lemma Forall2_fmap_eq {A B} (f : A → B) (l : list A) (l' : list B) :
  Forall2 (λ x y, y = f x) l l' → l' = f <$> l.
Proof. induction 1 as [|x y l l' -> _ IH]; [done|]. by rewrite fmap_cons, IH. Qed.

(** In a list without two elements of the same image, two elements of the
    same image are one element. *)
Lemma NoDup_fmap_same {A B} (f : A → B) (l : list A) x y :
  NoDup (f <$> l) → x ∈ l → y ∈ l → f x = f y → x = y.
Proof.
  induction l as [|z l IH]; intros Hnd Hx Hy Hxy; [by apply elem_of_nil in Hx|].
  rewrite fmap_cons in Hnd. apply list.NoDup_cons in Hnd as [Hz Hnd].
  apply elem_of_cons in Hx as [->|Hx]; apply elem_of_cons in Hy as [->|Hy].
  - done.
  - destruct Hz. rewrite Hxy. by apply list_elem_of_fmap_2.
  - destruct Hz. rewrite <- Hxy. by apply list_elem_of_fmap_2.
  - by apply IH.
Qed.

Lemma Forall2_impl_elem {A B} (P Q : A → B → Prop) (l : list A) (k : list B) :
  Forall2 P l k → (∀ x y, x ∈ l → P x y → Q x y) → Forall2 Q l k.
Proof.
  induction 1 as [|x y l k Hxy _ IH]; intros Himpl; constructor.
  - apply Himpl; [apply list_elem_of_here|done].
  - apply IH. intros x' y' Hx'. apply Himpl. by apply list_elem_of_further.
Qed.

Lemma delete_fullname_entry sha256 q bytes :
  delete "fullname" (entry_of sha256 q bytes)
  = <["originalsha256" := VStr (sha256 bytes)]>
      (<["originalSize" := VNum (of_nat (String.length bytes))]>
         (<["filename" := VStr (basename q)]> ∅)).
Proof.
  unfold entry_of, Utils.new_entry.
  rewrite !delete_insert_ne by key_ne.
  by rewrite delete_insert_eq, delete_empty.
Qed.

Section GetAllFiles.
Variable rt : builtins.
Variable sha256 : string → string.
Variable dirname : string.

(** [toTestbed] returns the entries without their [fullname]. *)
Lemma toTestbed_inv files s files' s' :
  Utils.toTestbed dirname files s = (Ret files', s') →
  files' = delete "fullname" <$> files.
Proof.
  intros Hrun. apply Forall2_fmap_eq.
  revert Hrun. unfold Utils.toTestbed. apply map_M_inv.
  intros image s0 y s1 Himage.
  apply run_bind_inv in Himage as (newFile & s2 & _ & Himage).
  apply run_bind_inv in Himage as (? & s3 & _ & Himage).
  by apply ret_inv in Himage as [<- _].
Qed.

Lemma normalizeToPPM_inv files s files' s' :
  Utils.normalizeToPPM dirname files s = (Ret files', s') → files' = files.
Proof.
  intros Hrun. unfold Utils.normalizeToPPM in Hrun.
  apply run_bind_inv in Hrun as (? & s1 & _ & Hrun).
  by apply ret_inv in Hrun as [<- _].
Qed.

(** [getPPMStatistics] adds three properties to each file. *)
Lemma getPPMStatistics_inv files s files' s' :
  Utils.getPPMStatistics rt sha256 dirname files s = (Ret files', s') →
  Forall2 (λ file out, ∃ ppmFile ppmSize ppmsha,
             out = <["ppmsha256" := VStr ppmsha]>
                     (<["ppmSize" := VNum (of_nat ppmSize)]>
                        (<["ppmFile" := VStr ppmFile]> file)))
    files files'.
Proof.
  unfold Utils.getPPMStatistics. apply map_M_inv.
  intros file s0 y s1 Hfile.
  apply run_bind_inv in Hfile as (ppmFile & s2 & _ & Hfile).
  apply run_bind_inv in Hfile as (size & s3 & Hsize & Hfile).
  apply run_bind_inv in Hfile as (sha & s4 & _ & Hfile).
  apply ret_inv in Hfile as [<- _].
  unfold Utils.statSync_size in Hsize.
  apply run_bind_inv in Hsize as (bytes & s5 & _ & Hsize).
  apply ret_inv in Hsize as [<- _]. eauto.
Qed.

(** What [getAllFiles] returns: for each record of [cleanList], in order,
    a file object with the sha256 of the record and no [fullname]. *)
Lemma getAllFiles_inv found s allFiles s' :
  Utils.getAllFiles rt sha256 dirname found s = (Ret allFiles, s') →
  Forall (λ p, is_Some (fs s !! p)) (candidates found)
  ∧ Forall2 (λ r file, (∃ q bytes, r = entry_of sha256 q bytes)
                       ∧ is_file file ∧ sha_of file = sha_of r)
      (dedup_from sha256 (λ p, fs s !! p) [] (candidates found)) allFiles.
Proof.
  intros Hrun. unfold Utils.getAllFiles in Hrun.
  apply run_bind_inv in Hrun as (recs & s1 & Hclean & Hrun).
  apply run_bind_inv in Hrun as (files2 & s2 & Htest & Hrun).
  apply run_bind_inv in Hrun as (files3 & s3 & Hnorm & Hstat).
  apply toTestbed_inv in Htest as ->.
  apply normalizeToPPM_inv in Hnorm as ->.
  apply getPPMStatistics_inv in Hstat.
  unfold Utils.cleanList in Hclean. fold (candidates found) in Hclean.
  pose proof (reduce_deduper_inv sha256 _ _ _ _ _ Hclean) as Hthere.
  rewrite (reduce_deduper_run sha256 _ _ _ Hthere) in Hclean.
  injection Hclean as <- <-. split; [done|].
  pose proof (dedup_from_inv sha256 (λ p, fs s !! p) (candidates found) [] []
                Hthere (dedup_inv_nil sha256 _)) as (_ & Hfirst & _).
  revert Hstat Hfirst.
  generalize (dedup_from sha256 (λ p, fs s !! p) [] (candidates found)).
  intros recs Hstat Hfirst.
  apply list.Forall2_fmap_l in Hstat.
  eapply Forall2_impl_elem; [exact Hstat|].
  intros r file Hr (ppmFile & ppmSize & ppmsha & ->).
  destruct (Hfirst r Hr) as (q & bytes & _ & _ & _ & ->).
  split; [eauto|]. rewrite delete_fullname_entry. split.
  - exists (basename q), (Z.of_nat (String.length bytes)), (sha256 bytes),
      ppmFile, (Z.of_nat ppmSize), ppmsha. reflexivity.
  - unfold sha_of, entry_of, Utils.new_entry. by prop_simpl.
Qed.

(** Without a collision of digests among the files found, the files that
    [getAllFiles] returns carry distinct sha256 strings. *)
Lemma getAllFiles_distinct found s allFiles s' :
  Utils.getAllFiles rt sha256 dirname found s = (Ret allFiles, s') →
  no_collision sha256 s found →
  Forall is_file allFiles ∧ distinct_shas allFiles.
Proof.
  intros Hrun Hsha.
  apply getAllFiles_inv in Hrun as [Hthere Hfiles].
  pose proof (dedup_from_inv sha256 (λ p, fs s !! p) (candidates found) [] []
                Hthere (dedup_inv_nil sha256 _)) as (Hnd & Hfirst & _).
  rewrite app_nil_l in Hfirst.
  revert Hfiles Hnd Hfirst.
  generalize (dedup_from sha256 (λ p, fs s !! p) [] (candidates found)).
  intros recs Hfiles Hnd Hfirst.
  assert (Hshas : sha_of <$> allFiles = sha_of <$> recs).
  { clear Hnd Hfirst.
    induction Hfiles as [|r file recs allFiles (_ & _ & Hs) _ IH]; [done|].
    rewrite !fmap_cons. by f_equal. }
  split.
  - clear Hshas Hnd Hfirst.
    induction Hfiles as [|r file recs allFiles (_ & Hf & _) _ IH];
      constructor; done.
  - apply distinct_shas_alt. rewrite Hshas. apply distinct_shas_alt. split.
    + apply NoDup_fmap_2_strong; [|by eapply NoDup_fmap_1].
      intros r1 r2 Hr1 Hr2 Heq.
      apply (NoDup_fmap_same entry_key recs); [done..|].
      destruct (Hfirst r1 Hr1) as (q1 & b1 & Hq1 & Hc1 & _ & ->).
      destruct (Hfirst r2 Hr2) as (q2 & b2 & Hq2 & Hc2 & _ & ->).
      rewrite !entry_key_entry_of.
      assert (Hsame : sha256 b1 = sha256 b2).
      { unfold sha_of, entry_of, Utils.new_entry in Heq.
        revert Heq. prop_simpl. by intros [= ?]. }
      assert (Hin : ∀ q k, List.find k (candidates found) = Some q → q ∈ found).
      { intros q k Hq. apply find_some in Hq as [Hq _].
        unfold candidates in Hq. apply filter_In in Hq as [Hq _].
        by apply list_elem_of_In. }
      by rewrite (Hsha q1 q2 b1 b2 (Hin _ _ Hq1) (Hin _ _ Hq2) Hc1 Hc2 Hsame).
    + apply list.Forall_forall. intros r Hr.
      destruct (Hfirst r Hr) as (q & b & _ & _ & _ & ->).
      exists (sha256 b). unfold sha_of, entry_of, Utils.new_entry.
      by prop_simpl.
Qed.
End GetAllFiles.

(* ================================================================== *)
(** * The example digest *)
(* ================================================================== *)

Lemma example_sha256_no_collision s files : no_collision example_sha256 s files.
Proof.
  intros p q bp bq _ _ _ _ Hsha. unfold example_sha256 in Hsha.
  simpl in Hsha. by injection Hsha.
Qed.

(* ================================================================== *)
(** * The file system *)
(* ================================================================== *)

Lemma read_file_run path bytes s :
  fs s !! path = Some bytes → read_file path s = (Ret bytes, s).
Proof. intros H. unfold read_file. by rewrite H. Qed.

(** Reading through a link and after a write. *)
Lemma lookup_linked_eq m src dst : linked m src dst !! dst = m !! src.
Proof.
  unfold lookup, disk_lookup, first_name, linked. cbn.
  by rewrite lookup_insert_eq.
Qed.

Lemma lookup_linked_ne m src dst q :
  q ≠ dst → linked m src dst !! q = m !! q.
Proof.
  intros Hq. unfold lookup, disk_lookup, first_name, linked. cbn.
  by rewrite lookup_insert_ne.
Qed.

Lemma first_name_written m p bytes q :
  first_name (written m p bytes) q = first_name m q.
Proof. reflexivity. Qed.

Lemma lookup_written m p bytes q :
  written m p bytes !! q
  = if decide (first_name m q = first_name m p) then Some bytes else m !! q.
Proof.
  unfold lookup at 1, disk_lookup. rewrite first_name_written.
  unfold written. cbn [bytes_at]. destruct (decide _) as [->|Hne].
  - by rewrite lookup_insert_eq.
  - by rewrite lookup_insert_ne.
Qed.

Lemma lookup_written_eq m p bytes : written m p bytes !! p = Some bytes.
Proof. rewrite lookup_written. by rewrite decide_True. Qed.

(** A link to a free name in a folder that is there. *)
Lemma linkSync_run src dst bytes s :
  fs s !! src = Some bytes → fs s !! dst = None →
  parent dst ∈ folders (fs s) →
  Utils.linkSync (VStr src) dst s
  = (Ret tt, {| fs := linked (fs s) src dst;
                trace := trace s ++ [EvLink src dst] |}).
Proof.
  intros Hsrc Hdst Hdir. unfold Utils.linkSync.
  erewrite run_bind_ret by apply emit_run.
  erewrite run_bind_ret by (by apply read_file_run).
  erewrite run_bind_ret by reflexivity.
  cbn [fs add_events]. rewrite Hdst.
  rewrite bool_decide_false by (by intros [? ?]).
  unfold link_file. cbn [fs trace]. by rewrite bool_decide_true.
Qed.

(** The folder of a path that ends in a name without a slash. *)
Lemma up_to_last_slash_app a b :
  up_to_last_slash a = None → up_to_last_slash b = None →
  up_to_last_slash (a +:+ b) = None.
Proof.
  intros Ha Hb. induction a as [|c a IH]; simpl in *; [done|].
  destruct (up_to_last_slash a); [done|]. rewrite IH by done.
  by case_bool_decide.
Qed.

Lemma up_to_last_slash_name d b :
  up_to_last_slash b = None →
  up_to_last_slash (d +:+ String "/" b) = Some d.
Proof.
  intros Hb. induction d as [|c d IH]; simpl.
  - by rewrite Hb.
  - by rewrite IH.
Qed.

Lemma last_component_no_slash p : ∀ cur last,
  up_to_last_slash cur = None → up_to_last_slash last = None →
  up_to_last_slash (last_component p cur last) = None.
Proof.
  induction p as [|c p IH]; intros cur last Hcur Hlast; simpl.
  - by case_bool_decide.
  - case_bool_decide as Hc.
    + apply IH; [done|]. by case_bool_decide.
    + apply IH; [|done]. apply up_to_last_slash_app; [done|].
      simpl. by rewrite bool_decide_false.
Qed.

Lemma basename_no_slash p : up_to_last_slash (basename p) = None.
Proof. by apply last_component_no_slash. Qed.

Lemma testbed_path_parent dirname p :
  basename p ≠ EmptyString →
  parent (testbed_path dirname p) = Utils.imgFolder dirname.
Proof.
  intros Hname. unfold testbed_path.
  assert (Himg : Utils.imgFolder dirname ≠ EmptyString).
  { unfold Utils.imgFolder. simpl. case_bool_decide; [done|].
    by destruct dirname. }
  assert (Hjoin : join_strings [Utils.imgFolder dirname; basename p]
                  = Utils.imgFolder dirname +:+ String "/" (basename p)).
  { cbn [join_strings]. rewrite (bool_decide_false _ Himg).
    rewrite (bool_decide_false _ Hname).
    rewrite (bool_decide_true (EmptyString = EmptyString)) by done.
    by rewrite (bool_decide_false _ Hname). }
  rewrite Hjoin. unfold parent.
  rewrite up_to_last_slash_name by apply basename_no_slash.
  by destruct (Utils.imgFolder dirname).
Qed.

(* ================================================================== *)
(** * A size probe that fails *)
(* ================================================================== *)

Section ProbeFails.
Variable rt : builtins.
Variable isWindows : bool.
Variable dirname : string.

Lemma measure_throws output elapsed out s :
  measure rt isWindows output (Exits false elapsed out) s
  = (Throw (ExecError (measure_command isWindows output)),
     add_events s [EvExec (measure_command isWindows output)]).
Proof.
  unfold measure, runSync_options. apply run_bind_throw.
  by rewrite execSync_no_timeout.
Qed.
End ProbeFails.

Lemma JSON_object_lookup_str (o : object) k h :
  o !! k = Some (VStr h) → JSON_object o !! k = Some (JString h).
Proof. intros Hk. unfold JSON_object. by rewrite lookup_omap, Hk. Qed.

Lemma prop_Some_str (o : object) k h :
  prop o k = VStr h → o !! k = Some (VStr h).
Proof. unfold prop. destruct (o !! k); simpl; congruence. Qed.

Lemma returns_exits p : returns p → ∃ ok elapsed out, p = Exits ok elapsed out.
Proof. destruct p; [eauto|done]. Qed.

(* ================================================================== *)
(** * The four passes when commands fail *)
(* ================================================================== *)

Section Robust.
Variable rt : builtins.
Variable isWindows : bool.
Variable dirname : string.

Ltac exits_start Hw :=
  let Hruns := fresh "Hruns" in
  let Hprobe := fresh "Hprobe" in
  let ok := fresh "ok" in
  let elapsed := fresh "elapsed" in
  let out := fresh "out" in
  let Hp := fresh "Hp" in
  pose proof Hw as [Hruns Hprobe];
  cbv zeta;
  rewrite (run_bind_ret _ _ _ _ _ (three_times_returns _ _ _ Hruns));
  destruct (returns_exits _ Hprobe) as (ok & elapsed & out & Hp);
  unfold probe_ok, size_value, min_time, times_of;
  rewrite Hp;
  destruct ok;
  [rewrite (run_bind_ret _ _ _ _ _ (measure_returns _ _ _ _ _ _))
  |erewrite run_bind_throw by apply measure_throws];
  rewrite step_events_split.

Lemma callback_run p file w report s :
  step_returns w →
  pass_callback rt isWindows dirname p file w report s
  = (callback_result rt isWindows dirname p file w report,
     add_events s (pass_events rt isWindows dirname p file w)).
Proof.
  intros Hw. unfold callback_result, pass_events.
  destruct p; simpl;
    [unfold compress04, after04|unfold compress05, after05
    |unfold decompress04, after_d04|unfold decompress05, after_d05];
    exits_start Hw; try done;
    destruct (element report _) as [cur|]; done.
Qed.

Lemma callback_result_exits p file w report :
  callback_result rt isWindows dirname p file w report ≠ Diverge.
Proof.
  unfold callback_result. destruct (probe_ok w); [|done].
  destruct p; try done; by destruct (element report _).
Qed.

Lemma pass_run p w files : ∀ j report s,
  (∀ k, (k < length files)%nat → step_returns (w (j + k)%nat)) →
  forEach_async (pass_callback rt isWindows dirname p) w j files report s
  = (Ret (pass_fold rt isWindows dirname p w j files report),
     add_events s (events_from rt isWindows dirname p w j files)).
Proof.
  induction files as [|file rest IH]; intros j report s Hw; simpl.
  - by rewrite add_events_nil.
  - unfold try_catch at 1.
    unfold mbind at 1, M_bind at 1, bind at 1.
    rewrite callback_run
      by (replace j with (j + 0)%nat by lia; apply Hw; simpl; lia).
    assert (Hrest : ∀ k, (k < length rest)%nat → step_returns (w (S j + k)%nat)).
    { intros k Hk. replace (S j + k)%nat with (j + S k)%nat by lia.
      apply Hw. simpl. lia. }
    pose proof (callback_result_exits p file (w j) report) as Hnd.
    destruct (callback_result _ _ _ _ _ _ _) as [report'|err|];
      [| |done]; cbn; rewrite (IH _ _ _ Hrest); by rewrite add_events_app.
Qed.

Lemma benchmark_run e allFiles s :
  all_exit e (length allFiles) →
  benchmark rt isWindows dirname e allFiles s
  = (Ret (run_report rt isWindows dirname e allFiles),
     add_events s (run_trace rt isWindows dirname e allFiles)).
Proof.
  intros Hexit. unfold benchmark, run_report, run_trace.
  assert (Hpass : ∀ p k, (k < length allFiles)%nat →
                         step_returns (bench e p (0 + k)%nat))
    by (intros p k Hk; by apply Hexit).
  rewrite (run_bind_ret _ _ _ _ _
             (pass_run C04 (bench e C04) allFiles 0 [] s (Hpass C04))).
  rewrite (run_bind_ret _ _ _ _ _
             (pass_run C05 (bench e C05) allFiles 0 _ _ (Hpass C05))).
  rewrite (run_bind_ret _ _ _ _ _
             (pass_run D04 (bench e D04) allFiles 0 _ _ (Hpass D04))).
  rewrite (run_bind_ret _ _ _ _ _
             (pass_run D05 (bench e D05) allFiles 0 _ _ (Hpass D05))).
  rewrite (run_bind_ret _ _ _ _ _ (emit_run _ _)).
  unfold ret. by rewrite !add_events_app.
Qed.

(** A merging callback that returns has found its record. *)
Lemma callback_result_inv p file w report report' :
  callback_result rt isWindows dirname p file w report = Ret report' →
  (p = C04 ∧ report' = report ++ [after04 rt isWindows w file])
  ∨ (p ≠ C04 ∧ ∃ i cur,
       findIndex (same_sha file) report = Some i
       ∧ report !! i = Some cur
       ∧ report' = <[i := pass_after rt isWindows p w file cur]> report).
Proof.
  unfold callback_result. destruct (probe_ok w); [|done].
  destruct p; [intros [= <-]; by left|..]; intros H; right;
    (split; [done|]);
    destruct (findIndex (same_sha file) report) as [i|] eqn:Hi;
    simpl in H; try done;
    destruct (report !! i) as [cur|] eqn:Hcur; simpl in H; try done;
    injection H as <-; by exists i, cur.
Qed.

Lemma pass_fold_inv (I : list object → Prop) p w files :
  (∀ file w report report',
     file ∈ files → I report →
     callback_result rt isWindows dirname p file w report = Ret report' →
     I report') →
  ∀ j report, I report →
    I (pass_fold rt isWindows dirname p w j files report).
Proof.
  induction files as [|file rest IH]; intros Hstep j report Hreport; simpl.
  - done.
  - apply IH.
    + intros f w0 r r' Hf. apply Hstep. by apply list_elem_of_further.
    + destruct (callback_result _ _ _ _ _ _ _) as [report'| |] eqn:Hcb;
        try done.
      eapply Hstep; [apply list_elem_of_here|done|exact Hcb].
Qed.
End Robust.

Ltac split_keys H :=
  repeat (apply not_elem_of_cons in H as [? H]).

Section Frame.
Variable rt : builtins.
Variable isWindows : bool.
Variable dirname : string.

Lemma after04_frame w (file : object) k :
  k ∉ pass_keys C04 → after04 rt isWindows w file !! k = file !! k.
Proof.
  intros Hk. unfold pass_keys in Hk. split_keys Hk.
  unfold after04, record04. by rewrite !lookup_insert_ne.
Qed.

Lemma pass_after_frame p w file (cur : object) k :
  p ≠ C04 → k ∉ pass_keys p → (p = D05 → k ≠ "ppmFile") →
  pass_after rt isWindows p w file cur !! k = cur !! k.
Proof.
  intros Hp Hk Hppm. unfold pass_keys in Hk.
  destruct p; [done|..]; split_keys Hk; simpl.
  - unfold after05, record05. by rewrite !lookup_insert_ne.
  - unfold after_d04, restored04. by rewrite !lookup_insert_ne.
  - unfold after_d05, restored05.
    rewrite lookup_delete_ne by (symmetry; by apply Hppm).
    by rewrite !lookup_insert_ne.
Qed.

Lemma pass_after_absent p w file (cur : object) k :
  p ≠ C04 → k ∉ pass_keys p → cur !! k = None →
  pass_after rt isWindows p w file cur !! k = None.
Proof.
  intros Hp Hk Hcur. unfold pass_keys in Hk.
  destruct p; [done|..]; split_keys Hk; simpl.
  - unfold after05, record05. by rewrite !lookup_insert_ne.
  - unfold after_d04, restored04. by rewrite !lookup_insert_ne.
  - unfold after_d05, restored05.
    destruct (decide (k = "ppmFile")) as [->|Hne].
    + apply lookup_delete_eq.
    + rewrite lookup_delete_ne by done. by rewrite !lookup_insert_ne.
Qed.

(** A pass gives no record a key it does not write, when the files of
    the first pass do not have it. *)
Lemma pass_fold_absent p w files k :
  k ∉ pass_keys p →
  Forall (λ f : object, f !! k = None) files →
  ∀ j report,
    Forall (λ r : object, r !! k = None) report →
    Forall (λ r : object, r !! k = None)
      (pass_fold rt isWindows dirname p w j files report).
Proof.
  intros Hk Hfiles.
  apply (pass_fold_inv rt isWindows dirname
           (Forall (λ r : object, r !! k = None))).
  intros file w0 report report' Hfile Hreport Hcb.
  apply callback_result_inv in Hcb
    as [[-> ->]|(Hp & i & cur & _ & Hcur & ->)].
  - apply list.Forall_app. split; [done|].
    apply list.Forall_cons. split; [|constructor].
    rewrite after04_frame by done.
    by apply (proj1 (list.Forall_forall _ _) Hfiles).
  - apply Forall_insert; [done|].
    apply pass_after_absent; [done..|].
    apply (proj1 (list.Forall_forall _ _) Hreport).
    by eapply list_elem_of_lookup_2.
Qed.

Lemma pass_fold_length p w files : ∀ j report,
  (length (pass_fold rt isWindows dirname p w j files report)
   ≤ length report + length files)%nat.
Proof.
  induction files as [|file rest IH]; intros j report; simpl; [lia|].
  destruct (callback_result _ _ _ _ _ _ _) as [report'| |] eqn:Hcb.
  - apply callback_result_inv in Hcb
      as [[-> ->]|(Hp & i & cur & _ & Hcur & ->)].
    + etrans; [apply IH|]. rewrite length_app. simpl. lia.
    + etrans; [apply IH|]. rewrite length_insert. lia.
  - etrans; [apply IH|]. lia.
  - etrans; [apply IH|]. lia.
Qed.

Lemma pass_fold_merge_length p w files :
  p ≠ C04 →
  ∀ j report,
    length (pass_fold rt isWindows dirname p w j files report)
    = length report.
Proof.
  intros Hp j report.
  apply (pass_fold_inv rt isWindows dirname
           (λ r, length r = length report)); [|done].
  intros file w0 r r' _ Hr Hcb.
  apply callback_result_inv in Hcb
    as [[-> ->]|(_ & i & cur & _ & Hcur & ->)]; [done|].
  by rewrite length_insert.
Qed.

Lemma run_report_length e allFiles :
  (length (run_report rt isWindows dirname e allFiles)
   ≤ length allFiles)%nat.
Proof.
  unfold run_report. rewrite !pass_fold_merge_length by done.
  etrans; [apply pass_fold_length|]. simpl. lia.
Qed.

Lemma run_report_absent e allFiles k :
  k ∉ metric_keys →
  Forall (λ f : object, f !! k = None) allFiles →
  Forall (λ r : object, r !! k = None)
    (run_report rt isWindows dirname e allFiles).
Proof.
  intros Hk Hfiles. unfold metric_keys in Hk.
  apply not_elem_of_app in Hk as [H1 Hk].
  apply not_elem_of_app in Hk as [H2 Hk].
  apply not_elem_of_app in Hk as [H3 H4].
  unfold run_report.
  repeat (apply pass_fold_absent; [done..|]). constructor.
Qed.
End Frame.

Lemma clean_step_returns w : clean_step w → step_returns w.
Proof.
  intros [Hruns (elapsed & out & Hprobe)]. split; [done|].
  by rewrite Hprobe.
Qed.

Lemma clean_step_probe_ok w : clean_step w → probe_ok w = true.
Proof.
  intros [_ (elapsed & out & Hprobe)]. unfold probe_ok. by rewrite Hprobe.
Qed.

Lemma broken_step_returns : step_returns broken_step.
Proof. split; [intros i _|]; done. Qed.

Lemma example_env_exits c04 c05 d04 d05 n :
  step_returns c04 → step_returns c05 → step_returns d04 →
  step_returns d05 → all_exit (example_env c04 c05 d04 d05) n.
Proof. intros ???? [] j _; simpl; done. Qed.

Lemma execs_events_from rt isWindows dirname p w files : ∀ j,
  length (execs (events_from rt isWindows dirname p w j files))
  = (4 * length files)%nat.
Proof.
  induction files as [|file rest IH]; intros j; simpl; [done|].
  rewrite execs_app, length_app, IH. unfold pass_events.
  rewrite execs_step_events. simpl. lia.
Qed.

#[local] Hint Resolve clean_step_returns broken_step_returns
  example_env_exits : example.

(** X1. Whatever commands fail, as long as every command exits, the four
    passes return and the report is written, last of all; the run has
    executed sixteen commands for each file, and the report has at most
    one record for each file. *)
Theorem benchmark_survives_failures rt isWindows dirname e allFiles s :
  all_exit e (length allFiles) →
  ∃ report events,
    benchmark rt isWindows dirname e allFiles s
      = (Ret report, add_events s events)
    ∧ list.last events
      = Some (EvWriteFile (join_strings [dirname; "report.jsonc"])
                (JSON_stringify report))
    ∧ (length report ≤ length allFiles)%nat
    ∧ length (execs events) = (16 * length allFiles)%nat.
Proof.
  intros Hexit.
  exists (run_report rt isWindows dirname e allFiles),
    (run_trace rt isWindows dirname e allFiles).
  split; [by apply benchmark_run|].
  split; [unfold run_trace; by rewrite !app_assoc, last_snoc|].
  split; [apply run_report_length|].
  unfold run_trace. rewrite !execs_app, !length_app, !execs_events_from.
  simpl. lia.
Qed.

(** X1 on a run whose fourth pass fails altogether. *)
Lemma benchmark_survives_failures_witness :
  let good := example_step (ok_call 100) (failed_call 7) (ok_call 100)
                "1000" in
  ∃ report events,
    benchmark example_rt false "/app"
      (example_env good good good broken_step) [example_file] sys0
      = (Ret report, add_events sys0 events)
    ∧ list.last events
      = Some (EvWriteFile (join_strings ["/app"; "report.jsonc"])
                (JSON_stringify report))
    ∧ (length report ≤ 1)%nat
    ∧ length (execs events) = 16%nat.
Proof.
  intros good.
  apply (benchmark_survives_failures example_rt false "/app"
           (example_env good good good broken_step) [example_file] sys0).
  unfold good. auto 10 with example.
Defined.

(** X2. The passes write the twenty keys of their object literals and no
    other: a key that is none of them and that no file has is in no
    record of the report, in memory or written. *)
Theorem passes_write_only_their_keys rt isWindows dirname e allFiles s k :
  all_exit e (length allFiles) →
  k ∉ metric_keys →
  Forall (λ f : object, f !! k = None) allFiles →
  ∃ report s',
    benchmark rt isWindows dirname e allFiles s = (Ret report, s')
    ∧ (∀ r, r ∈ report → r !! k = None)
    ∧ ∀ o, o ∈ JSON_stringify report → o !! k = None.
Proof.
  intros Hexit Hk Hfiles. eexists _, _.
  split; [by apply benchmark_run|].
  pose proof (run_report_absent rt isWindows dirname e allFiles k Hk Hfiles)
    as Habsent.
  split.
  - intros r Hr. by apply (proj1 (list.Forall_forall _ _) Habsent).
  - intros o Ho. unfold JSON_stringify in Ho.
    apply list_elem_of_fmap in Ho as (r & -> & Hr).
    apply JSON_object_lookup_None.
    by apply (proj1 (list.Forall_forall _ _) Habsent).
Qed.

(** X2 for the key [isIdentical] on a run with failures. *)
Lemma passes_write_only_their_keys_witness :
  let good := example_step (ok_call 100) (failed_call 7) (ok_call 100)
                "1000" in
  ∃ report s',
    benchmark example_rt false "/app"
      (example_env good good broken_step good) [example_file] sys0
      = (Ret report, s')
    ∧ (∀ r, r ∈ report → r !! "isIdentical" = None)
    ∧ ∀ o, o ∈ JSON_stringify report → o !! "isIdentical" = None.
Proof.
  intros good.
  apply (passes_write_only_their_keys example_rt false "/app"
           (example_env good good broken_step good) [example_file] sys0
           "isIdentical").
  - unfold good. auto 10 with example.
  - apply (bool_decide_unpack _). reflexivity.
  - constructor; [reflexivity|constructor].
Defined.

Section Skips.
Variable rt : builtins.
Variable isWindows : bool.
Variable dirname : string.

Lemma pass_fold_first w files : ∀ j report,
  pass_fold rt isWindows dirname C04 w j files report
  = report ++ pushed_ok rt isWindows w j files.
Proof.
  induction files as [|file rest IH]; intros j report; simpl.
  - by rewrite app_nil_r.
  - unfold callback_result. destruct (probe_ok (w j)).
    + by rewrite IH, <- app_assoc.
    + by rewrite IH.
Qed.

Lemma pushed_ok_length w files : ∀ j,
  length (pushed_ok rt isWindows w j files)
  = length (filter (λ k, probe_ok (w k) = true) (seq j (length files))).
Proof.
  induction files as [|file rest IH]; intros j; simpl; [done|].
  rewrite length_app, IH, filter_cons.
  destruct (probe_ok (w j)) eqn:Hok.
  - rewrite decide_True by done. done.
  - rewrite decide_False by done. done.
Qed.

Lemma pushed_ok_elem w files r : ∀ j,
  r ∈ pushed_ok rt isWindows w j files →
  ∃ k file, files !! k = Some file ∧ probe_ok (w (j + k)%nat) = true
            ∧ r = after04 rt isWindows (w (j + k)%nat) file.
Proof.
  induction files as [|file rest IH]; intros j Hr; simpl in Hr.
  - by apply elem_of_nil in Hr.
  - apply elem_of_app in Hr as [Hr|Hr].
    + destruct (probe_ok (w j)) eqn:Hok; [|by apply elem_of_nil in Hr].
      apply list_elem_of_singleton in Hr as ->.
      exists 0%nat, file. by rewrite Nat.add_0_r.
    + destruct (IH _ Hr) as (k & f & Hk & Hok & ->).
      exists (S k), f. by replace (j + S k)%nat with (S j + k)%nat by lia.
Qed.
End Skips.

Lemma Forall2_elem_r {A B} (P : A → B → Prop) (l : list A) (k : list B) :
  Forall2 P l k → Forall2 (λ x y, P x y ∧ y ∈ k) l k.
Proof.
  induction 1 as [|x y l k Hxy _ IH]; constructor.
  - split; [done|apply list_elem_of_here].
  - eapply list.Forall2_impl; [exact IH|].
    intros x' y' [? ?]. split; [done|by apply list_elem_of_further].
Qed.

Section SkipsOrder.
Variable rt : builtins.
Variable isWindows : bool.

(** The records pushed face, in order, the files whose probe exits with
    status zero. *)
Lemma pushed_ok_facing w files : ∀ j,
  Forall2 (λ r k, ∃ file, files !! (k - j)%nat = Some file
                          ∧ r = after04 rt isWindows (w k) file)
    (pushed_ok rt isWindows w j files)
    (filter (λ k, probe_ok (w k) = true) (seq j (length files))).
Proof.
  induction files as [|file rest IH]; intros j; simpl; [constructor|].
  assert (Hrest :
    Forall2 (λ r k, ∃ file0, (file :: rest) !! (k - j)%nat = Some file0
                             ∧ r = after04 rt isWindows (w k) file0)
      (pushed_ok rt isWindows w (S j) rest)
      (filter (λ k, probe_ok (w k) = true) (seq (S j) (length rest)))).
  { eapply list.Forall2_impl; [exact (Forall2_elem_r _ _ _ (IH (S j)))|].
    intros r k [(f & Hf & ->) Hk]. exists f. split; [|done].
    apply list_elem_of_filter in Hk as [_ Hk]. apply elem_of_seq in Hk.
    replace (k - j)%nat with (S (k - S j)) by lia. exact Hf. }
  rewrite filter_cons. destruct (probe_ok (w j)) eqn:Hok.
  - rewrite decide_True by done. simpl. constructor; [|exact Hrest].
    exists file. by rewrite Nat.sub_diag.
  - rewrite decide_False by done. exact Hrest.
Qed.
End SkipsOrder.

(** X3. In the first pass a file whose size probe fails is left out of
    the report, and the files after it are still compressed: when every
    command exits, the pass runs the four commands of every file and
    pushes exactly one record for each file whose probe exits with
    status zero, in the order of the files: the records pushed face, one
    by one, the positions of these files, and each is the record of the
    file at its position. *)
Theorem first_pass_skips_failed_probes rt isWindows dirname w files report s :
  (∀ k, (k < length files)%nat → step_returns (w k)) →
  ∃ pushed_records,
    forEach_async (compress04 rt isWindows dirname) w 0 files report s
    = (Ret (report ++ pushed_records),
       add_events s (events_from rt isWindows dirname C04 w 0 files))
    ∧ Forall2 (λ r k, ∃ file, files !! k = Some file
                              ∧ r = record04 rt file (min_time (w k))
                                      (size_value rt isWindows (w k)))
        pushed_records
        (filter (λ k, probe_ok (w k) = true) (seq 0 (length files)))
    ∧ length pushed_records
      = length (filter (λ k, probe_ok (w k) = true) (seq 0 (length files)))
    ∧ ((∀ k, (k < length files)%nat → probe_ok (w k) = false) →
       pushed_records = []).
Proof.
  intros Hexit. exists (pushed_ok rt isWindows w 0 files).
  split.
  { rewrite <- pass_fold_first with (dirname := dirname).
    by apply (pass_run rt isWindows dirname C04). }
  split.
  { eapply list.Forall2_impl; [apply pushed_ok_facing|].
    intros r k (file & Hfile & ->). exists file.
    rewrite Nat.sub_0_r in Hfile. by split. }
  split; [apply pushed_ok_length|].
  intros Hfail. apply length_zero_iff_nil.
  rewrite pushed_ok_length. apply length_zero_iff_nil.
  apply filter_none. intros k Hk.
  apply elem_of_seq in Hk. rewrite Hfail by lia. done.
Qed.

(** X3 on two files, the size probe failing for the first: the one
    record pushed is that of the second file. *)
Lemma first_pass_skips_failed_probes_witness :
  let good := example_step (ok_call 100) (ok_call 100) (ok_call 100)
                "1000" in
  let w := λ k, match k with 0%nat => broken_step | _ => good end in
  ∃ r,
    forEach_async (compress04 example_rt false "/app") w 0
      [example_file; example_file_b] [] sys0
    = (Ret ([] ++ [r]),
       add_events sys0 (events_from example_rt false "/app" C04 w 0
                          [example_file; example_file_b]))
    ∧ r = record04 example_rt example_file_b (min_time good)
            (size_value example_rt false good).
Proof.
  intros good w.
  destruct (first_pass_skips_failed_probes example_rt false "/app" w
              [example_file; example_file_b] [] sys0)
    as (recs & Hrun & Hfacing & _).
  - intros [|[|k]] Hk; simpl in *; [apply broken_step_returns| |lia].
    apply clean_step_returns, example_step_clean; apply ok_call_returns.
  - change (filter (λ k, probe_ok (w k) = true) (seq 0 2)) with [1%nat]
      in Hfacing.
    apply Forall2_cons_inv_r in Hfacing
      as (r & rest & (file & Hfile & Hr) & Hrest & ->).
    apply Forall2_nil_inv_r in Hrest as ->.
    injection Hfile as <-.
    exists r. split; [exact Hrun|exact Hr].
Defined.

(** X4. In the three merging passes, a file whose sha256 no record of the
    report has makes the callback throw a TypeError, after its four
    commands have run: [findIndex] gives -1 and a property of
    [report[-1]] is read. The rejected promise is dropped: the pass goes
    on and the report is as it was. *)
Theorem merge_without_record_throws rt isWindows dirname p file w report s :
  p ≠ C04 →
  step_returns w → probe_ok w = true →
  findIndex (same_sha file) report = None →
  pass_callback rt isWindows dirname p file w report s
  = (Throw (TypeError "Cannot read properties of undefined"),
     add_events s (pass_events rt isWindows dirname p file w))
  ∧ forEach_async (pass_callback rt isWindows dirname p) (λ _, w) 0
      [file] report s
    = (Ret report, add_events s (pass_events rt isWindows dirname p file w)).
Proof.
  intros Hp Hw Hok Hindex.
  assert (Hres : callback_result rt isWindows dirname p file w report
                 = Throw (TypeError "Cannot read properties of undefined")).
  { unfold callback_result. rewrite Hok, Hindex. by destruct p. }
  split.
  - by rewrite callback_run, Hres.
  - rewrite (pass_run rt isWindows dirname p) by (intros k _; done).
    simpl. by rewrite Hres, app_nil_r.
Qed.

(** X4 on a report that is empty. *)
Lemma merge_without_record_throws_witness :
  let good := example_step (ok_call 100) (ok_call 100) (ok_call 100)
                "1000" in
  compress05 example_rt false "/app" example_file good [] sys0
  = (Throw (TypeError "Cannot read properties of undefined"),
     add_events sys0 (pass_events example_rt false "/app" C05
                        example_file good)).
Proof.
  intros good.
  apply (merge_without_record_throws example_rt false "/app" C05
           example_file good [] sys0); [done| |reflexivity|reflexivity].
  unfold good. auto 10 with example.
Defined.

Section Leak.
Variable rt : builtins.
Variable isWindows : bool.
Variable dirname : string.

(** Before the fourth pass no record has a [dTime0.5] and every record
    has the [ppmFile] of its file. *)
Lemma pass_fold_keeps_ppmFile p w files :
  p ≠ D05 →
  Forall has_path files →
  ∀ j report,
    Forall has_path report →
    Forall has_path (pass_fold rt isWindows dirname p w j files report).
Proof.
  intros Hp Hfiles.
  apply (pass_fold_inv rt isWindows dirname (Forall has_path)).
  intros file w0 report report' Hfile Hreport Hcb.
  apply callback_result_inv in Hcb
    as [[-> ->]|(Hp' & i & cur & _ & Hcur & ->)].
  - apply list.Forall_app. split; [done|].
    apply list.Forall_cons. split; [|constructor].
    unfold has_path.
    rewrite !after04_frame by (apply (bool_decide_unpack _); reflexivity).
    by apply (proj1 (list.Forall_forall _ _) Hfiles).
  - apply Forall_insert; [done|].
    assert (Hc : has_path cur).
    { apply (proj1 (list.Forall_forall _ _) Hreport).
      by eapply list_elem_of_lookup_2. }
    unfold has_path.
    rewrite (pass_after_frame rt isWindows p w0 file cur "dTime0.5");
      [|done|destruct p; try done; apply (bool_decide_unpack _); reflexivity
       |done].
    rewrite (pass_after_frame rt isWindows p w0 file cur "ppmFile");
      [done|done
      |destruct p; try done; apply (bool_decide_unpack _); reflexivity
      |done].
Qed.

(** In the fourth pass a record gets its [dTime0.5] and loses its
    [ppmFile] in one step. *)
Lemma pass_fold_drops_ppmFile w files :
  ∀ j report,
    Forall (λ r, path_deleted r ∨ has_path r) report →
    Forall (λ r, path_deleted r ∨ has_path r)
      (pass_fold rt isWindows dirname D05 w j files report).
Proof.
  apply (pass_fold_inv rt isWindows dirname
           (Forall (λ r, path_deleted r ∨ has_path r))).
  intros file w0 report report' Hfile Hreport Hcb.
  apply callback_result_inv in Hcb
    as [[? _]|(_ & i & cur & _ & Hcur & ->)]; [done|].
  apply Forall_insert; [done|]. left. simpl.
  unfold after_d05, restored05. split.
  - apply lookup_delete_eq.
  - rewrite lookup_delete_ne by done.
    rewrite !lookup_insert_ne by done. rewrite lookup_insert_eq. eauto.
Qed.

Lemma run_report_ppmFile e allFiles :
  Forall has_path allFiles →
  Forall (λ r, path_deleted r ∨ has_path r)
    (run_report rt isWindows dirname e allFiles).
Proof.
  intros Hfiles. unfold run_report. apply pass_fold_drops_ppmFile.
  apply list.Forall_impl with (P := has_path); [|intros r Hr; by right].
  do 3 (apply pass_fold_keeps_ppmFile; [done|done|]). constructor.
Qed.
End Leak.

Lemma is_file_has_path f : is_file f → has_path f.
Proof.
  intros (filename & originalSize & originalsha256 & ppmFile & ppmSize
          & ppmsha256 & ->).
  unfold file_object. split.
  - by rewrite !lookup_insert_ne.
  - rewrite !lookup_insert_ne by done. rewrite lookup_insert_eq. eauto.
Qed.

Lemma JSON_object_lookup (o : object) k :
  JSON_object o !! k = o !! k ≫= JSON_value.
Proof. unfold JSON_object. by rewrite lookup_omap. Qed.

(** X5. When every command exits, a record of the report is without its
    [ppmFile] exactly when it has a [dTime0.5]: the fourth pass sets the
    one and deletes the other, and nothing else deletes the path. A
    record whose fourth callback threw is written with its [ppmFile]. *)
Theorem ppmFile_deleted_with_dTime05 rt isWindows dirname e allFiles s :
  all_exit e (length allFiles) →
  Forall is_file allFiles →
  ∃ report s',
    benchmark rt isWindows dirname e allFiles s = (Ret report, s')
    ∧ (∀ r, r ∈ report →
         r !! "ppmFile" = None ↔ is_Some (r !! "dTime0.5"))
    ∧ ∀ o, o ∈ JSON_stringify report →
        o !! "ppmFile" = None ↔ is_Some (o !! "dTime0.5").
Proof.
  intros Hexit Hfiles. eexists _, _.
  split; [by apply benchmark_run|].
  assert (Hall : Forall (λ r, path_deleted r ∨ has_path r)
                   (run_report rt isWindows dirname e allFiles)).
  { apply run_report_ppmFile. eapply list.Forall_impl; [exact Hfiles|].
    apply is_file_has_path. }
  split.
  - intros r Hr.
    destruct (proj1 (list.Forall_forall _ _) Hall r Hr)
      as [[Hppm [n Hn]]|[Hd [path Hpath]]].
    + rewrite Hppm, Hn. split; eauto.
    + rewrite Hd, Hpath. split; [done|]. by intros [? ?].
  - intros o Ho. unfold JSON_stringify in Ho.
    apply list_elem_of_fmap in Ho as (r & -> & Hr).
    rewrite !JSON_object_lookup.
    destruct (proj1 (list.Forall_forall _ _) Hall r Hr)
      as [[Hppm [n Hn]]|[Hd [path Hpath]]].
    + rewrite Hppm, Hn. simpl. split; [|done]. intros _. destruct n; eauto.
    + rewrite Hd, Hpath. simpl. split; [done|]. by intros [? ?].
Qed.

(** X5 on a run whose fourth pass fails on Windows. *)
Lemma ppmFile_deleted_with_dTime05_witness :
  let good := example_step (ok_call 100) (ok_call 100) (ok_call 100)
                "1000 out" in
  ∃ report s',
    benchmark example_rt true "/app"
      (example_env good good good broken_step) [example_file] sys0
    = (Ret report, s')
    ∧ ∀ o, o ∈ JSON_stringify report →
        o !! "ppmFile" = None ↔ is_Some (o !! "dTime0.5").
Proof.
  intros good.
  destruct (ppmFile_deleted_with_dTime05 example_rt true "/app"
              (example_env good good good broken_step) [example_file] sys0)
    as (report & s' & Hrun & _ & Hjson).
  - unfold good. auto 10 with example.
  - apply example_file_is_file.
  - exists report, s'. split; [exact Hrun|exact Hjson].
Defined.


Section LeftOut.
Variable rt : builtins.
Variable isWindows : bool.
Variable dirname : string.

Lemma pass_after_sha p w file cur :
  p ≠ C04 → sha_of (pass_after rt isWindows p w file cur) = sha_of cur.
Proof.
  intros Hp. destruct p; [done|..]; simpl.
  - apply after05_sha.
  - apply after_d04_sha.
  - apply after_d05_sha.
Qed.

(** The merging passes change the sha256 of no record. *)
Lemma pass_fold_keeps_out p w files h :
  p ≠ C04 →
  ∀ j report,
    Forall (λ r, sha_of r ≠ h) report →
    Forall (λ r, sha_of r ≠ h)
      (pass_fold rt isWindows dirname p w j files report).
Proof.
  intros Hp.
  apply (pass_fold_inv rt isWindows dirname (Forall (λ r, sha_of r ≠ h))).
  intros file w0 report report' _ Hreport Hcb.
  apply callback_result_inv in Hcb
    as [[-> _]|(_ & i & cur & _ & Hcur & ->)]; [done|].
  apply Forall_insert; [done|]. rewrite pass_after_sha by done.
  apply (proj1 (list.Forall_forall _ _) Hreport).
  by eapply list_elem_of_lookup_2.
Qed.
End LeftOut.

(** X24. A file whose size probe fails in the first pass is left out of
    the report for good: when every command exits and the files have
    distinct sha256 strings, no record of the report that is written has
    the sha256 of that file, and the report is shorter than the list of
    files. The sixteen commands of every file are run all the same. *)
Theorem failed_first_probe_leaves_file_out rt isWindows dirname e allFiles s
    j file :
  all_exit e (length allFiles) →
  distinct_shas allFiles →
  allFiles !! j = Some file →
  probe_ok (bench e C04 j) = false →
  ∃ report events,
    benchmark rt isWindows dirname e allFiles s
      = (Ret report, add_events s events)
    ∧ (∀ r, r ∈ report → sha_of r ≠ sha_of file)
    ∧ (length report < length allFiles)%nat
    ∧ length (execs events) = (16 * length allFiles)%nat.
Proof.
  intros Hexit [Hnd _] Hfile Hprobe.
  exists (run_report rt isWindows dirname e allFiles),
    (run_trace rt isWindows dirname e allFiles).
  split; [by apply benchmark_run|].
  assert (Hfirst :
    pass_fold rt isWindows dirname C04 (bench e C04) 0 allFiles []
    = pushed_ok rt isWindows (bench e C04) 0 allFiles)
    by (by rewrite pass_fold_first).
  split; [|split].
  - intros r Hr. revert r Hr. apply list.Forall_forall.
    unfold run_report.
    do 3 (apply pass_fold_keeps_out; [done|]).
    rewrite Hfirst. apply list.Forall_forall. intros r Hr.
    apply pushed_ok_elem in Hr as (k & f & Hf & Hok & ->).
    rewrite after04_sha. intros Heq. simpl in Hok.
    assert (k = j) as ->; [|congruence].
    apply (NoDup_lookup (sha_of <$> allFiles) k j (sha_of f)); [done|..].
    + by rewrite list_lookup_fmap, Hf.
    + by rewrite list_lookup_fmap, Hfile, Heq.
  - unfold run_report. rewrite !pass_fold_merge_length by done.
    rewrite Hfirst, pushed_ok_length.
    apply lookup_lt_Some in Hfile as Hj.
    assert (Hseq : seq 0 (length allFiles)
                   = seq 0 j ++ j :: seq (S j) (length allFiles - S j)).
    { replace (length allFiles) with (j + S (length allFiles - S j))%nat
        at 1 by lia.
      by rewrite seq_app. }
    rewrite Hseq, list.filter_app, filter_cons_False, length_app
      by (simpl; by rewrite Hprobe).
    pose proof (list.length_filter (λ k, probe_ok (bench e C04 k) = true) (seq 0 j)).
    pose proof (list.length_filter (λ k, probe_ok (bench e C04 k) = true)
                  (seq (S j) (length allFiles - S j))).
    rewrite !length_seq in *. lia.
  - unfold run_trace. rewrite !execs_app, !length_app, !execs_events_from.
    simpl. lia.
Qed.

(** X24 on two files, the first size probe failing for the first. *)
Lemma failed_first_probe_leaves_file_out_witness :
  let good := example_step (ok_call 100) (ok_call 100) (ok_call 100)
                "1000" in
  let e := {| gm_probe := Exits true 1 "GraphicsMagick";
              wine_probe := Exits true 1 "wine-8.0";
              bench := λ p j, match p, j with
                              | C04, 0%nat => broken_step
                              | _, _ => good
                              end |} in
  ∃ report events,
    benchmark example_rt false "/app" e [example_file; example_file_b] sys0
      = (Ret report, add_events sys0 events)
    ∧ (∀ r, r ∈ report → sha_of r ≠ VStr "5f2a")
    ∧ (length report < 2)%nat.
Proof.
  intros good e.
  destruct (failed_first_probe_leaves_file_out example_rt false "/app" e
              [example_file; example_file_b] sys0 0 example_file)
    as (report & events & Hrun & Hout & Hlen & _).
  - intros p k _. unfold e. cbn [bench].
    destruct p, k; auto 10 with example;
      unfold good; auto 10 with example.
  - split.
    + apply (bool_decide_unpack _). reflexivity.
    + repeat constructor; eexists; reflexivity.
  - reflexivity.
  - reflexivity.
  - exists report, events. split; [exact Hrun|]. split; [exact Hout|exact Hlen].
Defined.


Section MoreFields.
Variable rt : builtins.
Variable isWindows : bool.
Variable e : env.
Variable j : nat.
Variable file : object.

Let r := final_record rt isWindows e j file.

Lemma final_cSize04 :
  prop r "cSize0.4" = size_value rt isWindows (bench e C04 j).
Proof. subst r. unfold_final. by prop_simpl. Qed.

Lemma final_cSize05 :
  prop r "cSize0.5" = size_value rt isWindows (bench e C05 j).
Proof. subst r. unfold_final. by prop_simpl. Qed.

Lemma final_cRatioPPM04 :
  prop r "cRatioPPM0.4"
  = VNum (percent rt (size_value rt isWindows (bench e C04 j))
            (prop file "ppmSize")).
Proof. subst r. unfold_final. by prop_simpl. Qed.

Lemma final_cRatioPPM05 :
  prop r "cRatioPPM0.5"
  = VNum (percent rt (size_value rt isWindows (bench e C05 j))
            (prop file "ppmSize")).
Proof. subst r. unfold_final. by prop_simpl. Qed.

Lemma final_dSpeed04 :
  prop r "dSpeed0.4"
  = VNum (speed rt (size_value rt isWindows (bench e D04 j))
            (min_time (bench e D04 j))).
Proof. subst r. unfold_final. by prop_simpl. Qed.

Lemma final_dSpeed05 :
  prop r "dSpeed0.5"
  = VNum (speed rt (size_value rt isWindows (bench e D05 j))
            (min_time (bench e D05 j))).
Proof. subst r. unfold_final. by prop_simpl. Qed.

Lemma final_kept k :
  k ∈ ["filename"; "originalSize"; "originalsha256"; "ppmSize"; "ppmsha256"] →
  r !! k = file !! k.
Proof.
  intros Hk. subst r. unfold_final.
  repeat (apply elem_of_cons in Hk as [->|Hk]);
    [..|by apply elem_of_nil in Hk];
    rewrite lookup_delete_ne by key_ne;
    rewrite !lookup_insert_ne by key_ne; reflexivity.
Qed.
End MoreFields.

(** A percentage of two integers: a binary64 division, then a binary64
    product. *)
Lemma percent_of_Z rt size whole (n o : Z) :
  to_number rt size = of_Z n → to_number rt whole = of_Z o →
  percent rt size whole = jsmul (jsdiv (of_Z n) (of_Z o)) (of_Z 100).
Proof. intros Hn Ho. unfold percent, js_over. by rewrite Hn, Ho. Qed.

(** 450,000 of 900,000 bytes: 50 percent. *)
Example percent_example :
  jsmul (jsdiv (of_Z 450000) (of_Z 900000)) (of_Z 100) = of_Z 50.
Proof. apply same_number_eq. reflexivity. Qed.

(** 70 of 1,000 bytes: 70 / 1000 is rounded to the binary64 number
    nearest to 0.07, and its product with 100 is rounded to
    7.000000000000001, which is 7 + 2^-50, not to 7. *)
Example percent_rounds :
  jsmul (jsdiv (of_Z 70) (of_Z 1000)) (of_Z 100)
  = Fin (Q2Qc (7881299347898369 # 1125899906842624))
  ∧ jsmul (jsdiv (of_Z 70) (of_Z 1000)) (of_Z 100) ≠ of_Z 7.
Proof.
  assert (H : jsmul (jsdiv (of_Z 70) (of_Z 1000)) (of_Z 100)
              = Fin (Q2Qc (7881299347898369 # 1125899906842624)))
    by (apply same_number_eq; reflexivity).
  split; [exact H|]. rewrite H. discriminate.
Qed.

(** 900,000 bytes in 9 ms: 9 / 1000 is rounded to the binary64 number
    nearest to 0.009, and the quotient is rounded to 100000000.00000001,
    which is 100,000,000 + 2^-26. *)
Example speed_rounds :
  jsdiv (of_Z 900000) (jsdiv (of_Z 9) (of_Z 1000))
  = Fin (Q2Qc (6710886400000001 # 67108864))
  ∧ jsdiv (of_Z 900000) (jsdiv (of_Z 9) (of_Z 1000)) ≠ of_Z 100000000.
Proof.
  assert (H : jsdiv (of_Z 900000) (jsdiv (of_Z 9) (of_Z 1000))
              = Fin (Q2Qc (6710886400000001 # 67108864)))
    by (apply same_number_eq; reflexivity).
  split; [exact H|]. rewrite H. discriminate.
Qed.

(** 450,000 bytes in 100 ms: 4,500,000 bytes per second. *)
Example restore_speed_example :
  jsdiv (of_Z 450000) (jsdiv (of_Z 100) (of_Z 1000)) = of_Z 4500000.
Proof. apply same_number_eq. reflexivity. Qed.

(* ================================================================== *)
(** * The other figures of a clean run *)
(* ================================================================== *)

(** X6. On a run whose commands all come back, the size recorded for a
    variant is what the size probe measured, and the two ratios are that
    size over the original size and over the PPM size, times 100: a
    binary64 division and a binary64 product, each rounded to the nearest
    binary64 number, with no test of the divisor. The report prints each
    ratio as a number or as null. *)
Theorem recorded_ratios rt isWindows dirname e allFiles s j file :
  clean_env e (length allFiles) →
  distinct_shas allFiles →
  allFiles !! j = Some file →
  ∃ report r,
    benchmark rt isWindows dirname e allFiles s
      = (Ret report,
         add_events s (benchmark_events rt isWindows dirname e allFiles))
    ∧ report !! j = Some r
    ∧ ∀ p size_key ratio_key ratioPPM_key,
        (p, size_key, ratio_key, ratioPPM_key)
          ∈ [(C04, "cSize0.4", "cRatio0.4", "cRatioPPM0.4");
             (C05, "cSize0.5", "cRatio0.5", "cRatioPPM0.5")] →
        let size :=
          measured rt isWindows (stdout_of (size_probe (bench e p j))) in
        prop r size_key = size
        ∧ prop r ratio_key
          = VNum (jsmul (js_over rt size (prop file "originalSize"))
                    (of_Z 100))
        ∧ prop r ratioPPM_key
          = VNum (jsmul (js_over rt size (prop file "ppmSize")) (of_Z 100))
        ∧ (∀ n o,
             to_number rt size = of_Z n →
             prop file "originalSize" = VNum (of_Z o) →
             prop r ratio_key
             = VNum (jsmul (jsdiv (of_Z n) (of_Z o)) (of_Z 100)))
        ∧ (∀ n m,
             to_number rt size = of_Z n →
             prop file "ppmSize" = VNum (of_Z m) →
             prop r ratioPPM_key
             = VNum (jsmul (jsdiv (of_Z n) (of_Z m)) (of_Z 100)))
        ∧ (∃ printed, JSON_value (prop r ratio_key) = Some printed)
        ∧ (∃ printed, JSON_value (prop r ratioPPM_key) = Some printed).
Proof.
  intros Hclean Hdistinct Hfile.
  destruct (clean_run_record rt isWindows dirname e allFiles s j file
              Hclean Hdistinct Hfile) as (report & Hrun & _ & Hr).
  exists report, (final_record rt isWindows e j file).
  split; [done|]. split; [done|].
  intros p size_key ratio_key ratioPPM_key Hkeys size.
  assert (Hprinted : ∀ n, ∃ printed, JSON_value (VNum n) = Some printed).
  { intros n. cbn [JSON_value]. destruct n; eauto. }
  assert (Hcases :
    (p, size_key, ratio_key, ratioPPM_key)
      = (C04, "cSize0.4", "cRatio0.4", "cRatioPPM0.4")
    ∨ (p, size_key, ratio_key, ratioPPM_key)
      = (C05, "cSize0.5", "cRatio0.5", "cRatioPPM0.5")).
  { apply elem_of_cons in Hkeys as [?|Hkeys]; [by left|].
    apply list_elem_of_singleton in Hkeys. by right. }
  destruct Hcases as [[= -> -> -> ->]|[= -> -> -> ->]].
  - rewrite final_cSize04, final_cRatio04, final_cRatioPPM04.
    fold (size_value rt isWindows (bench e C04 j)).
    split; [reflexivity|]. split; [reflexivity|]. split; [reflexivity|].
    split; [|split; [|split; apply Hprinted]].
    + intros n o Hn Ho. f_equal.
      apply percent_of_Z; [exact Hn|by rewrite Ho].
    + intros n m Hn Hm. f_equal.
      apply percent_of_Z; [exact Hn|by rewrite Hm].
  - rewrite final_cSize05, final_cRatio05, final_cRatioPPM05.
    fold (size_value rt isWindows (bench e C05 j)).
    split; [reflexivity|]. split; [reflexivity|]. split; [reflexivity|].
    split; [|split; [|split; apply Hprinted]].
    + intros n o Hn Ho. f_equal.
      apply percent_of_Z; [exact Hn|by rewrite Ho].
    + intros n m Hn Hm. f_equal.
      apply percent_of_Z; [exact Hn|by rewrite Hm].
Qed.

(** X6 on an image of 900,000 bytes compressed to 450,000: the ratio is
    50. *)
Lemma recorded_ratios_witness :
  let w := example_step (ok_call 100) (ok_call 100) (ok_call 100)
             du_450000 in
  ∃ report r,
    (benchmark example_rt false "/app" (example_env w w w w)
       [example_file] sys0).1 = Ret report
    ∧ report !! 0%nat = Some r
    ∧ prop r "cSize0.4" = VNum (of_Z 450000)
    ∧ prop r "cRatio0.4" = VNum (of_Z 50).
Proof.
  intros w.
  destruct (recorded_ratios example_rt false "/app"
              (example_env w w w w) [example_file] sys0 0 example_file)
    as (report & r & Hrun & Hr & Hkeys).
  - apply example_env_clean; apply example_step_clean; apply ok_call_returns.
  - apply example_file_alone.
  - reflexivity.
  - exists report, r. rewrite Hrun. split; [reflexivity|]. split; [exact Hr|].
    destruct (Hkeys C04 "cSize0.4" "cRatio0.4" "cRatioPPM0.4")
      as (Hsize & _ & _ & Hratio & _).
    + apply list_elem_of_here.
    + split; [exact Hsize|].
      rewrite (Hratio 450000%Z 900000%Z); [|reflexivity|reflexivity].
      f_equal. exact percent_example.
Defined.

(** X7. The size of a compressed file is recorded as a string on Windows,
    the first word of what [wc -c] prints, and as a number elsewhere,
    [parseInt] of what [du -b | cut -f1] prints less its last character:
    the written report holds a JSON string in the one case, a number (or
    null, for NaN) in the other. *)
Theorem size_is_a_string_on_windows rt isWindows dirname e allFiles s j file :
  clean_env e (length allFiles) →
  distinct_shas allFiles →
  Forall is_file allFiles →
  allFiles !! j = Some file →
  ∃ report o,
    benchmark rt isWindows dirname e allFiles s
      = (Ret report,
         add_events s (benchmark_events rt isWindows dirname e allFiles))
    ∧ JSON_stringify report !! j = Some o
    ∧ ∀ p key, (p, key) ∈ [(C04, "cSize0.4"); (C05, "cSize0.5")] →
        let out := stdout_of (size_probe (bench e p j)) in
        (isWindows = true → o !! key = Some (JString (first_token out)))
        ∧ (isWindows = false →
           o !! key = JSON_value (VNum (parseInt rt (slice_0_m1 out)))).
Proof.
  intros Hclean Hdistinct Hfiles Hfile.
  destruct (clean_run_record rt isWindows dirname e allFiles s j file
              Hclean Hdistinct Hfile) as (report & Hrun & _ & Hr).
  exists report, (JSON_object (final_record rt isWindows e j file)).
  split; [done|].
  split; [unfold JSON_stringify; by rewrite list_lookup_fmap, Hr|].
  intros p key Hkeys out.
  assert (Hsize : prop (final_record rt isWindows e j file) key
                  = measured rt isWindows out).
  { apply elem_of_cons in Hkeys as [[= -> ->]|Hkeys];
      [apply final_cSize04|].
    apply list_elem_of_singleton in Hkeys as [= -> ->].
    apply final_cSize05. }
  unfold measured in Hsize. split; intros ->.
  - by apply JSON_object_lookup_str, prop_Some_str.
  - unfold JSON_object. rewrite lookup_omap.
    by rewrite (prop_Some _ _ _ Hsize).
Qed.

(** X7 on Windows: [wc -c] prints the size and the name of the file. *)
Lemma size_is_a_string_on_windows_witness :
  let w := example_step (ok_call 100) (ok_call 100) (ok_call 100)
             "450000 a.png.ppm.lea4" in
  ∃ report o,
    (benchmark example_rt true "/app" (example_env w w w w)
       [example_file] sys0).1 = Ret report
    ∧ JSON_stringify report !! 0%nat = Some o
    ∧ o !! "cSize0.4" = Some (JString "450000").
Proof.
  intros w.
  destruct (size_is_a_string_on_windows example_rt true "/app"
              (example_env w w w w) [example_file] sys0 0 example_file)
    as (report & o & Hrun & Ho & Hkeys).
  - apply example_env_clean; apply example_step_clean; apply ok_call_returns.
  - apply example_file_alone.
  - apply example_file_is_file.
  - reflexivity.
  - exists report, o. rewrite Hrun. split; [reflexivity|]. split; [exact Ho|].
    destruct (Hkeys C04 "cSize0.4") as [Hwin _]; [apply list_elem_of_here|].
    exact (Hwin eq_refl).
Defined.

(** X8. On a run whose commands all come back, the record of a file keeps
    the name, the sizes and the digests the file came with: the passes
    only add to them. *)
Theorem file_fields_are_kept rt isWindows dirname e allFiles s j file :
  clean_env e (length allFiles) →
  distinct_shas allFiles →
  allFiles !! j = Some file →
  ∃ report r,
    benchmark rt isWindows dirname e allFiles s
      = (Ret report,
         add_events s (benchmark_events rt isWindows dirname e allFiles))
    ∧ length report = length allFiles
    ∧ report !! j = Some r
    ∧ ∀ k, k ∈ ["filename"; "originalSize"; "originalsha256"; "ppmSize";
                "ppmsha256"] →
        r !! k = file !! k ∧ JSON_object r !! k = JSON_object file !! k.
Proof.
  intros Hclean Hdistinct Hfile.
  destruct (clean_run_record rt isWindows dirname e allFiles s j file
              Hclean Hdistinct Hfile) as (report & Hrun & Hlen & Hr).
  exists report, (final_record rt isWindows e j file).
  split; [done|]. split; [done|]. split; [done|].
  intros k Hk. pose proof (final_kept rt isWindows e j file k Hk) as Hkept.
  split; [done|]. unfold JSON_object. by rewrite !lookup_omap, Hkept.
Qed.

(** X8 on the example file. *)
Lemma file_fields_are_kept_witness :
  let w := example_step (ok_call 100) (failed_call 3) (ok_call 100) "1000" in
  ∃ report r,
    (benchmark example_rt false "/app" (example_env w w w w)
       [example_file] sys0).1 = Ret report
    ∧ report !! 0%nat = Some r
    ∧ r !! "filename" = Some (VStr "a.png")
    ∧ r !! "originalSize" = Some (VNum (of_Z 900000)).
Proof.
  intros w.
  destruct (file_fields_are_kept example_rt false "/app"
              (example_env w w w w) [example_file] sys0 0 example_file)
    as (report & r & Hrun & _ & Hr & Hkeys).
  - apply example_env_clean; apply example_step_clean;
      auto with example.
  - apply example_file_alone.
  - reflexivity.
  - exists report, r. rewrite Hrun. split; [reflexivity|]. split; [exact Hr|].
    split.
    + rewrite (proj1 (Hkeys "filename" ltac:(apply list_elem_of_here))).
      reflexivity.
    + rewrite (proj1 (Hkeys "originalSize"
                        ltac:(apply list_elem_of_further,
                                list_elem_of_here))).
      reflexivity.
Defined.

(** X9. On a run whose commands all come back, the speed recorded for a
    restore is the size measured on the restored file over the recorded
    time in seconds, two binary64 divisions with no guard, whatever the
    time is, the sentinel -1 included. For the time 0 and an integer
    size the speed is an infinity, or NaN for the size 0, which the
    report prints as null. *)
Theorem recorded_restore_speed rt isWindows dirname e allFiles s j file :
  clean_env e (length allFiles) →
  distinct_shas allFiles →
  allFiles !! j = Some file →
  ∃ report r,
    benchmark rt isWindows dirname e allFiles s
      = (Ret report,
         add_events s (benchmark_events rt isWindows dirname e allFiles))
    ∧ report !! j = Some r
    ∧ ∀ p time_key speed_key,
        (p, time_key, speed_key)
          ∈ [(D04, "dTime0.4", "dSpeed0.4"); (D05, "dTime0.5", "dSpeed0.5")] →
        let size :=
          measured rt isWindows (stdout_of (size_probe (bench e p j))) in
        let time := recorded_ms (bench e p j) in
        prop r time_key = VNum (of_Z time)
        ∧ prop r speed_key
          = VNum (jsdiv (to_number rt size) (jsdiv (of_Z time) (of_Z 1000)))
        ∧ (∃ printed, JSON_value (prop r speed_key) = Some printed)
        ∧ ∀ n, to_number rt size = of_Z n →
            prop r speed_key
            = VNum (jsdiv (of_Z n) (jsdiv (of_Z time) (of_Z 1000)))
            ∧ (time = 0%Z →
               prop r speed_key
               = VNum (if bool_decide (n = 0)%Z then NaN
                       else inf_of (bool_decide (0 < n)%Z))
               ∧ JSON_value (prop r speed_key) = Some JNull).
Proof.
  intros Hclean Hdistinct Hfile.
  destruct (clean_run_record rt isWindows dirname e allFiles s j file
              Hclean Hdistinct Hfile) as (report & Hrun & _ & Hr).
  exists report, (final_record rt isWindows e j file).
  split; [done|]. split; [done|].
  intros p time_key speed_key Hkeys size time.
  assert (Hcases :
    (p, time_key, speed_key) = (D04, "dTime0.4", "dSpeed0.4")
    ∨ (p, time_key, speed_key) = (D05, "dTime0.5", "dSpeed0.5")).
  { apply elem_of_cons in Hkeys as [?|Hkeys]; [by left|].
    apply list_elem_of_singleton in Hkeys. by right. }
  assert (Hfacts : ∀ v,
    v = VNum (speed rt size (of_Z time)) →
    v = VNum (jsdiv (to_number rt size) (jsdiv (of_Z time) (of_Z 1000)))
    ∧ (∃ printed, JSON_value v = Some printed)
    ∧ ∀ n, to_number rt size = of_Z n →
        v = VNum (jsdiv (of_Z n) (jsdiv (of_Z time) (of_Z 1000)))
        ∧ (time = 0%Z →
           v = VNum (if bool_decide (n = 0)%Z then NaN
                     else inf_of (bool_decide (0 < n)%Z))
           ∧ JSON_value v = Some JNull)).
  { intros v ->. unfold speed, js_over. cbn [to_number].
    split; [reflexivity|]. split.
    - cbn [JSON_value]. destruct (jsdiv _ _); eauto.
    - intros n ->. split; [reflexivity|]. intros ->. split.
      + f_equal. apply speed_zero_time.
      + apply speed_zero_time_null. }
  destruct Hcases as [[= -> -> ->]|[= -> -> ->]].
  - rewrite final_dTime04. split; [by rewrite min_time_recorded|].
    apply Hfacts. by rewrite final_dSpeed04, min_time_recorded.
  - rewrite final_dTime05. split; [by rewrite min_time_recorded|].
    apply Hfacts. by rewrite final_dSpeed05, min_time_recorded.
Qed.

(** X9 on a file restored to 450,000 bytes in 100 ms: 4,500,000 bytes
    per second. *)
Lemma recorded_restore_speed_witness :
  let w := example_step (ok_call 100) (ok_call 100) (ok_call 100)
             du_450000 in
  ∃ report r,
    (benchmark example_rt false "/app" (example_env w w w w)
       [example_file] sys0).1 = Ret report
    ∧ report !! 0%nat = Some r
    ∧ prop r "dTime0.4" = VNum (of_Z 100)
    ∧ prop r "dSpeed0.4" = VNum (of_Z 4500000).
Proof.
  intros w.
  destruct (recorded_restore_speed example_rt false "/app"
              (example_env w w w w) [example_file] sys0 0 example_file)
    as (report & r & Hrun & Hr & Hkeys).
  - apply example_env_clean; apply example_step_clean; apply ok_call_returns.
  - apply example_file_alone.
  - reflexivity.
  - exists report, r. rewrite Hrun. split; [reflexivity|]. split; [exact Hr|].
    destruct (Hkeys D04 "dTime0.4" "dSpeed0.4") as (Htime & _ & _ & Hspeed).
    + apply list_elem_of_here.
    + split; [exact Htime|].
      destruct (Hspeed 450000%Z eq_refl) as [Hq _].
      rewrite Hq. f_equal. exact restore_speed_example.
Defined.


(* ================================================================== *)
(** * More on cleanList *)
(* ================================================================== *)

Section CleanListMore.
Variable sha256 : string → string.

(** [deduper] on a file that is not there: [fs.statSync] throws, before
    anything is hashed. *)
Lemma deduper_missing acc curr s :
  fs s !! curr = None →
  Utils.deduper sha256 acc curr s = (Throw (ENOENT curr), s).
Proof.
  intros Hcurr. unfold Utils.deduper, Utils.statSync_size.
  apply run_bind_throw, run_bind_throw. unfold read_file. by rewrite Hcurr.
Qed.

Lemma reduce_deduper_missing pre p post : ∀ acc s,
  Forall (λ q, is_Some (fs s !! q)) pre →
  fs s !! p = None →
  reduce (Utils.deduper sha256) (pre ++ p :: post) acc s
  = (Throw (ENOENT p), add_events s (EvHash <$> pre)).
Proof.
  induction pre as [|q pre IH]; intros acc s Hpre Hp; simpl.
  - rewrite add_events_nil. by apply run_bind_throw, deduper_missing.
  - apply list.Forall_cons in Hpre as [[bytes Hq] Hpre].
    rewrite (run_bind_ret _ _ _ _ _ (deduper_run sha256 acc q bytes s Hq)).
    rewrite IH by done. by rewrite add_events_app.
Qed.
End CleanListMore.

(** X10. A candidate that cannot be read stops [cleanList]: the call
    throws ENOENT for the first such file, having hashed the candidates
    before it and none after, and no list is returned. *)
Theorem cleanList_missing_file sha256 files pre p post s :
  candidates files = pre ++ p :: post →
  Forall (λ q, is_Some (fs s !! q)) pre →
  fs s !! p = None →
  Utils.cleanList sha256 files s
  = (Throw (ENOENT p), add_events s (EvHash <$> pre)).
Proof.
  intros Hcands Hpre Hp. unfold Utils.cleanList.
  fold (candidates files). rewrite Hcands.
  by apply reduce_deduper_missing.
Qed.

(** X10 on a list whose second image is gone. *)
Lemma cleanList_missing_file_witness :
  Utils.cleanList example_sha256
    ["/img/a.png"; "/img/notes.txt"; "/img/gone.png"; "/img/b.png"]
    example_sys
  = (Throw (ENOENT "/img/gone.png"),
     add_events example_sys (EvHash <$> ["/img/a.png"])).
Proof.
  apply (cleanList_missing_file example_sha256 _ ["/img/a.png"]
           "/img/gone.png" ["/img/b.png"]).
  - reflexivity.
  - constructor; [|constructor]. eexists. reflexivity.
  - reflexivity.
Defined.

Section Order.
Variable sha256 : string → string.
Variable content : string → option string.

Lemma fullname_of_entry p bytes :
  fullname_of (entry_of sha256 p bytes) = VStr p.
Proof. unfold fullname_of, entry_of, Utils.new_entry. by prop_simpl. Qed.

(** [deduper] appends: the records come in the order of their files. *)
Lemma dedup_from_order cands : ∀ acc,
  ∃ kept, kept `sublist_of` cands
    ∧ fullname_of <$> dedup_from sha256 content acc cands
      = (fullname_of <$> acc) ++ (VStr <$> kept).
Proof.
  induction cands as [|p rest IH]; intros acc; simpl.
  - exists []. split; [done|]. by rewrite app_nil_r.
  - destruct (content p) as [bytes|].
    + destruct (IH (dedup_step sha256 acc p bytes)) as (kept & Hsub & Heq).
      unfold dedup_step in *. case_bool_decide.
      * exists kept. split; [by apply sublist_cons|done].
      * destruct (List.find _ acc).
        -- exists kept. split; [by apply sublist_cons|done].
        -- exists (p :: kept). split; [by apply sublist_skip|].
           rewrite Heq, fmap_app, <- app_assoc. simpl.
           by rewrite fullname_of_entry.
    + exists []. split; [apply sublist_nil_l|]. by rewrite app_nil_r.
Qed.
End Order.

Lemma candidates_sublist files : candidates files `sublist_of` files.
Proof.
  unfold candidates. induction files as [|p files IH]; simpl; [done|].
  destruct (Utils.valid_extension p).
  - by apply sublist_skip.
  - by apply sublist_cons.
Qed.

(** X11. [cleanList] keeps the order of its input: the records are made
    from a sub-list of the files, in the order of the files, and each
    record has the four properties [fullname], [filename] (the base name
    of the path), [originalSize] and [originalsha256]. *)
Theorem cleanList_keeps_order sha256 files s :
  Forall (λ p, is_Some (fs s !! p)) (candidates files) →
  ∃ recs kept,
    Utils.cleanList sha256 files s
      = (Ret recs, add_events s (EvHash <$> candidates files))
    ∧ kept `sublist_of` files
    ∧ Forall2 (λ r p,
        ∃ bytes, fs s !! p = Some bytes ∧ bytes ≠ EmptyString
          ∧ r = Utils.new_entry p (of_nat (String.length bytes))
                  (sha256 bytes)
          ∧ prop r "fullname" = VStr p
          ∧ prop r "filename" = VStr (basename p)
          ∧ dom r = list_to_set ["fullname"; "filename"; "originalSize";
                                 "originalsha256"])
        recs kept.
Proof.
  intros Hcands.
  set (content := λ p, fs s !! p).
  destruct (dedup_from_order sha256 content (candidates files) [])
    as (kept & Hsub & Hnames).
  exists (dedup_from sha256 content [] (candidates files)), kept.
  split.
  { unfold Utils.cleanList. fold (candidates files).
    by apply reduce_deduper_run. }
  split; [etrans; [exact Hsub|apply candidates_sublist]|].
  pose proof (dedup_from_inv sha256 content (candidates files) [] [] Hcands
                (dedup_inv_nil sha256 content)) as (_ & Hfirst & _).
  simpl in Hnames.
  set (recs := dedup_from sha256 content [] (candidates files)) in *.
  clearbody recs. clear Hsub.
  revert kept Hnames. induction recs as [|r recs IH]; intros kept Hnames.
  - destruct kept; [constructor|done].
  - destruct kept as [|p kept]; [done|]. simpl in Hnames.
    injection Hnames as Hr Hnames.
    constructor.
    + destruct (Hfirst r (list_elem_of_here _ _))
        as (q & bytes & _ & Hq & Hbytes & ->).
      rewrite fullname_of_entry in Hr. injection Hr as ->.
      exists bytes. split; [done|]. split; [done|]. split; [done|].
      unfold entry_of. split; [apply prop_new_entry_fullname|].
      split; [apply prop_new_entry_filename|apply entry_of_dom].
    + apply IH; [|done]. intros r' Hr'. apply Hfirst.
      by apply list_elem_of_further.
Qed.

(** X11 on a folder listing with a text file and an image. *)
Lemma cleanList_keeps_order_witness :
  ∃ recs kept,
    Utils.cleanList example_sha256 ["/img/notes.txt"; "/img/a.png"]
      example_sys
    = (Ret recs, add_events example_sys (EvHash <$> ["/img/a.png"]))
    ∧ kept `sublist_of` ["/img/notes.txt"; "/img/a.png"]
    ∧ length recs = length kept.
Proof.
  destruct (cleanList_keeps_order example_sha256
              ["/img/notes.txt"; "/img/a.png"] example_sys)
    as (recs & kept & Hrun & Hsub & Hall).
  - constructor; [|constructor]. eexists. reflexivity.
  - exists recs, kept. split; [exact Hrun|]. split; [exact Hsub|].
    by eapply list.Forall2_length.
Defined.

Section Repeats.
Variable sha256 : string → string.
Variable content : string → option string.

Lemma dedup_from_app c1 c2 : ∀ acc,
  Forall (λ p, is_Some (content p)) c1 →
  dedup_from sha256 content acc (c1 ++ c2)
  = dedup_from sha256 content (dedup_from sha256 content acc c1) c2.
Proof.
  induction c1 as [|p c1 IH]; intros acc Hc1; simpl; [done|].
  apply list.Forall_cons in Hc1 as [[bytes Hp] Hc1]. rewrite Hp.
  by apply IH.
Qed.

(** A file already seen changes nothing. *)
Lemma dedup_from_seen seen acc cands :
  dedup_inv sha256 content seen acc →
  Forall (λ p, p ∈ seen ∧ is_Some (content p)) cands →
  dedup_from sha256 content acc cands = acc.
Proof.
  intros Hinv. induction cands as [|p cands IH]; intros Hcands; [done|].
  apply list.Forall_cons in Hcands as [[Hseen [bytes Hp]] Hcands].
  simpl. rewrite Hp.
  assert (Hstep : dedup_step sha256 acc p bytes = acc).
  { unfold dedup_step. case_bool_decide as Hempty; [done|].
    destruct (List.find _ acc) eqn:Hfind; [done|]. exfalso.
    destruct Hinv as (_ & _ & Hall).
    destruct (Hall p bytes Hseen Hp Hempty) as (r & Hr & Hkey).
    rewrite find_None_all in Hfind. specialize (Hfind r Hr).
    by apply bool_decide_eq_false in Hfind. }
  rewrite Hstep. by apply IH.
Qed.
End Repeats.

Lemma candidates_app files again :
  candidates (files ++ again) = candidates files ++ candidates again.
Proof. apply List.filter_app. Qed.

Lemma candidates_elem p files :
  p ∈ candidates files ↔ p ∈ files ∧ Utils.valid_extension p = true.
Proof.
  unfold candidates. rewrite !list_elem_of_In. apply List.filter_In.
Qed.

(** X12. Files that are listed again change no record: [cleanList] of a
    list followed by files of that list returns the records of the list,
    though it hashes the repeated images again. *)
Theorem cleanList_ignores_repeats sha256 files again s :
  Forall (λ p, is_Some (fs s !! p)) (candidates files) →
  (∀ p, p ∈ again → p ∈ files) →
  ∃ recs,
    Utils.cleanList sha256 files s
      = (Ret recs, add_events s (EvHash <$> candidates files))
    ∧ Utils.cleanList sha256 (files ++ again) s
      = (Ret recs,
         add_events s (EvHash <$> candidates files ++ candidates again)).
Proof.
  intros Hcands Hagain.
  set (content := λ p, fs s !! p).
  exists (dedup_from sha256 content [] (candidates files)).
  assert (Hall : Forall (λ p, p ∈ candidates files ∧ is_Some (content p))
                   (candidates again)).
  { apply list.Forall_forall. intros p Hp.
    apply candidates_elem in Hp as [Hp Hvalid].
    assert (Hin : p ∈ candidates files)
      by (apply candidates_elem; split; [by apply Hagain|done]).
    split; [done|].
    by apply (proj1 (list.Forall_forall _ _) Hcands). }
  split.
  - unfold Utils.cleanList. fold (candidates files).
    by apply reduce_deduper_run.
  - unfold Utils.cleanList. fold (candidates (files ++ again)).
    rewrite candidates_app, reduce_deduper_run.
    + fold content. rewrite dedup_from_app by done.
      rewrite (dedup_from_seen sha256 content (candidates files)); [done| |done].
      apply (dedup_from_inv sha256 content (candidates files) [] []);
        [done|apply dedup_inv_nil].
    + apply list.Forall_app. split; [done|].
      eapply list.Forall_impl; [exact Hall|]. by intros p [_ ?].
Qed.

(** X12 on a listing read twice. *)
Lemma cleanList_ignores_repeats_witness :
  ∃ recs,
    Utils.cleanList example_sha256 ["/img/a.png"] example_sys
      = (Ret recs, add_events example_sys (EvHash <$> ["/img/a.png"]))
    ∧ Utils.cleanList example_sha256 (["/img/a.png"] ++ ["/img/a.png"])
        example_sys
      = (Ret recs,
         add_events example_sys
           (EvHash <$> ["/img/a.png"] ++ ["/img/a.png"])).
Proof.
  apply (cleanList_ignores_repeats example_sha256 ["/img/a.png"]
           ["/img/a.png"] example_sys).
  - constructor; [|constructor]. eexists. reflexivity.
  - intros p Hp. exact Hp.
Defined.


(* ================================================================== *)
(** * toTestbed *)
(* ================================================================== *)

(** [l.map(f)], one element at a time. *)
Lemma map_M_cons_ret {A B} (f : A → M B) x l s y s1 :
  map_M f [x] s = (Ret [y], s1) →
  map_M f (x :: l) s = (ys ← map_M f l; ret (y :: ys)) s1.
Proof.
  simpl. unfold mbind, M_bind, bind, ret.
  destruct (f x s) as [[y'|err|] s1']; [|done..]. by intros [= -> ->].
Qed.

Lemma map_M_cons_throw {A B} (f : A → M B) x l s err s1 :
  map_M f [x] s = (Throw err, s1) →
  map_M f (x :: l) s = (Throw err, s1).
Proof.
  simpl. unfold mbind, M_bind, bind, ret.
  destruct (f x s) as [[y'|err'|] s1']; [done| |done]. by intros [= -> ->].
Qed.

Section Testbed.
Variable sha256 : string → string.
Variable dirname : string.

Lemma testbed_step_folders m p :
  folders (testbed_step dirname m p) = folders m.
Proof.
  unfold testbed_step. destruct (m !! p); [|done]. by case_bool_decide.
Qed.

Lemma testbed_step_keeps m p q :
  is_Some (m !! q) → is_Some (testbed_step dirname m p !! q).
Proof.
  intros Hq. unfold testbed_step. destruct (m !! p) as [bytes|] eqn:Hp; [|done].
  case_bool_decide as Hdst.
  - rewrite lookup_written. by destruct (decide _).
  - destruct (decide (q = testbed_path dirname p)) as [->|Hne].
    + rewrite lookup_linked_eq, Hp. eauto.
    + by rewrite lookup_linked_ne.
Qed.

(** The image is linked when its place in the testbed is free, and
    copied over the file that is there when it is not. *)
Lemma toTestbed_image (image : object) p bytes s :
  prop image "fullname" = VStr p →
  prop image "filename" = VStr (basename p) →
  fs s !! p = Some bytes →
  parent (testbed_path dirname p) ∈ folders (fs s) →
  let dst := testbed_path dirname p in
  Utils.toTestbed dirname [image] s
  = (Ret [delete "fullname" image],
     {| fs := testbed_step dirname (fs s) p;
        trace := trace s
                 ++ (if bool_decide (is_Some (fs s !! dst))
                     then [EvLink p dst; EvCopy p dst]
                     else [EvLink p dst]) |}).
Proof.
  intros Hfull Hname Hp Hdir dst. unfold Utils.toTestbed. cbn [map_M].
  rewrite Hfull, Hname, join_two. fold (testbed_path dirname p). fold dst.
  assert (Hlinked :
    try_catch (Utils.linkSync (VStr p) dst)
      (λ _, Utils.copyFileSync (VStr p) dst) s
    = (Ret tt,
       {| fs := testbed_step dirname (fs s) p;
          trace := trace s
                   ++ (if bool_decide (is_Some (fs s !! dst))
                       then [EvLink p dst; EvCopy p dst]
                       else [EvLink p dst]) |})).
  { unfold testbed_step. fold dst. rewrite Hp.
    destruct (fs s !! dst) as [old|] eqn:Hdst.
    - rewrite bool_decide_true by eauto.
      unfold try_catch, Utils.linkSync.
      assert (Hlink :
        (_ ← emit (EvLink p dst); _ ← read_file p;
         there ← exists_file dst;
         if there : bool then throw (EEXIST dst) else link_file p dst) s
        = (Throw (EEXIST dst), add_events s [EvLink p dst])).
      { erewrite run_bind_ret by apply emit_run.
        erewrite run_bind_ret by (by apply read_file_run).
        erewrite run_bind_ret by reflexivity.
        cbn [fs add_events]. rewrite Hdst, bool_decide_true by eauto.
        reflexivity. }
      rewrite Hlink. unfold Utils.copyFileSync.
      erewrite run_bind_ret by apply emit_run.
      erewrite run_bind_ret by (by apply read_file_run).
      unfold write_file. cbn [fs trace add_events].
      rewrite bool_decide_true by done.
      by rewrite <- app_assoc.
    - rewrite bool_decide_false by (by intros [? ?]).
      unfold try_catch.
      by rewrite (linkSync_run p dst bytes s Hp Hdst Hdir). }
  erewrite run_bind_ret.
  2:{ erewrite run_bind_ret by reflexivity.
      erewrite run_bind_ret by exact Hlinked. reflexivity. }
  reflexivity.
Qed.

(** [toTestbed] on records whose images are there: one step for each
    image, in order. *)
Lemma toTestbed_run files paths : ∀ s,
  Forall2 (λ (image : object) p,
             prop image "fullname" = VStr p
             ∧ prop image "filename" = VStr (basename p)) files paths →
  (∀ p, p ∈ paths →
     is_Some (fs s !! p)
     ∧ parent (testbed_path dirname p) ∈ folders (fs s)) →
  ∃ s',
    Utils.toTestbed dirname files s
    = (Ret (delete "fullname" <$> files), s')
    ∧ fs s' = foldl (testbed_step dirname) (fs s) paths.
Proof.
  intros s Hfiles. revert s.
  induction Hfiles as [|image p files paths [Hfull Hname] _ IH];
    intros s Hthere.
  - by exists s.
  - destruct (Hthere p (list_elem_of_here _ _)) as [[bytes Hp] Hdir].
    pose proof (toTestbed_image image p bytes s Hfull Hname Hp Hdir)
      as Hstep.
    cbv zeta in Hstep.
    set (s1 := {| fs := testbed_step dirname (fs s) p; trace := _ |})
      in Hstep.
    destruct (IH s1) as (s' & Hrest & Hfs).
    { intros q Hq. unfold s1. cbn [fs].
      destruct (Hthere q (list_elem_of_further _ _ _ Hq)) as [Hsome Hd].
      split; [by apply testbed_step_keeps|].
      by rewrite testbed_step_folders. }
    exists s'. split.
    + unfold Utils.toTestbed in *. rewrite (map_M_cons_ret _ _ _ _ _ _ Hstep).
      by rewrite (run_bind_ret _ _ _ _ _ Hrest).
    + by rewrite Hfs.
Qed.
End Testbed.

Section FirstTo.
Variable dirname : string.

Lemma first_to_Some dst paths p :
  first_to dirname dst paths = Some p →
  p ∈ paths ∧ testbed_path dirname p = dst.
Proof.
  unfold first_to. intros H. apply find_some in H as [Hin Hp].
  split; [by apply list_elem_of_In|]. by apply bool_decide_eq_true in Hp.
Qed.

Lemma first_to_None dst paths :
  first_to dirname dst paths = None ↔ dst ∉ testbed_path dirname <$> paths.
Proof.
  unfold first_to. induction paths as [|p paths IH]; simpl.
  - split; [intros _; apply not_elem_of_nil|done].
  - case_bool_decide as Hp.
    + split; [done|]. intros H. exfalso. apply H. rewrite <- Hp.
      apply list_elem_of_here.
    + rewrite IH, not_elem_of_cons.
      split; [intros ?; split; [congruence|done]|by intros [_ ?]].
Qed.

Lemma first_to_snoc dst paths p :
  first_to dirname dst (paths ++ [p])
  = match first_to dirname dst paths with
    | Some x => Some x
    | None => if bool_decide (testbed_path dirname p = dst) then Some p
              else None
    end.
Proof.
  unfold first_to. induction paths as [|q paths IH]; simpl; [done|].
  destruct (bool_decide (testbed_path dirname q = dst)); [done|apply IH].
Qed.

Lemma first_to_rev_snoc dst paths p :
  first_to dirname dst (rev (paths ++ [p]))
  = if bool_decide (testbed_path dirname p = dst) then Some p
    else first_to dirname dst (rev paths).
Proof. by rewrite rev_app_distr. Qed.

Lemma first_to_rev_None dst paths :
  first_to dirname dst (rev paths) = None
  ↔ first_to dirname dst paths = None.
Proof.
  rewrite !first_to_None.
  split; intros H Hin; apply H.
  - apply list_elem_of_fmap in Hin as (x & -> & Hx).
    apply list_elem_of_fmap. exists x. split; [done|].
    apply list_elem_of_In, in_rev. rewrite rev_involutive.
    by apply list_elem_of_In.
  - apply list_elem_of_fmap in Hin as (x & -> & Hx).
    apply list_elem_of_fmap. exists x. split; [done|].
    apply list_elem_of_In, in_rev. by apply list_elem_of_In.
Qed.

(** The first and the last image of a place, in a list cut at an image. *)
Lemma first_to_middle pre p post :
  testbed_path dirname p ∉ testbed_path dirname <$> pre →
  first_to dirname (testbed_path dirname p) (pre ++ p :: post) = Some p.
Proof.
  intros Hpre. unfold first_to.
  induction pre as [|q pre IH]; simpl.
  - by rewrite bool_decide_true.
  - rewrite fmap_cons in Hpre. apply not_elem_of_cons in Hpre as [Hq Hpre].
    rewrite bool_decide_false by done. by apply IH.
Qed.

Lemma first_to_rev_middle pre p post :
  testbed_path dirname p ∉ testbed_path dirname <$> post →
  first_to dirname (testbed_path dirname p) (rev (pre ++ p :: post)) = Some p.
Proof.
  intros Hpost. rewrite rev_app_distr. simpl. rewrite <- app_assoc. simpl.
  apply first_to_middle. intros Hin. apply Hpost.
  apply list_elem_of_fmap in Hin as (x & Hx & Hin).
  apply list_elem_of_fmap. exists x. split; [done|].
  apply list_elem_of_In, in_rev. by apply list_elem_of_In.
Qed.
End FirstTo.

Section TestbedInvariant.
Variable dirname : string.
Variable m0 : disk.

Lemma lookup_first_name (m : disk) q : m !! q = bytes_at m !! first_name m q.
Proof. reflexivity. Qed.

Lemma first_name_linked m p dst q :
  first_name (linked m p dst) q
  = if decide (q = dst) then first_name m p else first_name m q.
Proof.
  unfold first_name at 1, linked. cbn [link_of].
  destruct (decide (q = dst)) as [->|Hne].
  - by rewrite lookup_insert_eq.
  - by rewrite lookup_insert_ne.
Qed.

Lemma NoDup_fmap_eq {A B} (f : A → B) (l : list A) x y :
  NoDup (f <$> l) → x ∈ l → y ∈ l → f x = f y → x = y.
Proof.
  intros Hnd Hx Hy Heq.
  apply list_elem_of_lookup in Hx as [i Hi].
  apply list_elem_of_lookup in Hy as [j Hj].
  assert (i = j) as ->; [|congruence].
  apply (NoDup_lookup (f <$> l) i j (f x)); [done|..].
  - by rewrite list_lookup_fmap, Hi.
  - by rewrite list_lookup_fmap, Hj, Heq.
Qed.

Lemma testbed_inv_fold paths :
  (∀ p, p ∈ paths →
     is_Some (m0 !! p) ∧ m0 !! testbed_path dirname p = None) →
  (∀ p q, p ∈ paths → q ∈ paths → testbed_path dirname q ≠ p) →
  NoDup (first_name m0 <$> paths) →
  testbed_inv dirname m0 paths (foldl (testbed_step dirname) m0 paths).
Proof.
  induction paths as [|p pre IH] using rev_ind; intros Hsrc Hout Hnd.
  - split; [done|]. split; [done|]. split; [done|]. done.
  - rewrite foldl_app. simpl.
    set (m := foldl (testbed_step dirname) m0 pre) in *.
    destruct IH as (I1 & I2 & I3 & I4).
    { intros q Hq. apply Hsrc, elem_of_app. by left. }
    { intros q1 q2 Hq1 Hq2. apply Hout; apply elem_of_app; by left. }
    { rewrite fmap_app in Hnd. by apply list.NoDup_app in Hnd as [? _]. }
    set (dst := testbed_path dirname p).
    assert (Hp : p ∈ pre ++ [p])
      by (apply elem_of_app; right; apply list_elem_of_here).
    assert (Hpre : ∀ q, q ∈ pre → q ∈ pre ++ [p])
      by (intros q Hq; apply elem_of_app; by left).
    destruct (Hsrc p Hp) as [[bytes Hbytes] Hfree]. fold dst in Hfree.
    (* two images are two files *)
    assert (Hfiles : ∀ x y, x ∈ pre ++ [p] → y ∈ pre ++ [p] →
              first_name m0 x = first_name m0 y → x = y)
      by (intros x y; by apply NoDup_fmap_eq).
    assert (Hnew : p ∉ pre).
    { intros Hin. rewrite fmap_app in Hnd.
      apply list.NoDup_app in Hnd as (_ & Hnd & _).
      apply (Hnd (first_name m0 p)).
      - apply list_elem_of_fmap. eauto.
      - apply list_elem_of_here. }
    (* the image is read as it was *)
    assert (HA : first_name m p = first_name m0 p).
    { apply I1, first_to_None. intros Hin.
      apply list_elem_of_fmap in Hin as (q & Hq & Hin).
      eapply (Hout p q); [done|by apply Hpre|done]. }
    assert (HB : m !! p = Some bytes).
    { rewrite lookup_first_name, HA, I3; [exact Hbytes|].
      intros d pf Hpf Heq. apply first_to_Some in Hpf as [Hpf _].
      apply Hnew. by rewrite (Hfiles p pf Hp (Hpre _ Hpf) Heq). }
    unfold testbed_step. fold dst. rewrite HB.
    destruct (first_to dirname dst pre) as [pf|] eqn:Hfirst.
    + (* the place is taken: a copy *)
      assert (∃ pl, first_to dirname dst (rev pre) = Some pl) as [pl Hlast].
      { destruct (first_to dirname dst (rev pre)) as [pl|] eqn:Hl; [eauto|].
        apply (proj1 (first_to_rev_None _ _ _)) in Hl. congruence. }
      assert (Hthere : is_Some (m !! dst)).
      { rewrite (I4 dst pl Hlast). apply Hsrc, Hpre.
        apply first_to_Some in Hlast as [Hin _].
        apply list_elem_of_In, in_rev in Hin. by apply list_elem_of_In. }
      rewrite bool_decide_true by done.
      split; [|split; [|split]].
      * intros q Hq. rewrite first_name_written. apply I1.
        rewrite first_to_snoc in Hq.
        by destruct (first_to dirname q pre).
      * intros d x Hx. rewrite first_name_written. apply I2.
        rewrite first_to_snoc in Hx.
        destruct (first_to dirname d pre) as [x'|] eqn:Hd; [done|].
        case_bool_decide as Hdp; [|done]. fold dst in Hdp. congruence.
      * intros c Hc. unfold written. cbn [bytes_at].
        rewrite lookup_insert_ne.
        -- apply I3. intros d x Hx. apply (Hc d).
           by rewrite first_to_snoc, Hx.
        -- rewrite (I2 dst pf Hfirst). intros Heq.
           apply (Hc dst pf); [by rewrite first_to_snoc, Hfirst|done].
      * intros d x Hx. rewrite first_to_rev_snoc in Hx.
        case_bool_decide as Hdp.
        -- injection Hx as <-. fold dst in Hdp. subst d.
           rewrite lookup_written_eq. by rewrite Hbytes.
        -- fold dst in Hdp. rewrite lookup_written.
           rewrite decide_False; [by apply I4|].
           destruct (first_to dirname d pre) as [pf'|] eqn:Hd.
           2:{ apply (proj2 (first_to_rev_None _ _ _)) in Hd. congruence. }
           rewrite (I2 d pf' Hd), (I2 dst pf Hfirst). intros Heq.
           apply first_to_Some in Hd as [Hin' Hd'].
           apply first_to_Some in Hfirst as [Hin Hdst'].
           apply Hdp. rewrite <- Hd', <- Hdst'.
           by rewrite (Hfiles pf' pf (Hpre _ Hin') (Hpre _ Hin) Heq).
    + (* the place is free: a link *)
      assert (Hnone : m !! dst = None).
      { rewrite lookup_first_name, (I1 dst Hfirst), I3; [exact Hfree|].
        intros d pf Hpf Heq. apply first_to_Some in Hpf as [Hpf _].
        destruct (Hsrc pf (Hpre _ Hpf)) as [[b Hb] _].
        rewrite lookup_first_name, <- Heq in Hb.
        rewrite lookup_first_name in Hfree. congruence. }
      rewrite bool_decide_false by (rewrite Hnone; by intros [? ?]).
      split; [|split; [|split]].
      * intros q Hq. rewrite first_to_snoc in Hq.
        destruct (first_to dirname q pre) eqn:Hqpre; [done|].
        case_bool_decide as Hdp; [done|]. fold dst in Hdp.
        rewrite first_name_linked, decide_False by done. by apply I1.
      * intros d x Hx. rewrite first_to_snoc in Hx.
        rewrite first_name_linked.
        destruct (first_to dirname d pre) as [x'|] eqn:Hd.
        -- injection Hx as <-. rewrite decide_False by congruence.
           by apply I2.
        -- case_bool_decide as Hdp; [|done]. injection Hx as <-.
           fold dst in Hdp. by rewrite decide_True.
      * intros c Hc. unfold linked. cbn [bytes_at]. apply I3.
        intros d x Hx. apply (Hc d). by rewrite first_to_snoc, Hx.
      * intros d x Hx. rewrite first_to_rev_snoc in Hx.
        case_bool_decide as Hdp.
        -- injection Hx as <-. fold dst in Hdp. subst d.
           by rewrite lookup_linked_eq, HB.
        -- fold dst in Hdp. rewrite lookup_linked_ne by done. by apply I4.
Qed.
End TestbedInvariant.

(** When no two images share a name, nothing is overwritten: a path
    that is no place of the testbed reads as before. *)
Lemma testbed_inv_frame dirname m0 paths m :
  testbed_inv dirname m0 paths m →
  NoDup (first_name m0 <$> paths) →
  NoDup (testbed_path dirname <$> paths) →
  ∀ q, q ∉ testbed_path dirname <$> paths → m !! q = m0 !! q.
Proof.
  intros (I1 & I2 & I3 & I4) Hnd Hplaces q Hq.
  rewrite lookup_first_name, (I1 q) by (by apply first_to_None).
  destruct (decide (first_name m0 q ∈ first_name m0 <$> paths))
    as [Hin|Hnotin].
  - apply list_elem_of_fmap in Hin as (p & Hc & Hp).
    pose proof Hp as Hsplit.
    apply list_elem_of_split in Hsplit as (pre & post & ->).
    rewrite fmap_app, fmap_cons in Hplaces.
    apply list.NoDup_app in Hplaces as (_ & Hpre & Hpost).
    apply list.NoDup_cons in Hpost as [Hpost _].
    assert (Hpre' : testbed_path dirname p ∉ testbed_path dirname <$> pre).
    { intros Hin. apply (Hpre _ Hin). apply list_elem_of_here. }
    rewrite Hc, <- (I2 (testbed_path dirname p) p)
      by (by apply first_to_middle).
    rewrite <- lookup_first_name.
    rewrite (I4 (testbed_path dirname p) p)
      by (by apply first_to_rev_middle).
    by rewrite (lookup_first_name m0 q), Hc.
  - apply I3. intros d pf Hpf Heq. apply Hnotin.
    apply first_to_Some in Hpf as [Hpf _].
    apply list_elem_of_fmap. eauto.
Qed.



(** X14. When the image of a record is gone, the link fails, the copy
    that is tried in its place fails too, and [toTestbed] throws the
    ENOENT of the copy: the records after it are not reached. *)
Theorem toTestbed_missing_image dirname (image : object) p name rest s :
  prop image "fullname" = VStr p →
  prop image "filename" = VStr name →
  fs s !! p = None →
  let dst := join_strings [Utils.imgFolder dirname; name] in
  Utils.toTestbed dirname (image :: rest) s
  = (Throw (ENOENT p), add_events s [EvLink p dst; EvCopy p dst]).
Proof.
  intros Hfull Hname Hp dst. apply map_M_cons_throw.
  unfold Utils.toTestbed. cbn [map_M]. rewrite Hfull, Hname, join_two.
  fold dst. apply run_bind_throw.
  erewrite run_bind_ret by reflexivity.
  apply run_bind_throw. unfold try_catch, Utils.linkSync.
  assert (Hlink :
    (_ ← emit (EvLink p dst); _ ← read_file p;
     there ← exists_file dst;
     if there : bool then throw (EEXIST dst) else link_file p dst) s
    = (Throw (ENOENT p), add_events s [EvLink p dst])).
  { erewrite run_bind_ret by apply emit_run.
    apply run_bind_throw. unfold read_file. cbn [fs add_events].
    by rewrite Hp. }
  rewrite Hlink. unfold Utils.copyFileSync.
  erewrite run_bind_ret by apply emit_run.
  rewrite add_events_app. apply run_bind_throw. unfold read_file.
  cbn [fs add_events]. by rewrite Hp.
Qed.

(** X14 on a record whose image was removed after it was hashed. *)
Lemma toTestbed_missing_image_witness :
  Utils.toTestbed "/app"
    [entry_of example_sha256 "/img/gone.png" "bytes it had"] example_sys
  = (Throw (ENOENT "/img/gone.png"),
     add_events example_sys
       [EvLink "/img/gone.png" "/app/img/gone.png";
        EvCopy "/img/gone.png" "/app/img/gone.png"]).
Proof.
  apply (toTestbed_missing_image "/app"
           (entry_of example_sha256 "/img/gone.png" "bytes it had")
           "/img/gone.png" "gone.png" [] example_sys); reflexivity.
Defined.

(* ================================================================== *)
(** * normalizeToPPM and getPPMStatistics *)
(* ================================================================== *)

Lemma for_each_app {A} (body : A → M unit) (l k : list A) s s1 :
  for_each body l s = (Ret tt, s1) →
  for_each body (l ++ k) s = for_each body k s1.
Proof.
  revert s. induction l as [|x l IH]; intros s Hl; simpl in *.
  - by injection Hl as ->.
  - unfold mbind, M_bind, bind in *.
    destruct (body x s) as [[[]|err|] s2]; [|done..]. by apply IH.
Qed.

Section Normalize.
Variable dirname : string.

(** The files that are not PPM files: a conversion is started for each,
    in order, and nothing is written. *)
Lemma normalize_loop_run files names : ∀ s,
  Forall2 (λ (file : object) name,
             prop file "filename" = VStr name
             ∧ toLowerCase (extname name) ≠ ".ppm") files names →
  for_each (λ file : object,
      currentFile ← join [VStr (Utils.imgFolder dirname);
                          prop file "filename"];
      ext ← extname_of (prop file "filename");
      if bool_decide (toLowerCase ext = ".ppm") then
        ppm ← Utils.member (prop file "filename") "ppm";
        newFile ← join [VStr (Utils.ppmTempFolder dirname); ppm];
        Utils.copyFileSync (VStr currentFile) newFile
      else Utils.convert dirname currentFile) files s
  = (Ret tt, add_events s (conversion dirname <$> names)).
Proof.
  intros s Hfiles. revert s.
  induction Hfiles as [|file name files names [Hname Hext] _ IH]; intros s.
  - by rewrite add_events_nil.
  - cbn [for_each]. rewrite Hname, join_two.
    erewrite run_bind_ret.
    2:{ erewrite run_bind_ret by reflexivity. cbn [extname_of].
        erewrite run_bind_ret by reflexivity.
        rewrite bool_decide_false by done.
        unfold Utils.convert. rewrite join_two.
        erewrite run_bind_ret by reflexivity. apply emit_run. }
    rewrite IH. by rewrite add_events_app.
Qed.
End Normalize.

(** X15. For files none of which is a PPM file, [normalizeToPPM] starts
    one conversion for each, in the order of the list, and returns the
    list it was given. It waits for no conversion and writes nothing
    itself: the file system is as it was when it returns. *)
Theorem normalizeToPPM_starts_conversions dirname files names s :
  Forall2 (λ (file : object) name,
             prop file "filename" = VStr name
             ∧ toLowerCase (extname name) ≠ ".ppm") files names →
  ∃ s',
    Utils.normalizeToPPM dirname files s = (Ret files, s')
    ∧ fs s' = fs s
    ∧ trace s' = trace s ++ (conversion dirname <$> names).
Proof.
  intros Hfiles. exists (add_events s (conversion dirname <$> names)).
  split; [|done]. unfold Utils.normalizeToPPM.
  erewrite run_bind_ret by (by apply normalize_loop_run). reflexivity.
Qed.

(** X15 on one PNG image on a machine without its PPM rendering. *)
Lemma normalizeToPPM_starts_conversions_witness :
  let file : object := <["filename" := VStr "a.png"]> ∅ in
  ∃ s',
    Utils.normalizeToPPM "/app" [file] sys0 = (Ret [file], s')
    ∧ fs s' = fs sys0
    ∧ trace s' = [EvGmWrite "/app/img/a.png" "/app/tmp/ppm/a.png.ppm"]
    ∧ fs s' !! "/app/tmp/ppm/a.png.ppm" = None.
Proof.
  intros file.
  destruct (normalizeToPPM_starts_conversions "/app" [file] ["a.png"] sys0)
    as (s' & Hrun & Hfs & Htrace).
  - constructor; [|constructor]. split; [reflexivity|discriminate].
  - exists s'. split; [exact Hrun|]. split; [exact Hfs|].
    split; [exact Htrace|]. rewrite Hfs. reflexivity.
Defined.

(** X16. A PPM file anywhere in the list stops [normalizeToPPM]: the
    conversions of the files before it are started, then reading the
    property [ppm] of its name gives [undefined] and [path.join] throws. *)
Theorem normalizeToPPM_stops_at_ppm dirname before names file name after s :
  Forall2 (λ (f : object) n,
             prop f "filename" = VStr n
             ∧ toLowerCase (extname n) ≠ ".ppm") before names →
  prop file "filename" = VStr name →
  toLowerCase (extname name) = ".ppm" →
  Utils.normalizeToPPM dirname (before ++ file :: after) s
  = (Throw (TypeError "The path argument must be of type string"),
     add_events s (conversion dirname <$> names)).
Proof.
  intros Hbefore Hname Hext. unfold Utils.normalizeToPPM.
  apply run_bind_throw.
  erewrite for_each_app by (by apply normalize_loop_run).
  cbn [for_each]. apply run_bind_throw.
  rewrite Hname, join_two.
  erewrite run_bind_ret by reflexivity. cbn [extname_of].
  erewrite run_bind_ret by reflexivity.
  rewrite Hext, bool_decide_true by done. cbn [Utils.member].
  erewrite run_bind_ret by reflexivity.
  unfold string_prop. rewrite bool_decide_false by done.
  by apply run_bind_throw.
Qed.

(** X16 on a PNG image followed by a PPM image. *)
Lemma normalizeToPPM_stops_at_ppm_witness :
  let png : object := <["filename" := VStr "a.png"]> ∅ in
  let ppm : object := <["filename" := VStr "b.PPM"]> ∅ in
  Utils.normalizeToPPM "/app" ([png] ++ ppm :: [png]) sys0
  = (Throw (TypeError "The path argument must be of type string"),
     add_events sys0 (conversion "/app" <$> ["a.png"])).
Proof.
  intros png ppm.
  apply (normalizeToPPM_stops_at_ppm "/app" [png] ["a.png"] ppm "b.PPM"
           [png] sys0).
  - constructor; [|constructor]. split; [reflexivity|discriminate].
  - reflexivity.
  - reflexivity.
Defined.

Section Statistics.
Variable rt : builtins.
Variable sha256 : string → string.
Variable dirname : string.

Lemma getPPMStatistics_file (file : object) name ppm s :
  prop file "filename" = VStr name →
  fs s !! ppm_path dirname name = Some ppm →
  Utils.getPPMStatistics rt sha256 dirname [file] s
  = (Ret [with_statistics sha256 dirname name ppm file],
     add_events s [EvHash (ppm_path dirname name)]).
Proof.
  intros Hname Hppm. unfold Utils.getPPMStatistics. cbn [map_M].
  rewrite Hname. cbn [js_plus to_string]. rewrite join_two.
  fold (ppm_path dirname name).
  erewrite run_bind_ret; [reflexivity|].
  erewrite run_bind_ret by reflexivity.
  unfold Utils.statSync_size, Utils.sha256File.
  erewrite run_bind_ret.
  2:{ erewrite run_bind_ret by (by apply read_file_run). reflexivity. }
  erewrite run_bind_ret.
  2:{ erewrite run_bind_ret by apply emit_run.
      erewrite run_bind_ret by (by apply read_file_run). reflexivity. }
  reflexivity.
Qed.

Lemma getPPMStatistics_file_missing (file : object) name rest s :
  prop file "filename" = VStr name →
  fs s !! ppm_path dirname name = None →
  Utils.getPPMStatistics rt sha256 dirname (file :: rest) s
  = (Throw (ENOENT (ppm_path dirname name)), s).
Proof.
  intros Hname Hppm. apply map_M_cons_throw.
  unfold Utils.getPPMStatistics. cbn [map_M].
  rewrite Hname. cbn [js_plus to_string]. rewrite join_two.
  fold (ppm_path dirname name).
  apply run_bind_throw.
  erewrite run_bind_ret by reflexivity.
  apply run_bind_throw. unfold Utils.statSync_size.
  apply run_bind_throw. unfold read_file. by rewrite Hppm.
Qed.

Lemma getPPMStatistics_run files renderings : ∀ s,
  Forall2 (λ (file : object) (r : string * string),
             prop file "filename" = VStr r.1
             ∧ fs s !! ppm_path dirname r.1 = Some r.2) files renderings →
  Utils.getPPMStatistics rt sha256 dirname files s
  = (Ret (zip_with (λ file r, with_statistics sha256 dirname r.1 r.2 file)
            files renderings),
     add_events s (EvHash <$> (ppm_path dirname <$> renderings.*1))).
Proof.
  intros s Hfiles. revert renderings s Hfiles.
  induction files as [|file files IH]; intros renderings s Hfiles.
  - apply Forall2_nil_inv_l in Hfiles as ->. simpl.
    by rewrite add_events_nil.
  - apply Forall2_cons_inv_l in Hfiles
      as ([name ppm] & renderings' & [Hname Hppm] & Hfiles & ->).
    simpl in Hname, Hppm.
    unfold Utils.getPPMStatistics in *.
    rewrite (map_M_cons_ret _ _ _ _ _ _
               (getPPMStatistics_file file name ppm s Hname Hppm)).
    rewrite (run_bind_ret _ _ _ _ _ (IH renderings' (add_events s _) Hfiles)).
    simpl. unfold ret. by rewrite add_events_app.
Qed.
End Statistics.

Lemma with_statistics_frame sha256 dirname name ppm (file : object) k :
  k ∉ ["ppmFile"; "ppmSize"; "ppmsha256"] →
  with_statistics sha256 dirname name ppm file !! k = file !! k.
Proof.
  intros Hk. repeat (apply not_elem_of_cons in Hk as [? Hk]).
  unfold with_statistics. by rewrite !lookup_insert_ne.
Qed.

(** X17. When the PPM rendering of every file is in place,
    [getPPMStatistics] returns one object for each file, in order: the
    file with three more properties, the path of the rendering, its size
    and its digest. It hashes each rendering once and changes no file. *)
Theorem getPPMStatistics_adds_three rt sha256 dirname files renderings s :
  Forall2 (λ (file : object) (r : string * string),
             prop file "filename" = VStr r.1
             ∧ fs s !! ppm_path dirname r.1 = Some r.2) files renderings →
  ∃ out,
    Utils.getPPMStatistics rt sha256 dirname files s
    = (Ret out,
       add_events s (EvHash <$> (ppm_path dirname <$> renderings.*1)))
    ∧ length out = length files
    ∧ ∀ i file name ppm,
        files !! i = Some file → renderings !! i = Some (name, ppm) →
        ∃ o, out !! i = Some o
          ∧ prop o "ppmFile" = VStr (ppm_path dirname name)
          ∧ prop o "ppmSize" = VNum (of_nat (String.length ppm))
          ∧ prop o "ppmsha256" = VStr (sha256 ppm)
          ∧ ∀ k, k ∉ ["ppmFile"; "ppmSize"; "ppmsha256"] →
              o !! k = file !! k.
Proof.
  intros Hfiles. eexists. split; [by apply getPPMStatistics_run|].
  split.
  - rewrite length_zip_with. apply Forall2_length in Hfiles. lia.
  - intros i file name ppm Hfile Hr.
    exists (with_statistics sha256 dirname name ppm file).
    split; [by rewrite lookup_zip_with, Hfile, Hr|].
    unfold with_statistics.
    split; [by prop_simpl|]. split; [by prop_simpl|].
    split; [by prop_simpl|].
    intros k Hk. by apply (with_statistics_frame sha256 dirname name ppm).
Qed.

(** X17 on the example machine. *)
Lemma getPPMStatistics_adds_three_witness :
  let file : object := <["filename" := VStr "a.png"]> ∅ in
  ∃ out o,
    Utils.getPPMStatistics example_rt example_sha256 "/app" [file]
      example_sys
    = (Ret out, add_events example_sys [EvHash "/app/tmp/ppm/a.png.ppm"])
    ∧ out !! 0%nat = Some o
    ∧ prop o "ppmSize" = VNum (of_nat 23)
    ∧ prop o "filename" = VStr "a.png".
Proof.
  intros file.
  destruct (getPPMStatistics_adds_three example_rt example_sha256 "/app"
              [file] [("a.png", "P6 2 2 255 abcdefghijkl")] example_sys)
    as (out & Hrun & _ & Hout).
  - constructor; [|constructor]. split; reflexivity.
  - destruct (Hout 0%nat file "a.png" "P6 2 2 255 abcdefghijkl"
                eq_refl eq_refl) as (o & Ho & _ & Hsize & _ & Hframe).
    exists out, o. split; [exact Hrun|]. split; [exact Ho|].
    split; [exact Hsize|]. unfold prop. rewrite Hframe; [reflexivity|].
    apply (bool_decide_unpack _). reflexivity.
Defined.

(** X18. When the PPM rendering of a file is not there,
    [getPPMStatistics] throws ENOENT for it, having hashed the
    renderings of the files before it: no list is returned. *)
Theorem getPPMStatistics_missing_rendering rt sha256 dirname
    before renderings (file : object) name after s :
  Forall2 (λ (f : object) (r : string * string),
             prop f "filename" = VStr r.1
             ∧ fs s !! ppm_path dirname r.1 = Some r.2) before renderings →
  prop file "filename" = VStr name →
  fs s !! ppm_path dirname name = None →
  Utils.getPPMStatistics rt sha256 dirname (before ++ file :: after) s
  = (Throw (ENOENT (ppm_path dirname name)),
     add_events s (EvHash <$> (ppm_path dirname <$> renderings.*1))).
Proof.
  intros Hbefore Hname Hppm. revert renderings s Hbefore Hppm.
  induction before as [|f before IH]; intros renderings s Hbefore Hppm.
  - apply Forall2_nil_inv_l in Hbefore as ->. simpl.
    rewrite add_events_nil. by apply getPPMStatistics_file_missing.
  - apply Forall2_cons_inv_l in Hbefore
      as ([n ppm] & renderings' & [Hn Hr] & Hbefore & ->).
    simpl in Hn, Hr. simpl.
    unfold Utils.getPPMStatistics in *.
    rewrite (map_M_cons_ret _ _ _ _ _ _
               (getPPMStatistics_file rt sha256 dirname f n ppm s Hn Hr)).
    apply run_bind_throw.
    rewrite (IH renderings' (add_events s _) Hbefore Hppm).
    by rewrite add_events_app.
Qed.

(** X18 on a machine where no conversion has produced its file. *)
Lemma getPPMStatistics_missing_rendering_witness :
  let file : object := <["filename" := VStr "b.png"]> ∅ in
  Utils.getPPMStatistics example_rt example_sha256 "/app" ([] ++ [file])
    example_sys
  = (Throw (ENOENT "/app/tmp/ppm/b.png.ppm"), add_events example_sys []).
Proof.
  intros file.
  apply (getPPMStatistics_missing_rendering example_rt example_sha256
           "/app" [] [] file "b.png" [] example_sys).
  - constructor.
  - reflexivity.
  - reflexivity.
Defined.


(* ================================================================== *)
(** * getAllFiles, end to end *)
(* ================================================================== *)

Section Records.
Variable sha256 : string → string.
Variable content : string → option string.

(** The records of [cleanList], with the files they were made from: each
    is the entry of the first candidate of its size and digest. *)
Lemma dedup_from_records cands :
  Forall (λ p, is_Some (content p)) cands →
  ∃ kept,
    kept `sublist_of` cands
    ∧ Forall2 (λ r p, ∃ bytes, content p = Some bytes ∧ bytes ≠ EmptyString
                              ∧ r = entry_of sha256 p bytes
                              ∧ List.find (has_key sha256 content
                                             (key_of sha256 bytes)) cands
                                = Some p)
        (dedup_from sha256 content [] cands) kept.
Proof.
  intros Hcands.
  destruct (dedup_from_order sha256 content cands []) as (kept & Hsub & Hnames).
  exists kept. split; [done|].
  pose proof (dedup_from_inv sha256 content cands [] [] Hcands
                (dedup_inv_nil sha256 content)) as (_ & Hfirst & _).
  simpl in Hnames. rewrite app_nil_l in Hfirst.
  set (recs := dedup_from sha256 content [] cands) in *.
  clearbody recs. clear Hsub.
  revert kept Hnames. induction recs as [|r recs IH]; intros kept Hnames.
  - destruct kept; [constructor|done].
  - destruct kept as [|p kept]; [done|]. simpl in Hnames.
    injection Hnames as Hr Hnames.
    constructor.
    + destruct (Hfirst r (list_elem_of_here _ _))
        as (q & bytes & Hq & Hc & Hbytes & ->).
      rewrite fullname_of_entry in Hr. injection Hr as ->.
      rewrite entry_key_entry_of in Hq. by exists bytes.
    + apply IH; [|done]. intros r' Hr'. apply Hfirst.
      by apply list_elem_of_further.
Qed.
End Records.

Lemma with_statistics_entry sha256 dirname p bytes ppm :
  with_statistics sha256 dirname (basename p) ppm
    (delete "fullname" (entry_of sha256 p bytes))
  = file_object (basename p) (Z.of_nat (String.length bytes)) (sha256 bytes)
      (ppm_path dirname (basename p)) (Z.of_nat (String.length ppm))
      (sha256 ppm).
Proof. by rewrite delete_fullname_entry. Qed.

Lemma prop_delete_fullname_filename (r : object) :
  prop (delete "fullname" r) "filename" = prop r "filename".
Proof. by rewrite prop_delete_ne by key_ne. Qed.

Lemma valid_extension_basename p :
  Utils.valid_extension p = true → basename p ≠ EmptyString.
Proof.
  unfold Utils.valid_extension, extname. intros Hv Hb.
  rewrite Hb in Hv. lazy in Hv. discriminate Hv.
Qed.

Lemma entry_key_file_object sha256 name bytes ppmFile ppmSize ppmsha :
  entry_key (file_object name (Z.of_nat (String.length bytes)) (sha256 bytes)
               ppmFile ppmSize ppmsha)
  = key_of sha256 bytes.
Proof. unfold entry_key, file_object, key_of. by prop_simpl. Qed.

(** [toTestbed] on images of pairwise different names, their places in
    the testbed free: every image is linked, and nothing else changes. *)
Lemma toTestbed_fresh dirname files paths s :
  Forall2 (λ (image : object) p,
             prop image "fullname" = VStr p
             ∧ prop image "filename" = VStr (basename p)) files paths →
  Utils.imgFolder dirname ∈ folders (fs s) →
  (∀ p, p ∈ paths →
     basename p ≠ EmptyString
     ∧ is_Some (fs s !! p)
     ∧ fs s !! testbed_path dirname p = None) →
  (∀ p q, p ∈ paths → q ∈ paths → testbed_path dirname q ≠ p) →
  NoDup (first_name (fs s) <$> paths) →
  NoDup (testbed_path dirname <$> paths) →
  ∃ s',
    Utils.toTestbed dirname files s
    = (Ret (delete "fullname" <$> files), s')
    ∧ (∀ q, q ∉ testbed_path dirname <$> paths → fs s' !! q = fs s !! q)
    ∧ (∀ p, p ∈ paths → fs s' !! testbed_path dirname p = fs s !! p).
Proof.
  intros Hfiles Himg Hpaths Hout Hnd Hplaces.
  destruct (toTestbed_run dirname files paths s Hfiles)
    as (s' & Hrun & Hfs).
  { intros p Hp. destruct (Hpaths p Hp) as (Hname & Hsome & _).
    split; [done|]. by rewrite testbed_path_parent. }
  assert (Hinv : testbed_inv dirname (fs s) paths (fs s')).
  { rewrite Hfs. apply testbed_inv_fold; [|done|done].
    intros p Hp. destruct (Hpaths p Hp) as (_ & ? & ?). done. }
  exists s'. split; [exact Hrun|]. split.
  - by apply (testbed_inv_frame dirname (fs s) paths (fs s')).
  - intros p Hp. destruct Hinv as (_ & _ & _ & I4). apply I4.
    apply list_elem_of_split in Hp as (pre & post & ->).
    apply first_to_rev_middle.
    rewrite fmap_app, fmap_cons in Hplaces.
    apply list.NoDup_app in Hplaces as (_ & _ & Hpost).
    by apply list.NoDup_cons in Hpost as [? _].
Qed.

(** Records with pairwise different sizes and digests were made from
    pairwise different files. *)
Lemma records_of_different_files sha256 (m : disk) recs kept :
  Forall2 (λ r p, ∃ bytes, m !! p = Some bytes
                           ∧ r = entry_of sha256 p bytes) recs kept →
  NoDup (entry_key <$> recs) →
  NoDup (first_name m <$> kept).
Proof.
  intros Hrecs Hnd.
  set (h := λ c, match bytes_at m !! c with
                 | Some b => key_of sha256 b
                 | None => (VUndef, VUndef)
                 end).
  apply (NoDup_fmap_1 h). rewrite <- list_fmap_compose.
  replace ((h ∘ first_name m) <$> kept) with (entry_key <$> recs); [done|].
  clear Hnd. induction Hrecs as [|r p recs kept (bytes & Hp & ->) _ IH];
    [done|].
  rewrite !fmap_cons, IH. f_equal.
  rewrite entry_key_entry_of. unfold h. simpl.
  rewrite lookup_first_name in Hp. by rewrite Hp.
Qed.

(** [getAllFiles] on images that can be read, none of them a PPM file,
    the rendering of each in place, the folder of the testbed there and
    without their names, no two of which are the same. *)
Lemma getAllFiles_run rt sha256 dirname found s :
  Utils.imgFolder dirname ∈ folders (fs s) →
  (∀ p, p ∈ candidates found →
     is_Some (fs s !! p)
     ∧ toLowerCase (extname (basename p)) ≠ ".ppm"
     ∧ is_Some (fs s !! ppm_path dirname (basename p))
     ∧ fs s !! testbed_path dirname p = None) →
  (∀ p q, p ∈ candidates found → q ∈ candidates found →
     testbed_path dirname q ≠ p
     ∧ testbed_path dirname q ≠ ppm_path dirname (basename p)
     ∧ (testbed_path dirname p = testbed_path dirname q → p = q)) →
  ∃ allFiles kept s',
    Utils.getAllFiles rt sha256 dirname found s = (Ret allFiles, s')
    ∧ kept `sublist_of` candidates found
    ∧ Forall2 (λ file p,
        ∃ bytes ppm,
          fs s !! p = Some bytes ∧ bytes ≠ EmptyString
          ∧ fs s !! ppm_path dirname (basename p) = Some ppm
          ∧ file = file_object (basename p)
                     (Z.of_nat (String.length bytes)) (sha256 bytes)
                     (ppm_path dirname (basename p))
                     (Z.of_nat (String.length ppm)) (sha256 ppm)
          ∧ List.find (has_key sha256 (λ p, fs s !! p) (key_of sha256 bytes))
              (candidates found) = Some p)
        allFiles kept
    ∧ NoDup (entry_key <$> allFiles)
    ∧ (∀ p bytes,
         p ∈ candidates found → fs s !! p = Some bytes →
         bytes ≠ EmptyString →
         ∃ file, file ∈ allFiles ∧ entry_key file = key_of sha256 bytes)
    ∧ (∀ q, q ∉ testbed_path dirname <$> kept → fs s' !! q = fs s !! q)
    ∧ (∀ p, p ∈ kept → fs s' !! testbed_path dirname p = fs s !! p).
Proof.
  intros Himg Hfound Hout.
  assert (Hthere : Forall (λ p, is_Some (fs s !! p)) (candidates found)).
  { apply list.Forall_forall. intros p Hp. by apply Hfound. }
  destruct (dedup_from_records sha256 (λ p, fs s !! p) (candidates found)
              Hthere) as (kept & Hsub & Hrecs).
  pose proof (dedup_from_inv sha256 (λ p, fs s !! p) (candidates found) [] []
                Hthere (dedup_inv_nil sha256 _)) as (Hnd & _ & Hall).
  rewrite app_nil_l in Hall.
  set (recs := dedup_from sha256 (λ p, fs s !! p) [] (candidates found)) in *.
  assert (Hkept : ∀ p, p ∈ kept → p ∈ candidates found).
  { intros p Hp. by eapply elem_of_sublist. }
  assert (Hfiles : NoDup (first_name (fs s) <$> kept)).
  { apply (records_of_different_files sha256 (fs s) recs); [|done].
    eapply list.Forall2_impl; [exact Hrecs|].
    intros r p (bytes & ? & _ & ? & _). eauto. }
  assert (Hplaces : NoDup (testbed_path dirname <$> kept)).
  { apply NoDup_fmap_2_strong; [|by eapply NoDup_fmap_1].
    intros p q Hp Hq. by apply Hout; apply Hkept. }
  apply Forall2_elem_r in Hrecs.
  (* toTestbed *)
  assert (HF : Forall2 (λ (image : object) p,
                 prop image "fullname" = VStr p
                 ∧ prop image "filename" = VStr (basename p)) recs kept).
  { eapply list.Forall2_impl; [exact Hrecs|].
    intros r p [(bytes & _ & _ & -> & _) _]. unfold entry_of.
    split; [apply prop_new_entry_fullname|apply prop_new_entry_filename]. }
  assert (HP : ∀ p, p ∈ kept →
                 basename p ≠ EmptyString
                 ∧ is_Some (fs s !! p)
                 ∧ fs s !! testbed_path dirname p = None).
  { intros p Hp. destruct (Hfound p (Hkept _ Hp)) as (? & _ & _ & ?).
    split; [|done]. apply valid_extension_basename.
    by apply (candidates_elem p found), Hkept. }
  assert (HO : ∀ p q, p ∈ kept → q ∈ kept → testbed_path dirname q ≠ p).
  { intros p q Hp Hq. by apply Hout; apply Hkept. }
  destruct (toTestbed_fresh dirname recs kept
              (add_events s (EvHash <$> candidates found))
              HF Himg HP HO Hfiles Hplaces)
    as (s2 & Htest & Hframe & Hlinked).
  cbn [fs add_events] in Hframe, Hlinked.
  assert (Hppm2 : ∀ p, p ∈ kept →
            fs s2 !! ppm_path dirname (basename p)
            = fs s !! ppm_path dirname (basename p)).
  { intros p Hp. rewrite Hframe; [done|]. intros Hin.
    apply list_elem_of_fmap in Hin as (q & Heq & Hq).
    destruct (Hout p q (Hkept _ Hp) (Hkept _ Hq)) as (_ & Hne & _).
    by rewrite Heq in Hne. }
  (* normalizeToPPM *)
  assert (Hnorm :
    Utils.normalizeToPPM dirname (delete "fullname" <$> recs) s2
    = (Ret (delete "fullname" <$> recs),
       add_events s2 (conversion dirname <$> (basename <$> kept)))).
  { unfold Utils.normalizeToPPM.
    erewrite run_bind_ret; [reflexivity|].
    apply normalize_loop_run. apply list.Forall2_fmap.
    eapply list.Forall2_impl; [exact Hrecs|].
    intros r p [(bytes & _ & _ & -> & _) Hp]. simpl.
    rewrite prop_delete_fullname_filename. unfold entry_of.
    split; [apply prop_new_entry_filename|by apply Hfound, Hkept]. }
  (* getPPMStatistics *)
  set (rendering := λ p, (basename p,
         default EmptyString (fs s !! ppm_path dirname (basename p)))).
  assert (Hstat :
    Forall2 (λ (file : object) (r : string * string),
               prop file "filename" = VStr r.1
               ∧ fs (add_events s2 (conversion dirname <$> (basename <$> kept)))
                   !! ppm_path dirname r.1 = Some r.2)
      (delete "fullname" <$> recs) (rendering <$> kept)).
  { apply list.Forall2_fmap. eapply list.Forall2_impl; [exact Hrecs|].
    intros r p [(bytes & _ & _ & -> & _) Hp]. simpl.
    rewrite prop_delete_fullname_filename. unfold entry_of.
    split; [apply prop_new_entry_filename|].
    rewrite Hppm2 by done.
    destruct (Hfound p (Hkept _ Hp)) as (_ & _ & [ppm Hppm] & _).
    by rewrite Hppm. }
  set (allFiles := zip_with (λ file r, with_statistics sha256 dirname r.1 r.2 file)
                     (delete "fullname" <$> recs) (rendering <$> kept)).
  assert (Hall2 :
    Forall2 (λ file p,
        ∃ bytes ppm,
          fs s !! p = Some bytes ∧ bytes ≠ EmptyString
          ∧ fs s !! ppm_path dirname (basename p) = Some ppm
          ∧ file = file_object (basename p)
                     (Z.of_nat (String.length bytes)) (sha256 bytes)
                     (ppm_path dirname (basename p))
                     (Z.of_nat (String.length ppm)) (sha256 ppm)
          ∧ List.find (has_key sha256 (λ p, fs s !! p) (key_of sha256 bytes))
              (candidates found) = Some p)
      allFiles kept).
  { subst allFiles. clear Htest Hnorm Hstat Hsub Hnd Hall Hfiles Hplaces
      Hframe Hlinked Hppm2 HF HP HO.
    induction Hrecs
      as [|r p recs' kept' [(bytes & Hp & Hbytes & -> & Hfirst) Hin] _ IH].
    - constructor.
    - simpl. constructor.
      + destruct (Hfound p (Hkept _ Hin)) as (_ & _ & [ppm Hppm] & _).
        exists bytes, ppm. split; [done|]. split; [done|]. split; [done|].
        split; [|done].
        unfold rendering. simpl. rewrite Hppm. simpl.
        apply with_statistics_entry.
      + apply IH. }
  assert (Hkeys : entry_key <$> allFiles = entry_key <$> recs).
  { clear Htest Hnorm Hstat Hsub Hnd Hall Hfiles Hplaces Hframe Hlinked Hppm2
      HF HP HO.
    clearbody allFiles. revert allFiles Hall2.
    induction Hrecs
      as [|r p recs' kept' [(bytes & Hp & Hbytes & -> & Hfirst) Hin] _ IH];
      intros allFiles Hall2.
    - by apply Forall2_nil_inv_r in Hall2 as ->.
    - apply Forall2_cons_inv_r in Hall2
        as (file & rest & (b & ppm & Hb & _ & _ & -> & _) & Hrest & ->).
      rewrite !fmap_cons, (IH rest Hrest). f_equal.
      rewrite entry_key_entry_of, entry_key_file_object. congruence. }
  exists allFiles, kept, (add_events
    (add_events s2 (conversion dirname <$> (basename <$> kept)))
    (EvHash <$> (ppm_path dirname <$> (rendering <$> kept).*1))).
  split.
  { unfold Utils.getAllFiles.
    erewrite run_bind_ret.
    2:{ unfold Utils.cleanList. fold (candidates found).
        by apply reduce_deduper_run. }
    fold recs. erewrite run_bind_ret by exact Htest.
    erewrite run_bind_ret by exact Hnorm.
    by apply getPPMStatistics_run. }
  split; [exact Hsub|]. split; [exact Hall2|].
  split; [by rewrite Hkeys|]. split.
  { intros p bytes Hp Hc Hb.
    destruct (Hall p bytes Hp Hc Hb) as (r & Hr & Hkey).
    assert (Hin : entry_key r ∈ entry_key <$> allFiles)
      by (rewrite Hkeys; by apply list_elem_of_fmap_2).
    apply list_elem_of_fmap in Hin as (file & Hk & Hfile).
    exists file. split; [done|]. congruence. }
  split; [exact Hframe|exact Hlinked].
Qed.

Lemma file_object_no_fullname filename originalSize originalsha256 ppmFile
    ppmSize ppmsha256 :
  file_object filename originalSize originalsha256 ppmFile ppmSize ppmsha256
    !! "fullname" = None.
Proof. unfold file_object. by rewrite !lookup_insert_ne. Qed.




(* ================================================================== *)
(** * traverse *)
(* ================================================================== *)

Section TraverseLemmas.
Variable path_join : string → string → string.

Lemma traverse_visit_appends :
  (∀ d absolute files,
     visit path_join absolute d files
     = files ++ visit path_join absolute d [])
  ∧ (∀ entries directory files,
       traverse path_join directory entries files
       = files ++ traverse path_join directory entries []).
Proof.
  apply dirent_listing_mutind.
  - intros absolute files. done.
  - intros entries IH absolute files. simpl. apply IH.
  - intros directory files. simpl. by rewrite app_nil_r.
  - intros name d IHd rest IHrest directory files. simpl.
    rewrite IHrest, IHd.
    rewrite (IHrest directory (visit path_join (path_join directory name) d [])).
    by rewrite app_assoc.
Qed.

Lemma traverse_paths_under entries : ∀ directory,
  traverse path_join directory entries []
  = paths_under path_join directory entries.
Proof.
  revert entries.
  apply (listing_dirent_ind
           (λ d, ∀ absolute,
              visit path_join absolute d []
              = match d with
                | RegularFile => [absolute]
                | Directory sub => paths_under path_join absolute sub
                end)
           (λ entries, ∀ directory,
              traverse path_join directory entries []
              = paths_under path_join directory entries)).
  - done.
  - intros entries IH absolute. simpl. apply IH.
  - done.
  - intros name d IHd rest IHrest directory. simpl.
    rewrite (proj2 traverse_visit_appends), IHd, IHrest. done.
Qed.

Lemma paths_under_length entries : ∀ directory,
  length (paths_under path_join directory entries) = count_files entries.
Proof.
  revert entries.
  apply (listing_dirent_ind
           (λ d, ∀ absolute,
              length (match d with
                      | RegularFile => [absolute]
                      | Directory sub => paths_under path_join absolute sub
                      end) = count_under d)
           (λ entries, ∀ directory,
              length (paths_under path_join directory entries)
              = count_files entries)).
  - done.
  - intros entries IH absolute. simpl. apply IH.
  - done.
  - intros name d IHd rest IHrest directory. simpl.
    by rewrite length_app, IHd, IHrest.
Qed.
End TraverseLemmas.

(** X20. [traverse] pushes the paths of the files under the directory
    onto the module-level array, depth first and in the order of the
    directory listings, and returns that array: what the array held
    before the call is still at its front, so that a second call returns
    every path of the first call once more. *)
Theorem traverse_appends_to_the_array path_join directory entries files :
  traverse path_join directory entries files
  = files ++ paths_under path_join directory entries
  ∧ length (traverse path_join directory entries files)
    = (length files + count_files entries)%nat
  ∧ traverse path_join directory entries
      (traverse path_join directory entries [])
    = paths_under path_join directory entries
      ++ paths_under path_join directory entries.
Proof.
  assert (Hrun : ∀ l, traverse path_join directory entries l
                      = l ++ paths_under path_join directory entries).
  { intros l. rewrite (proj2 (traverse_visit_appends path_join)).
    by rewrite traverse_paths_under. }
  split; [apply Hrun|]. split.
  - by rewrite Hrun, length_app, paths_under_length.
  - by rewrite !Hrun.
Qed.


(* ================================================================== *)
(** * A command that never exits *)
(* ================================================================== *)

Lemma run_events_no_write comand inv : Forall not_a_write (run_events comand inv).
Proof. unfold run_events. destruct (proc inv) as [[] ? ?|]; repeat constructor. Qed.

Lemma pass_events_no_write rt isWindows dirname p file w :
  Forall not_a_write (pass_events rt isWindows dirname p file w).
Proof.
  unfold pass_events, step_events.
  repeat (apply list.Forall_app; split; [apply run_events_no_write|]).
  repeat constructor.
Qed.

Lemma events_from_no_write rt isWindows dirname p w files : ∀ j,
  Forall not_a_write (events_from rt isWindows dirname p w j files).
Proof.
  induction files as [|file rest IH]; intros j; simpl; [constructor|].
  apply list.Forall_app. split; [apply pass_events_no_write|apply IH].
Qed.

Lemma timing_loop_blocks n : ∀ i command runs times s k,
  (i ≤ k < i + n)%nat →
  (∀ m, (i ≤ m < k)%nat → returns (proc (runs m))) →
  proc (runs k) = NeverExits →
  ∃ evs,
    timing_loop n i command runs times s = (Diverge, add_events s evs)
    ∧ Forall not_a_write evs.
Proof.
  induction n as [|n IH]; intros i command runs times s k Hk Hbefore Hhang;
    [lia|].
  simpl. destruct (decide (i = k)) as [->|Hne].
  - exists [EvExec command]. split; [|repeat constructor].
    apply run_bind_diverge. by apply runSync_blocks.
  - assert (Hi : returns (proc (runs i))) by (apply Hbefore; lia).
    rewrite (run_bind_ret _ _ _ _ _ (runSync_returns command (runs i) s Hi)).
    destruct (IH (S i) command runs (times ++ [of_Z (time_ms (runs i))])
                (add_events s (run_events command (runs i))) k)
      as (evs & Hrun & Hevs); [lia| |done|].
    { intros m Hm. apply Hbefore. lia. }
    exists (run_events command (runs i) ++ evs). rewrite Hrun.
    split; [by rewrite add_events_app|].
    apply list.Forall_app. split; [apply run_events_no_write|done].
Qed.

Section Blocks.
Variable rt : builtins.
Variable isWindows : bool.
Variable dirname : string.

Lemma callback_blocks p file w report s k :
  hangs_at w k →
  ∃ evs,
    pass_callback rt isWindows dirname p file w report s
    = (Diverge, add_events s evs)
    ∧ Forall not_a_write evs.
Proof.
  intros (Hk & Hbefore & Hhang).
  assert (Hloop : ∀ command,
    ∃ evs, three_times command (run w) s = (Diverge, add_events s evs)
           ∧ Forall not_a_write evs).
  { intros command. apply (timing_loop_blocks 3 0 command (run w) [] s k);
      [lia| |done]. intros m Hm. apply Hbefore. lia. }
  destruct p; simpl;
    [unfold compress04|unfold compress05|unfold decompress04
    |unfold decompress05]; cbv zeta;
    match goal with
    | |- context [three_times ?c _] => destruct (Hloop c) as (evs & Hrun & Hevs)
    end;
    exists evs; (split; [by apply run_bind_diverge|done]).
Qed.

Lemma pass_blocks p w before file after : ∀ j report s k,
  (∀ i, (i < length before)%nat → step_returns (w (j + i)%nat)) →
  hangs_at (w (j + length before)%nat) k →
  ∃ evs,
    forEach_async (pass_callback rt isWindows dirname p) w j
      (before ++ file :: after) report s
    = (Diverge, add_events s evs)
    ∧ Forall not_a_write evs.
Proof.
  induction before as [|f before IH]; intros j report s k Hbefore Hhang.
  - simpl in *. rewrite Nat.add_0_r in Hhang.
    destruct (callback_blocks p file (w j) report s k Hhang)
      as (evs & Hrun & Hevs).
    exists evs. split; [|done].
    apply run_bind_diverge. unfold try_catch. by rewrite Hrun.
  - simpl.
    assert (Hf : step_returns (w j)).
    { replace j with (j + 0)%nat by lia. apply Hbefore. simpl. lia. }
    unfold mbind at 1, M_bind at 1, bind at 1.
    unfold try_catch at 1.
    rewrite (callback_run rt isWindows dirname p f (w j) report s Hf).
    pose proof (callback_result_exits rt isWindows dirname p f (w j) report)
      as Hnd.
    assert (Hrest : ∀ r s1,
      ∃ evs,
        forEach_async (pass_callback rt isWindows dirname p) w (S j)
          (before ++ file :: after) r s1
        = (Diverge, add_events s1 evs)
        ∧ Forall not_a_write evs).
    { intros r s1. apply (IH (S j) r s1 k).
      - intros i Hi. replace (S j + i)%nat with (j + S i)%nat by lia.
        apply Hbefore. simpl. lia.
      - replace (S j + length before)%nat
          with (j + length (f :: before))%nat by (simpl; lia). done. }
    destruct (callback_result _ _ _ _ _ _ _) as [report'|err|];
      [| |done]; cbn;
      match goal with
      | |- context [forEach_async _ _ _ _ ?r ?s1] =>
          destruct (Hrest r s1) as (evs & Hrun & Hevs)
      end;
      exists (pass_events rt isWindows dirname p f (w j) ++ evs);
      rewrite Hrun;
      (split; [by rewrite add_events_app|]);
      (apply list.Forall_app; split; [|done]);
      apply pass_events_no_write.
Qed.
End Blocks.

(** X21. A timed command that never exits blocks the whole run: when
    the commands before it have exited, the four passes do not return,
    and the report is not written. *)
Theorem hung_command_blocks_the_run rt isWindows dirname e allFiles s
    p j k file :
  allFiles !! j = Some file →
  (∀ p' j', (j' < length allFiles)%nat →
     (pass_index p' < pass_index p)%nat ∨ (p' = p ∧ (j' < j)%nat) →
     step_returns (bench e p' j')) →
  hangs_at (bench e p j) k →
  ∃ evs,
    benchmark rt isWindows dirname e allFiles s = (Diverge, add_events s evs)
    ∧ ∀ path doc, EvWriteFile path doc ∉ evs.
Proof.
  intros Hfile Hbefore Hhang.
  assert (Hsplit : allFiles = take j allFiles ++ file :: drop (S j) allFiles)
    by (symmetry; by apply take_drop_middle).
  assert (Hj : length (take j allFiles) = j).
  { rewrite length_take. apply lookup_lt_Some in Hfile. lia. }
  assert (Hearlier : ∀ p', (pass_index p' < pass_index p)%nat →
            ∀ i, (i < length allFiles)%nat →
                 step_returns (bench e p' (0 + i)%nat)).
  { intros p' Hp' i Hi. apply Hbefore; [done|by left]. }
  assert (Hpass : ∀ report s1,
    ∃ evs,
      forEach_async (pass_callback rt isWindows dirname p) (bench e p) 0
        allFiles report s1
      = (Diverge, add_events s1 evs)
      ∧ Forall not_a_write evs).
  { intros report s1. rewrite Hsplit.
    apply (pass_blocks rt isWindows dirname p (bench e p) _ file _ 0
             report s1 k).
    - intros i Hi. rewrite Hj in Hi. apply Hbefore; [|by right].
      apply lookup_lt_Some in Hfile. simpl. lia.
    - by rewrite Hj. }
  assert (Hno : ∀ evs, Forall not_a_write evs →
                  ∀ path doc, EvWriteFile path doc ∉ evs).
  { intros evs Hevs path doc Hin.
    by apply (proj1 (list.Forall_forall _ _) Hevs) in Hin. }
  unfold benchmark. destruct p; simpl in Hearlier, Hpass.
  - destruct (Hpass [] s) as (evs & Hrun & Hevs).
    exists evs. split; [by apply run_bind_diverge|by apply Hno].
  - rewrite (run_bind_ret _ _ _ _ _
               (pass_run rt isWindows dirname C04 (bench e C04) allFiles 0 []
                  s (Hearlier C04 ltac:(simpl; lia)))).
    match goal with
    | |- ∃ _, (forEach_async _ _ _ _ ?r ≫= _) ?s1 = _ ∧ _ =>
        destruct (Hpass r s1) as (evs & Hrun & Hevs)
    end.
    eexists. split.
    + erewrite run_bind_diverge by exact Hrun. by rewrite add_events_app.
    + apply Hno, list.Forall_app. split; [apply events_from_no_write|done].
  - rewrite (run_bind_ret _ _ _ _ _
               (pass_run rt isWindows dirname C04 (bench e C04) allFiles 0 []
                  s (Hearlier C04 ltac:(simpl; lia)))).
    rewrite (run_bind_ret _ _ _ _ _
               (pass_run rt isWindows dirname C05 (bench e C05) allFiles 0 _
                  _ (Hearlier C05 ltac:(simpl; lia)))).
    match goal with
    | |- ∃ _, (forEach_async _ _ _ _ ?r ≫= _) ?s1 = _ ∧ _ =>
        destruct (Hpass r s1) as (evs & Hrun & Hevs)
    end.
    eexists. split.
    + erewrite run_bind_diverge by exact Hrun. by rewrite !add_events_app.
    + apply Hno. repeat (apply list.Forall_app; split;
                         [apply events_from_no_write|]). done.
  - rewrite (run_bind_ret _ _ _ _ _
               (pass_run rt isWindows dirname C04 (bench e C04) allFiles 0 []
                  s (Hearlier C04 ltac:(simpl; lia)))).
    rewrite (run_bind_ret _ _ _ _ _
               (pass_run rt isWindows dirname C05 (bench e C05) allFiles 0 _
                  _ (Hearlier C05 ltac:(simpl; lia)))).
    rewrite (run_bind_ret _ _ _ _ _
               (pass_run rt isWindows dirname D04 (bench e D04) allFiles 0 _
                  _ (Hearlier D04 ltac:(simpl; lia)))).
    match goal with
    | |- ∃ _, (forEach_async _ _ _ _ ?r ≫= _) ?s1 = _ ∧ _ =>
        destruct (Hpass r s1) as (evs & Hrun & Hevs)
    end.
    eexists. split.
    + erewrite run_bind_diverge by exact Hrun. by rewrite !add_events_app.
    + apply Hno. repeat (apply list.Forall_app; split;
                         [apply events_from_no_write|]). done.
Qed.

(** X21 on a run whose second Lea 0.5 compression never exits. *)
Lemma hung_command_blocks_the_run_witness :
  let good := example_step (ok_call 100) (ok_call 100) (ok_call 100)
                "1000" in
  let hung := example_step (ok_call 100) hung_call (ok_call 100) "1000" in
  ∃ evs,
    benchmark example_rt false "/app" (example_env good hung good good)
      [example_file] sys0
    = (Diverge, add_events sys0 evs)
    ∧ ∀ path doc, EvWriteFile path doc ∉ evs.
Proof.
  intros good hung.
  apply (hung_command_blocks_the_run example_rt false "/app"
           (example_env good hung good good) [example_file] sys0
           C05 0 1 example_file).
  - reflexivity.
  - intros p' j' Hj' [Hp'|[-> Hlt]]; [|lia].
    destruct p'; simpl in Hp'; try lia.
    simpl. apply clean_step_returns, example_step_clean;
      apply ok_call_returns.
  - split; [lia|]. split; [|reflexivity].
    intros i Hi. assert (i = 0%nat) as -> by lia. simpl.
    apply ok_call_returns.
Defined.


(* ================================================================== *)
(** * The module body and the whole pipeline *)
(* ================================================================== *)

(** X22. [process.exit] is never called: the two checks that lead to
    [process.exit(2)] test values that are truthy whenever the probes
    return, so in no environment does the module body stop with an exit
    code it chose, 2 or another. *)
Theorem process_exit_is_unreachable rt sha256 isWindows dirname e found s :
  let result := program rt sha256 isWindows dirname e found s in
  (∀ code, result.1 ≠ Throw (ProcessExit code))
  ∧ exit_code result.1 ≠ Some 2%Z.
Proof.
  assert (Hdrop : ∀ (m : M unit) s0,
    (∀ code, (try_catch m (λ _, ret tt) s0).1 ≠ Throw (ProcessExit code))
    ∧ exit_code (try_catch m (λ _, ret tt) s0).1 ≠ Some 2%Z).
  { intros m s0. unfold try_catch, ret.
    destruct (m s0) as [[?|?|] ?]; simpl; split; done. }
  set (Q := λ r : res unit * sys,
         (∀ code, r.1 ≠ Throw (ProcessExit code))
         ∧ exit_code r.1 ≠ Some 2%Z).
  change (Q (program rt sha256 isWindows dirname e found s)).
  unfold program, probe_options.
  unfold mbind at 1, M_bind at 1, bind at 1.
  unfold mbind at 1, M_bind at 1, bind at 1.
  rewrite execSync_no_timeout.
  destruct (gm_probe e) as [[] ? ?|]; simpl; [|done..].
  unfold mbind at 1, M_bind at 1, bind at 1.
  destruct isWindows; simpl.
  - apply Hdrop.
  - unfold mbind at 1, M_bind at 1, bind at 1.
    rewrite execSync_no_timeout.
    destruct (wine_probe e) as [[] ? ?|]; simpl; [|done..].
    apply Hdrop.
Qed.

(** The final report faces the files: each record keeps the name, the
    size and the digest of its file. *)
Lemma final_report_facing rt isWindows e allFiles :
  Forall2 (λ (r file : object),
             r !! "filename" = file !! "filename"
             ∧ entry_key r = entry_key file)
    (final_report rt isWindows e allFiles) allFiles.
Proof.
  apply Forall2_same_length_lookup_2; [apply final_report_length|].
  intros j r file Hr Hfile.
  rewrite (final_report_lookup rt isWindows e allFiles j file Hfile) in Hr.
  injection Hr as <-.
  split; [apply final_kept, list_elem_of_here|].
  unfold entry_key, prop.
  rewrite (final_kept rt isWindows e j file "originalSize")
    by (apply list_elem_of_further, list_elem_of_here).
  rewrite (final_kept rt isWindows e j file "originalsha256")
    by (do 2 apply list_elem_of_further; apply list_elem_of_here).
  reflexivity.
Qed.

Lemma Forall2_fmap_same {A B C} (f : A → C) (g : B → C) (l : list A)
    (k : list B) :
  Forall2 (λ x y, f x = g y) l k → f <$> l = g <$> k.
Proof. induction 1; [done|]. rewrite !fmap_cons. by f_equal. Qed.



(* ================================================================== *)
(** * The records of a run in which commands fail *)
(* ================================================================== *)

Section PassRecords.
Variable rt : builtins.
Variable isWindows : bool.
Variable dirname : string.

Lemma pushed_ok_records w files : ∀ j,
  pushed_ok rt isWindows w j files
  = records_from (λ k, probe_ok (w k))
      (λ k file, after04 rt isWindows (w k) file) j files.
Proof.
  induction files as [|file rest IH]; intros j; simpl; [done|].
  by rewrite IH.
Qed.

(** The records kept have the sha256 strings of their files, some of
    them. *)
Lemma records_from_shas keep rec files :
  (∀ k file, sha_of (rec k file) = sha_of file) →
  ∀ j, sha_of <$> records_from keep rec j files `sublist_of` sha_of <$> files.
Proof.
  intros Hsha. induction files as [|file rest IH]; intros j; simpl; [done|].
  destruct (keep j); simpl.
  - rewrite Hsha. apply sublist_skip, IH.
  - apply sublist_cons, IH.
Qed.

Lemma findIndex_None file report :
  (∃ h, sha_of file = VStr h) →
  Forall (λ r, sha_of r ≠ sha_of file) report →
  findIndex (same_sha file) report = None.
Proof.
  intros [h Hh]. induction 1 as [|r report Hr _ IH]; simpl; [done|].
  unfold same_sha at 1. fold (sha_of file) (sha_of r).
  rewrite Hh, strict_eq_str, bool_decide_false by congruence.
  by rewrite IH.
Qed.

(** A merging pass over files of distinct sha256 strings merges into the
    record of each file, when the file has one and the size probe exits
    with status zero, and leaves the other records as they were. *)
Lemma pass_fold_records p w keep rec :
  p ≠ C04 →
  (∀ k file, sha_of (rec k file) = sha_of file) →
  ∀ files done_r j,
    NoDup ((sha_of <$> done_r) ++ (sha_of <$> files)) →
    Forall (λ o, ∃ h, sha_of o = VStr h) done_r →
    Forall (λ o, ∃ h, sha_of o = VStr h) files →
    pass_fold rt isWindows dirname p w j files
      (done_r ++ records_from keep rec j files)
    = done_r
      ++ records_from keep
           (λ k file, merge_step rt isWindows p (w k) file (rec k file))
           j files.
Proof.
  intros Hp Hsha.
  induction files as [|file rest IH]; intros done_r j Hnd Hdone Hstr;
    simpl; [done|].
  apply list.Forall_cons in Hstr as [Hfile Hstr].
  assert (Hnd' : NoDup ((sha_of <$> done_r) ++ (sha_of <$> rest))).
  { apply list.NoDup_app in Hnd as (H1 & H2 & H3).
    apply list.NoDup_cons in H3 as [_ H3].
    apply list.NoDup_app. split; [done|]. split; [|done].
    intros x Hx Hin. apply (H2 x Hx). by apply list_elem_of_further. }
  assert (Hrest : Forall (λ r, sha_of r ≠ sha_of file)
                    (records_from keep rec (S j) rest)).
  { apply list.Forall_forall. intros r Hr Heq.
    apply list.NoDup_app in Hnd as (_ & _ & H3).
    apply list.NoDup_cons in H3 as [H3 _]. apply H3.
    eapply elem_of_sublist; [|apply (records_from_shas keep rec rest Hsha (S j))].
    rewrite <- Heq. by apply list_elem_of_fmap_2. }
  assert (Hdone' : Forall (λ r, sha_of r ≠ sha_of file) done_r).
  { apply list.Forall_forall. intros r Hr Heq.
    apply list.NoDup_app in Hnd as (_ & H2 & _).
    apply (H2 (sha_of r)); [by apply list_elem_of_fmap_2|].
    rewrite Heq. apply list_elem_of_here. }
  unfold merge_step at 1, callback_result.
  destruct (keep j) eqn:Hkeep; simpl.
  - (* the file has a record *)
    assert (Hgo : ∀ cur,
      sha_of cur = sha_of file →
      pass_fold rt isWindows dirname p w (S j) rest
        (done_r ++ cur :: records_from keep rec (S j) rest)
      = done_r ++ cur
          :: records_from keep
               (λ k file0, merge_step rt isWindows p (w k) file0 (rec k file0))
               (S j) rest).
    { intros cur Hcur.
      replace (done_r ++ cur :: records_from keep rec (S j) rest)
        with ((done_r ++ [cur]) ++ records_from keep rec (S j) rest)
        by (by rewrite <- app_assoc).
      rewrite IH; [by rewrite <- app_assoc|..].
      - rewrite fmap_app, <- app_assoc. simpl. by rewrite Hcur.
      - apply list.Forall_app. split; [done|].
        constructor; [by rewrite Hcur|constructor].
      - done. }
    destruct (probe_ok (w j)) eqn:Hok; [|by apply Hgo].
    assert (Hindex :
      findIndex (same_sha file)
        (done_r ++ rec j file :: records_from keep rec (S j) rest)
      = Some (length done_r)).
    { apply findIndex_facing; [|apply Hsha]. split.
      - rewrite fmap_app, fmap_cons, Hsha.
        apply (sublist_NoDup _ _ Hnd).
        apply sublist_app; [done|]. simpl. apply sublist_skip.
        by apply records_from_shas.
      - apply list.Forall_app. split; [done|]. constructor.
        + by rewrite Hsha.
        + apply list.Forall_forall. intros r Hr.
          assert (Hin : sha_of r ∈ sha_of <$> rest).
          { eapply elem_of_sublist;
              [|apply (records_from_shas keep rec rest Hsha (S j))].
            by apply list_elem_of_fmap_2. }
          apply list_elem_of_fmap in Hin as (f & -> & Hf).
          by apply (proj1 (list.Forall_forall _ _) Hstr). }
    assert (Hcur :
      (done_r ++ rec j file :: records_from keep rec (S j) rest)
        !! length done_r = Some (rec j file))
      by (by apply list_lookup_middle).
    destruct p; [done|..]; rewrite Hindex; simpl; rewrite Hcur; simpl;
      rewrite <- (Nat.add_0_r (length done_r)) at 1;
      rewrite insert_app_r; simpl; apply Hgo;
      rewrite ?after05_sha, ?after_d04_sha, ?after_d05_sha; apply Hsha.
  - (* the file has no record: the callback throws, or its probe fails *)
    assert (Hnone :
      findIndex (same_sha file) (done_r ++ records_from keep rec (S j) rest)
      = None).
    { apply findIndex_None; [done|]. by apply list.Forall_app. }
    destruct (probe_ok (w j)) eqn:Hok; [|by apply IH].
    destruct p; [done|..]; rewrite Hnone; simpl; by apply IH.
Qed.
End PassRecords.

Ltac lookup_simpl :=
  repeat first
    [ rewrite lookup_insert_eq
    | rewrite lookup_insert_ne by key_ne
    | rewrite lookup_delete_ne by key_ne ].

Section RunReport.
Variable rt : builtins.
Variable isWindows : bool.
Variable dirname : string.

(** The report of a run all of whose commands exit, over files of
    distinct sha256 strings: the records of the files whose first size
    probe exits with status zero, in the order of the files. *)
Lemma merge_step_sha p w file cur :
  p ≠ C04 → sha_of (merge_step rt isWindows p w file cur) = sha_of cur.
Proof.
  intros Hp. unfold merge_step. destruct (probe_ok w); [|done].
  by apply pass_after_sha.
Qed.

Lemma run_report_records e allFiles :
  distinct_shas allFiles →
  run_report rt isWindows dirname e allFiles
  = records_from (λ k, probe_ok (bench e C04 k)) (run_record rt isWindows e)
      0 allFiles.
Proof.
  intros [Hnd Hstr]. unfold run_report.
  rewrite pass_fold_first, app_nil_l, pushed_ok_records.
  rewrite <- (app_nil_l (records_from _ _ 0 allFiles)).
  rewrite (pass_fold_records rt isWindows dirname C05);
    [|done|intros; apply after04_sha|done|constructor|done].
  rewrite (pass_fold_records rt isWindows dirname D04);
    [|done| |done|constructor|done].
  2:{ intros k file. rewrite merge_step_sha by done. apply after04_sha. }
  rewrite (pass_fold_records rt isWindows dirname D05);
    [|done| |done|constructor|done].
  2:{ intros k file. rewrite !merge_step_sha by done. apply after04_sha. }
  reflexivity.
Qed.

(** The records kept face, in order, the positions that are kept. *)
Lemma records_from_facing keep rec files : ∀ j,
  Forall2 (λ r k, ∃ file, files !! (k - j)%nat = Some file ∧ r = rec k file)
    (records_from keep rec j files)
    (filter (λ k, keep k = true) (seq j (length files))).
Proof.
  induction files as [|file rest IH]; intros j; simpl; [constructor|].
  assert (Hrest :
    Forall2 (λ r k, ∃ file0, (file :: rest) !! (k - j)%nat = Some file0
                             ∧ r = rec k file0)
      (records_from keep rec (S j) rest)
      (filter (λ k, keep k = true) (seq (S j) (length rest)))).
  { eapply list.Forall2_impl; [exact (Forall2_elem_r _ _ _ (IH (S j)))|].
    intros r k [(f & Hf & ->) Hk]. exists f. split; [|done].
    apply list_elem_of_filter in Hk as [_ Hk]. apply elem_of_seq in Hk.
    replace (k - j)%nat with (S (k - S j)) by lia. exact Hf. }
  rewrite filter_cons. destruct (keep j) eqn:Hok.
  - rewrite decide_True by done. simpl. constructor; [|exact Hrest].
    exists file. by rewrite Nat.sub_diag.
  - rewrite decide_False by done. exact Hrest.
Qed.

(** What a pass writes, it writes as a number or a string. *)
Lemma after04_writes w (file : object) k :
  k ∈ pass_keys C04 →
  ∃ v, after04 rt isWindows w file !! k = Some v ∧ is_Some (JSON_value v).
Proof.
  intros Hk.
  assert (Hnum : ∀ n, is_Some (JSON_value (VNum n)))
    by (intros []; cbn; eauto).
  assert (Hsize : is_Some (JSON_value (size_value rt isWindows w))).
  { unfold size_value, measured. destruct isWindows; [cbn; eauto|apply Hnum]. }
  unfold after04, record04. simpl in Hk.
  repeat (apply elem_of_cons in Hk as [->|Hk]);
    [..|by apply elem_of_nil in Hk];
    lookup_simpl; eexists; (split; [reflexivity|]);
    first [apply Hnum | apply Hsize].
Qed.

Lemma js_plus_printed a n : is_Some (JSON_value (js_plus rt a (VNum n))).
Proof.
  unfold js_plus. destruct a as [|m|str]; cbn [JSON_value];
    try destruct (jsadd _ _); eauto.
Qed.

Lemma pass_after_writes p w file (cur : object) k :
  p ≠ C04 → k ∈ pass_keys p →
  ∃ v, pass_after rt isWindows p w file cur !! k = Some v
       ∧ is_Some (JSON_value v).
Proof.
  intros Hp Hk.
  assert (Hnum : ∀ n, is_Some (JSON_value (VNum n)))
    by (intros []; cbn; eauto).
  assert (Hsize : is_Some (JSON_value (size_value rt isWindows w))).
  { unfold size_value, measured. destruct isWindows; [cbn; eauto|apply Hnum]. }
  destruct p; [done|..]; simpl in Hk |- *.
  - unfold after05, record05.
    repeat (apply elem_of_cons in Hk as [->|Hk]);
      [..|by apply elem_of_nil in Hk];
      lookup_simpl; eexists; (split; [reflexivity|]);
      first [apply Hnum | apply Hsize].
  - unfold after_d04, restored04.
    repeat (apply elem_of_cons in Hk as [->|Hk]);
      [..|by apply elem_of_nil in Hk];
      lookup_simpl; eexists; (split; [reflexivity|]);
      first [apply Hnum | apply js_plus_printed].
  - unfold after_d05, restored05.
    repeat (apply elem_of_cons in Hk as [->|Hk]);
      [..|by apply elem_of_nil in Hk];
      lookup_simpl; eexists; (split; [reflexivity|]);
      first [apply Hnum | apply js_plus_printed].
Qed.
End RunReport.

Lemma is_file_no_metric file k :
  is_file file → k ∈ ("fullname" :: metric_keys) → file !! k = None.
Proof.
  intros (filename & originalSize & originalsha256 & ppmFile & ppmSize
          & ppmsha256 & ->) Hk.
  unfold file_object.
  repeat (apply elem_of_cons in Hk as [->|Hk]);
    [..|by apply elem_of_nil in Hk]; by lookup_simpl.
Qed.

(** No key is written by two passes, and no pass writes [ppmFile]. *)
Lemma pass_keys_disjoint p q k :
  p ≠ q → k ∈ pass_keys p → (k ∉ pass_keys q) ∧ (k ≠ "ppmFile").
Proof.
  intros Hpq Hk.
  destruct p; simpl in Hk;
    repeat (apply elem_of_cons in Hk as [->|Hk]);
    try (by apply elem_of_nil in Hk);
    (split; [|discriminate]);
    destruct q; try done;
    apply (bool_decide_unpack _); reflexivity.
Qed.

Section RunRecord.
Variable rt : builtins.
Variable isWindows : bool.
Variable e : env.
Variable j : nat.
Variable file : object.

Lemma merge_step_frame q w (cur : object) k :
  q ≠ C04 → k ∉ pass_keys q → (q = D05 → k ≠ "ppmFile") →
  merge_step rt isWindows q w file cur !! k = cur !! k.
Proof.
  intros Hq Hk Hppm. unfold merge_step. destruct (probe_ok w); [|done].
  by apply pass_after_frame.
Qed.

(** A key that no pass writes is in the record as it is in the file. *)
Lemma run_record_frame k :
  k ∉ metric_keys → k ≠ "ppmFile" →
  run_record rt isWindows e j file !! k = file !! k.
Proof.
  intros Hk Hppm. unfold metric_keys in Hk.
  apply not_elem_of_app in Hk as [H1 Hk].
  apply not_elem_of_app in Hk as [H2 Hk].
  apply not_elem_of_app in Hk as [H3 H4].
  unfold run_record. rewrite !merge_step_frame by done.
  by apply after04_frame.
Qed.

(** The path of the PPM file is deleted by the fourth callback, when it
    gets to the end. *)
Lemma run_record_ppmFile :
  run_record rt isWindows e j file !! "ppmFile"
  = if probe_ok (bench e D05 j) then None else file !! "ppmFile".
Proof.
  unfold run_record. unfold merge_step at 1.
  destruct (probe_ok (bench e D05 j)).
  - simpl. unfold after_d05, restored05. apply lookup_delete_eq.
  - rewrite !merge_step_frame;
      [|done|apply (bool_decide_unpack _); reflexivity|done..
       |apply (bool_decide_unpack _); reflexivity|done].
    apply after04_frame. apply (bool_decide_unpack _). reflexivity.
Qed.

(** The keys of a pass are in the written record exactly when the size
    probe of the pass exits with status zero for the file. *)
Lemma run_record_pass_keys p k :
  is_file file →
  probe_ok (bench e C04 j) = true →
  k ∈ pass_keys p →
  is_Some (JSON_object (run_record rt isWindows e j file) !! k)
  ↔ probe_ok (bench e p j) = true.
Proof.
  intros Hfile H04 Hk. rewrite JSON_object_lookup.
  assert (Hmetric : k ∈ metric_keys).
  { unfold metric_keys. rewrite !elem_of_app. destruct p; auto. }
  assert (Hnone : file !! k = None)
    by (apply is_file_no_metric; [done|by apply list_elem_of_further]).
  assert (Hframe : ∀ q w cur, q ≠ C04 → q ≠ p →
            merge_step rt isWindows q w file cur !! k = cur !! k).
  { intros q w cur Hq Hqp.
    destruct (pass_keys_disjoint p q k) as [Hnot Hppm]; [done|done|].
    by apply merge_step_frame. }
  assert (Hstep : ∀ w cur, p ≠ C04 → cur !! k = None →
            is_Some (merge_step rt isWindows p w file cur !! k
                       ≫= JSON_value)
            ↔ probe_ok w = true).
  { intros w cur Hp Hcur. unfold merge_step. destruct (probe_ok w).
    - destruct (pass_after_writes rt isWindows p w file cur k Hp Hk)
        as (v & -> & Hv). simpl. by split.
    - rewrite Hcur. simpl. split; [by intros [? ?]|done]. }
  unfold run_record. destruct p.
  - rewrite !Hframe by done.
    destruct (after04_writes rt isWindows (bench e C04 j) file k Hk)
      as (v & -> & Hv). simpl. by split.
  - rewrite !Hframe by done. apply Hstep; [done|].
    rewrite after04_frame; [done|].
    by destruct (pass_keys_disjoint C05 C04 k).
  - rewrite !Hframe by done. apply Hstep; [done|].
    rewrite Hframe by done. rewrite after04_frame; [done|].
    by destruct (pass_keys_disjoint D04 C04 k).
  - apply Hstep; [done|]. rewrite !Hframe by done.
    rewrite after04_frame; [done|].
    by destruct (pass_keys_disjoint D05 C04 k).
Qed.

(** The time a pass records, when its callback gets to the end. *)
Lemma run_record_time p :
  probe_ok (bench e C04 j) = true →
  probe_ok (bench e p j) = true →
  run_record rt isWindows e j file !! time_key p
  = Some (VNum (min_time (bench e p j))).
Proof.
  intros H04 Hp.
  assert (Hk : time_key p ∈ pass_keys p)
    by (destruct p; apply list_elem_of_here).
  assert (Hframe : ∀ q w cur, q ≠ C04 → q ≠ p →
            merge_step rt isWindows q w file cur !! time_key p
            = cur !! time_key p).
  { intros q w cur Hq Hqp.
    destruct (pass_keys_disjoint p q (time_key p)) as [Hnot Hppm];
      [done|done|].
    by apply merge_step_frame. }
  unfold run_record. destruct p.
  - rewrite !Hframe by done. unfold after04, record04. simpl.
    by lookup_simpl.
  - rewrite !Hframe by done. unfold merge_step. rewrite Hp. simpl.
    unfold after05, record05. by lookup_simpl.
  - rewrite !Hframe by done. unfold merge_step at 1. rewrite Hp. simpl.
    unfold after_d04, restored04. by lookup_simpl.
  - unfold merge_step at 1. rewrite Hp. simpl.
    unfold after_d05, restored05. by lookup_simpl.
Qed.
End RunRecord.

(** The recorded time of a step one of whose timed commands fails. *)
Lemma recorded_sentinel w :
  (∀ i, (i < 3)%nat → returns (proc (run w i))) → clock_monotone w →
  (∃ i, (i < 3)%nat ∧ fails (run w i)) → recorded_ms w = (-1)%Z.
Proof.
  intros Hret Hclock (i & Hi & Hf). unfold recorded_ms.
  assert (Hge : ∀ k, (k < 3)%nat → (-1 ≤ time_ms (run w k))%Z).
  { intros k Hk.
    destruct (time_ms_sentinel (run w k) (Hret k Hk) (Hclock k Hk))
      as [[_ ->]|[_ ?]]; lia. }
  pose proof (Hge 0%nat ltac:(lia)). pose proof (Hge 1%nat ltac:(lia)).
  pose proof (Hge 2%nat ltac:(lia)).
  pose proof (time_ms_fails _ Hf) as Hm.
  destruct i as [|[|[|i]]]; [lia|lia|lia|lia].
Qed.

Lemma is_file_printed file k :
  is_file file →
  k ∈ ["filename"; "originalSize"; "originalsha256"; "ppmSize"; "ppmsha256"] →
  is_Some (JSON_object file !! k).
Proof.
  intros (filename & originalSize & originalsha256 & ppmFile & ppmSize
          & ppmsha256 & ->) Hk.
  rewrite JSON_object_lookup. unfold file_object.
  repeat (apply elem_of_cons in Hk as [->|Hk]);
    [..|by apply elem_of_nil in Hk]; lookup_simpl; simpl; eauto.
Qed.

Lemma file_key_no_metric k :
  k ∈ ["filename"; "originalSize"; "originalsha256"; "ppmSize"; "ppmsha256"] →
  (k ∉ metric_keys) ∧ (k ≠ "ppmFile").
Proof.
  intros Hk.
  repeat (apply elem_of_cons in Hk as [->|Hk]);
    [..|by apply elem_of_nil in Hk];
    (split; [apply (bool_decide_unpack _); reflexivity|discriminate]).
Qed.

(** The records of a run all of whose commands exit. *)
Lemma run_report_facing rt isWindows dirname e allFiles :
  distinct_shas allFiles →
  Forall2 (λ r j, ∃ file, allFiles !! j = Some file
                          ∧ r = run_record rt isWindows e j file)
    (run_report rt isWindows dirname e allFiles)
    (filter (λ j, probe_ok (bench e C04 j) = true)
       (seq 0 (length allFiles))).
Proof.
  intros Hdistinct. rewrite run_report_records by done.
  eapply list.Forall2_impl; [apply records_from_facing|].
  intros r j (file & Hfile & ->). exists file.
  rewrite Nat.sub_0_r in Hfile. by split.
Qed.

Lemma is_file_ppmFile file :
  is_file file →
  ∃ path, file !! "ppmFile" = Some (VStr path) ∧ file !! "fullname" = None.
Proof.
  intros (filename & originalSize & originalsha256 & ppmFile & ppmSize
          & ppmsha256 & ->).
  exists ppmFile. unfold file_object. split; by lookup_simpl.
Qed.

(** What is written of a file object: its six keys, each with a string
    or a number. *)
Lemma is_file_written file k :
  is_file file →
  is_Some (JSON_object file !! k)
  ↔ k ∈ ["filename"; "originalSize"; "originalsha256"; "ppmFile"; "ppmSize";
         "ppmsha256"].
Proof.
  intros (filename & originalSize & originalsha256 & ppmFile & ppmSize
          & ppmsha256 & ->).
  rewrite JSON_object_lookup. unfold file_object. split.
  - intros Hsome.
    destruct (decide (k ∈ ["filename"; "originalSize"; "originalsha256";
                           "ppmFile"; "ppmSize"; "ppmsha256"]))
      as [Hk|Hk]; [exact Hk|].
    exfalso. repeat (apply not_elem_of_cons in Hk as [? Hk]).
    rewrite !lookup_insert_ne in Hsome by done.
    rewrite lookup_empty in Hsome. by destruct Hsome.
  - intros Hk.
    repeat (apply elem_of_cons in Hk as [->|Hk]);
      [..|by apply elem_of_nil in Hk]; lookup_simpl; simpl; eauto.
Qed.

Lemma metric_key_pass k : k ∈ metric_keys ↔ ∃ p, k ∈ pass_keys p.
Proof.
  unfold metric_keys. rewrite !elem_of_app. split.
  - intros [H|[H|[H|H]]]; eauto.
  - intros [[] H]; auto.
Qed.

(** The keys of the written record of a file, all of them: the five
    that identify the file, the keys of each pass whose size probe exited
    with status zero, and [ppmFile] when the size probe of the fourth
    pass did not. *)
Lemma run_record_keys rt isWindows e j file k :
  is_file file →
  probe_ok (bench e C04 j) = true →
  is_Some (JSON_object (run_record rt isWindows e j file) !! k)
  ↔ k ∈ ["filename"; "originalSize"; "originalsha256"; "ppmSize";
         "ppmsha256"]
    ∨ (∃ p, k ∈ pass_keys p ∧ probe_ok (bench e p j) = true)
    ∨ (k = "ppmFile" ∧ probe_ok (bench e D05 j) = false).
Proof.
  intros Hfile H04.
  destruct (decide (k ∈ metric_keys)) as [Hm|Hm].
  - pose proof Hm as Hp. apply metric_key_pass in Hp as [p Hp].
    rewrite (run_record_pass_keys rt isWindows e j file p k Hfile H04 Hp).
    split.
    + intros Hok. right. left. eauto.
    + intros [Hk|[(q & Hq & Hok)|[-> _]]].
      * by destruct (file_key_no_metric k Hk).
      * assert (p = q) as ->; [|exact Hok].
        destruct p, q; try reflexivity; exfalso;
          match goal with
          | Hp : _ ∈ pass_keys ?a, Hq : _ ∈ pass_keys ?b |- _ =>
              destruct (pass_keys_disjoint a b k ltac:(discriminate) Hp)
                as [Hn _]; exact (Hn Hq)
          end.
      * exfalso. revert Hm. apply (bool_decide_unpack _). reflexivity.
  - destruct (decide (k = "ppmFile")) as [->|Hppm].
    + rewrite JSON_object_lookup, run_record_ppmFile.
      destruct (is_file_ppmFile file Hfile) as (path & Hpath & _).
      destruct (probe_ok (bench e D05 j)).
      * simpl. split; [by intros [? ?]|].
        intros [Hk|[(q & Hq & _)|[_ ?]]]; [|exfalso|done].
        -- exfalso. revert Hk. apply (bool_decide_unpack _). reflexivity.
        -- apply Hm, metric_key_pass. eauto.
      * rewrite Hpath. simpl. split; [intros _; by right; right|eauto].
    + assert (Heq : JSON_object (run_record rt isWindows e j file) !! k
                    = JSON_object file !! k).
      { rewrite !JSON_object_lookup. by rewrite run_record_frame. }
      rewrite Heq, (is_file_written file k Hfile). split.
      * intros Hk. left.
        repeat (apply elem_of_cons in Hk as [->|Hk]);
          [..|by apply elem_of_nil in Hk]; try done;
          apply (bool_decide_unpack _); reflexivity.
      * intros [Hk|[(q & Hq & _)|[? _]]]; [|exfalso|done].
        -- repeat (apply elem_of_cons in Hk as [->|Hk]);
             [..|by apply elem_of_nil in Hk];
             apply (bool_decide_unpack _); reflexivity.
        -- apply Hm, metric_key_pass. eauto.
Qed.




(* ================================================================== *)
(** * The paths in the report *)
(* ================================================================== *)

Lemma run_record_sha rt isWindows e j file :
  sha_of (run_record rt isWindows e j file) = sha_of file.
Proof.
  unfold run_record. rewrite !merge_step_sha by done. apply after04_sha.
Qed.

(** [getAllFiles] on the image of the example machine. *)
Lemma getAllFiles_example :
  ∃ s1,
    Utils.getAllFiles example_rt example_sha256 "/app" ["/img/a.png"]
      example_sys
    = (Ret [file_object "a.png" 14 "sha:PNG-bytes-of-a"
              "/app/tmp/ppm/a.png.ppm" 23 "sha:P6 2 2 255 abcdefghijkl"],
       s1).
Proof.
  destruct (getAllFiles_run example_rt example_sha256 "/app" ["/img/a.png"]
              example_sys)
    as (allFiles & kept & s1 & Hrun & Hsub & Hall & _ & Hcover & _).
  - apply elem_of_union_l, elem_of_singleton. reflexivity.
  - intros p Hp. apply list_elem_of_singleton in Hp as ->.
    split; [eexists; reflexivity|]. split; [discriminate|].
    split; [eexists; reflexivity|reflexivity].
  - intros p q Hp Hq.
    apply list_elem_of_singleton in Hp as ->.
    apply list_elem_of_singleton in Hq as ->.
    split; [discriminate|]. split; [discriminate|reflexivity].
  - exists s1. rewrite Hrun. f_equal. f_equal.
    destruct (Hcover "/img/a.png" "PNG-bytes-of-a")
      as (file & Hfile & _);
      [apply list_elem_of_here|reflexivity|discriminate|].
    change (candidates ["/img/a.png"]) with ["/img/a.png"] in Hsub.
    apply list.Forall2_length in Hall as Hlen.
    apply sublist_length in Hsub as Hlen'. simpl in Hlen'.
    destruct Hall
      as [|file0 p0 allFiles kept (bytes & ppm & Hp & _ & Hppm & -> & _) Hrest];
      [by apply elem_of_nil in Hfile|].
    destruct kept; [|simpl in Hlen'; lia].
    apply Forall2_nil_inv_r in Hrest as ->.
    apply sublist_cons_l in Hsub as (k1 & k2 & Hk & _).
    destruct k1 as [|x k1]; simpl in Hk.
    + injection Hk as <- _.
      assert (bytes = "PNG-bytes-of-a") as -> by (revert Hp; by intros [= <-]).
      assert (ppm = "P6 2 2 255 abcdefghijkl") as ->
        by (revert Hppm; by intros [= <-]).
      reflexivity.
    + injection Hk as _ Hk. destruct k1; discriminate Hk.
Qed.

(** C10, on the code. The [fullname] of a file is deleted in [toTestbed],
    whatever happens later: no record of the report that is written has
    it. The [ppmFile] of a record is deleted by the last statement of
    the callback of the fourth pass, and by nothing else: when every
    command exits, the record of a file is written without its [ppmFile]
    if the size probe of the fourth pass exited with status zero for the
    file, and with the path of its PPM file if that probe failed, since
    the callback threw before the [delete]. *)
Theorem C10_ppmFile_is_written_when_the_last_callback_throws rt sha256
    isWindows dirname e found s allFiles s1 :
  Utils.getAllFiles rt sha256 dirname found s = (Ret allFiles, s1) →
  no_collision sha256 s found →
  all_exit e (length allFiles) →
  ∃ report s',
    processEverything rt sha256 isWindows dirname e found s = (Ret report, s')
    ∧ list.last (trace s')
      = Some (EvWriteFile (join_strings [dirname; "report.jsonc"])
                (JSON_stringify report))
    ∧ (∀ o, o ∈ JSON_stringify report → o !! "fullname" = None)
    ∧ Forall2 (λ r j,
        ∃ file path,
          allFiles !! j = Some file
          ∧ sha_of r = sha_of file
          ∧ file !! "ppmFile" = Some (VStr path)
          ∧ JSON_object r !! "ppmFile"
            = if probe_ok (bench e D05 j) then None
              else Some (JString path))
        report
        (filter (λ j, probe_ok (bench e C04 j) = true)
           (seq 0 (length allFiles))).
Proof.
  intros Hfiles Hsha Hexit.
  destruct (getAllFiles_distinct rt sha256 dirname found s allFiles s1
              Hfiles Hsha) as [Hisfile Hdistinct].
  exists (run_report rt isWindows dirname e allFiles),
    (add_events s1 (run_trace rt isWindows dirname e allFiles)).
  split.
  { unfold processEverything. rewrite (run_bind_ret _ _ _ _ _ Hfiles).
    by apply benchmark_run. }
  split.
  { cbn [trace add_events]. unfold run_trace.
    by rewrite !app_assoc, last_snoc. }
  pose proof (Forall2_elem_r _ _ _
                (run_report_facing rt isWindows dirname e allFiles Hdistinct))
    as Hrecords.
  split.
  - intros o Ho. unfold JSON_stringify in Ho.
    apply list_elem_of_fmap in Ho as (r & -> & Hr).
    apply list_elem_of_lookup in Hr as [i Hi].
    destruct (Forall2_lookup_l _ _ _ _ _ Hrecords Hi)
      as (j & _ & (file & Hfile & ->) & _).
    apply JSON_object_lookup_None.
    rewrite run_record_frame;
      [|apply (bool_decide_unpack _); reflexivity|discriminate].
    assert (Hf : is_file file).
    { apply (proj1 (list.Forall_forall _ _) Hisfile).
      by eapply list_elem_of_lookup_2. }
    by destruct (is_file_ppmFile file Hf) as (_ & _ & ?).
  - eapply list.Forall2_impl; [exact Hrecords|].
    intros r j [(file & Hfile & ->) _].
    assert (Hf : is_file file).
    { apply (proj1 (list.Forall_forall _ _) Hisfile).
      by eapply list_elem_of_lookup_2. }
    destruct (is_file_ppmFile file Hf) as (path & Hpath & _).
    exists file, path. split; [exact Hfile|].
    split; [apply run_record_sha|]. split; [exact Hpath|].
    rewrite JSON_object_lookup, run_record_ppmFile.
    destruct (probe_ok (bench e D05 j)); [reflexivity|].
    by rewrite Hpath.
Qed.

(** C10 on the example machine, on Windows, when the three restore calls
    of Lea 0.5 fail and [wc -c] then fails on the file that was not
    restored: the record is written with the path of its PPM file. *)
Lemma C10_witness :
  let good := example_step (ok_call 100) (ok_call 100) (ok_call 100)
                "1000 out" in
  ∃ report s' o,
    processEverything example_rt example_sha256 true "/app"
      (example_env good good good broken_step) ["/img/a.png"] example_sys
    = (Ret report, s')
    ∧ JSON_stringify report = [o]
    ∧ o !! "ppmFile" = Some (JString "/app/tmp/ppm/a.png.ppm")
    ∧ o !! "fullname" = None.
Proof.
  intros good.
  destruct getAllFiles_example as (s1 & Hfiles).
  destruct (C10_ppmFile_is_written_when_the_last_callback_throws
              example_rt example_sha256 true "/app"
              (example_env good good good broken_step) ["/img/a.png"]
              example_sys _ s1 Hfiles)
    as (report & s' & Hrun & _ & Hfull & Hrecords).
  - apply example_sha256_no_collision.
  - apply example_env_exits;
      first [apply broken_step_returns
            |apply clean_step_returns, example_step_clean;
             apply ok_call_returns].
  - change (filter _ _) with [0%nat] in Hrecords.
    apply Forall2_cons_inv_r in Hrecords
      as (r & rest & (file & path & Hfile & _ & Hpath & Hppm) & Hrecords & ->).
    apply Forall2_nil_inv_r in Hrecords as ->.
    injection Hfile as <-.
    change (Some (VStr "/app/tmp/ppm/a.png.ppm") = Some (VStr path)) in Hpath.
    injection Hpath as <-.
    exists [r], s', (JSON_object r).
    split; [exact Hrun|]. split; [reflexivity|].
    split; [exact Hppm|]. apply Hfull, list_elem_of_here.
Defined.
